(** * DB General Construction: client-side utilities

    A shallow embedding of the storage, authentication and validation
    utilities of the site (src/js/utils/storage.js, src/js/utils/auth.js,
    the object CONFIG of src/js/utils/api.js, and the validation utility),
    together with the platform functions that they call: JSON, base64,
    the string helpers, regular expressions, localStorage and Date.now.

    Modelling conventions
    - A JavaScript string is a [string]: a sequence of code units below
      256.  A code unit above that can only come from an escape [\uXXXX]
      in a JSON text: [JSON.parse] accepts the escape, and keeps its six
      characters in the place of the code unit.
    - A JavaScript number is an integer ([JNum n]) or a decimal fraction
      ([JDec m e], the number [m / 10^e]).  Numbers are exact and not
      bounded: the rounding of 64-bit floats is outside the model.  The
      result of a conversion to a number may also be NaN or infinite.
    - A JavaScript object is the list of its own properties.  The members
      that every object inherits from [Object.prototype] are read where
      the code looks up a name that its caller chooses ([validateForm]).
    - The string form and the number form of an object are those of a
      plain object: an own property [toString] or [valueOf] that would
      change them is outside the model.
    - The browser state that the code reads and writes is the record
      [World]; code runs in the monad [M], which threads the world and may
      throw.  A [try]/[catch] of the source is a [try_catch] here.
    - [localStorage] has a quota: [setItem] throws a QuotaExceededError when
      the entries would not fit, which is the error that
      [StorageUtil.set] handles.  A key that is the name of a member of the
      storage object itself ([length], [getItem], [toString], ...) is
      outside the model: the loops over the entries do not see it.
    - [Date.now()] reads the field [clock]; the clock does not advance
      during one synchronous call.
    - Console output is not part of the state.

    The definitions come first: the platform, then the three utilities,
    then the vocabulary of the statements.  The facts follow, and the
    statements about the specification come last. *)

From Stdlib Require Import ZArith String Ascii List Bool Lia.
From Stdlib Require Import Decimal DecimalFacts DecimalPos DecimalZ DecimalString.
From stdpp Require Import base option list gmap strings fin_maps.

Local Open Scope string_scope.
Local Open Scope list_scope.
Local Open Scope Z_scope.

Set Default Proof Using "Type".

(* ===================================================================== *)
(** ** Characters and strings *)
(* ===================================================================== *)

Definition code (c : ascii) : N := N_of_ascii c.

Definition in_range (lo hi c : ascii) : bool :=
  ((code lo <=? code c) && (code c <=? code hi))%N.

Definition is_digit (c : ascii) : bool := in_range "0" "9" c.
Definition is_upper (c : ascii) : bool := in_range "A" "Z" c.
Definition is_lower (c : ascii) : bool := in_range "a" "z" c.
Definition is_alnum (c : ascii) : bool := is_upper c || is_lower c || is_digit c.

(** ECMAScript WhiteSpace and LineTerminator code units below 256: TAB, LF,
    VT, FF, CR, SP and NBSP.  This is what [trim] strips and what [\s]
    matches. *)
Definition is_js_space (c : ascii) : bool :=
  ((9 <=? code c) && (code c <=? 13) || (code c =? 32) || (code c =? 160))%N.

Fixpoint trimStart (s : string) : string :=
  match s with
  | String c r => if is_js_space c then trimStart r else s
  | EmptyString => EmptyString
  end.

(** [trimEnd] keeps a character when it is not a space or when something
    remains after it. *)
Fixpoint trimEnd (s : string) : string :=
  match s with
  | String c r =>
      match trimEnd r with
      | EmptyString => if is_js_space c then EmptyString else String c EmptyString
      | r' => String c r'
      end
  | EmptyString => EmptyString
  end.

(** [String.prototype.trim] *)
Definition trim (s : string) : string := trimEnd (trimStart s).

(** [s.split(sep)] for a one-character separator. *)
Fixpoint split (sep : ascii) (s : string) : list string :=
  match s with
  | EmptyString => [EmptyString]
  | String c r =>
      if Ascii.eqb c sep then EmptyString :: split sep r
      else match split sep r with
           | h :: t => String c h :: t
           | [] => [String c EmptyString]
           end
  end.

Fixpoint starts_with (p s : string) : bool :=
  match p, s with
  | EmptyString, _ => true
  | String a p', String b s' => Ascii.eqb a b && starts_with p' s'
  | String _ _, EmptyString => false
  end.

(** [s.includes(sub)] *)
Fixpoint includes (sub s : string) : bool :=
  starts_with sub s ||
  match s with
  | String _ r => includes sub r
  | EmptyString => false
  end.

(** [s.replace(/[...]/g, '')] for a character class: drop every matching
    character. *)
Fixpoint remove_chars (p : ascii -> bool) (s : string) : string :=
  match s with
  | String c r => if p c then remove_chars p r else String c (remove_chars p r)
  | EmptyString => EmptyString
  end.

(** String concatenation, [p + k]. *)
Fixpoint prepend (p k : string) : string :=
  match p with
  | EmptyString => k
  | String c r => String c (prepend r k)
  end.

Definition str_length (s : string) : Z := Z.of_nat (String.length s).

(* ===================================================================== *)
(** ** JavaScript values *)
(* ===================================================================== *)

(** The values that the utilities store, parse and compare.  [JDec m e] is
    the number [m / 10^e]; it is in lowest terms when [m] does not end in
    0, and then it is not an integer.  An object is the list of its own
    properties in enumeration order; keys are unique in an object built by
    [obj_set]. *)
#[warnings="-register-all"]
Inductive JsVal : Type :=
  | JUndefined
  | JNull
  | JBool (b : bool)
  | JNum (n : Z)
  | JDec (m : Z) (e : positive)
  | JStr (s : string)
  | JArr (items : list JsVal)
  | JObj (fields : list (string * JsVal)).

Section JsVal_induction.
Variable P : JsVal -> Prop.
Hypothesis Hundef : P JUndefined.
Hypothesis Hnull : P JNull.
Hypothesis Hbool : forall b, P (JBool b).
Hypothesis Hnum : forall n, P (JNum n).
Hypothesis Hdec : forall m e, P (JDec m e).
Hypothesis Hstr : forall s, P (JStr s).
Hypothesis Harr : forall l, Forall P l -> P (JArr l).
Hypothesis Hobj : forall fs, Forall (fun kv => P (snd kv)) fs -> P (JObj fs).

Fixpoint JsVal_nested_ind (v : JsVal) : P v :=
  match v with
  | JUndefined => Hundef
  | JNull => Hnull
  | JBool b => Hbool b
  | JNum n => Hnum n
  | JDec m e => Hdec m e
  | JStr s => Hstr s
  | JArr l =>
      Harr l ((fix go (l : list JsVal) : Forall P l :=
                 match l with
                 | [] => List.Forall_nil P
                 | x :: r => List.Forall_cons P x r (JsVal_nested_ind x) (go r)
                 end) l)
  | JObj fs =>
      Hobj fs ((fix go (fs : list (string * JsVal))
                  : Forall (fun kv => P (snd kv)) fs :=
                  match fs with
                  | [] => List.Forall_nil _
                  | kv :: r =>
                      List.Forall_cons _ kv r (JsVal_nested_ind (snd kv)) (go r)
                  end) fs)
  end.
End JsVal_induction.

(** ToBoolean *)
Definition truthy (v : JsVal) : bool :=
  match v with
  | JUndefined | JNull => false
  | JBool b => b
  | JNum n => negb (n =? 0)
  | JDec m _ => negb (m =? 0)
  | JStr s => negb (String.eqb s EmptyString)
  | JArr _ | JObj _ => true
  end.

Definition is_string (v : JsVal) : bool :=
  match v with JStr _ => true | _ => false end.

(** [Array.isArray] *)
Definition isArray (v : JsVal) : bool :=
  match v with JArr _ => true | _ => false end.

(** Own-property lookup in a property list. *)
Fixpoint obj_get {A : Type} (k : string) (fs : list (string * A)) : option A :=
  match fs with
  | [] => None
  | (k', v) :: r => if String.eqb k' k then Some v else obj_get k r
  end.

(** [o[k] = v] on a property list: an existing property keeps its place. *)
Fixpoint obj_set {A : Type} (k : string) (v : A) (fs : list (string * A))
  : list (string * A) :=
  match fs with
  | [] => [(k, v)]
  | (k', v') :: r =>
      if String.eqb k' k then (k, v) :: r else (k', v') :: obj_set k v r
  end.

Fixpoint obj_remove {A : Type} (k : string) (fs : list (string * A))
  : list (string * A) :=
  match fs with
  | [] => []
  | (k', v') :: r =>
      if String.eqb k' k then obj_remove k r else (k', v') :: obj_remove k r
  end.

(** [v.k] for a value that is neither null nor undefined and a key other
    than the built-in [length]: only an object has such a property. *)
Definition get_prop (v : JsVal) (k : string) : JsVal :=
  match v with
  | JObj fs => default JUndefined (obj_get k fs)
  | _ => JUndefined
  end.

(** [v.k = x] in non-strict code: a property of an object is set; an
    assignment to a primitive is dropped; a named property of an array does
    not show in its JSON text. *)
Definition set_prop (v : JsVal) (k : string) (x : JsVal) : JsVal :=
  match v with
  | JObj fs => JObj (obj_set k x fs)
  | _ => v
  end.

(** A parameter with a default initialiser, [function (v = d)]: the
    initialiser is used when the argument is missing or is [undefined]. *)
Definition or_default (v d : JsVal) : JsVal :=
  match v with
  | JUndefined => d
  | _ => v
  end.

(** [v === JStr s] *)
Definition strict_eq_str (v : JsVal) (s : string) : bool :=
  match v with
  | JStr t => String.eqb t s
  | _ => false
  end.

(* ===================================================================== *)
(** ** Numbers and their decimal text *)
(* ===================================================================== *)

Definition digit_of (c : ascii) : option (uint -> uint) :=
  if Ascii.eqb c "0" then Some D0
  else if Ascii.eqb c "1" then Some D1
  else if Ascii.eqb c "2" then Some D2
  else if Ascii.eqb c "3" then Some D3
  else if Ascii.eqb c "4" then Some D4
  else if Ascii.eqb c "5" then Some D5
  else if Ascii.eqb c "6" then Some D6
  else if Ascii.eqb c "7" then Some D7
  else if Ascii.eqb c "8" then Some D8
  else if Ascii.eqb c "9" then Some D9
  else None.

(** The longest run of decimal digits at the head of [s], and what follows. *)
Fixpoint read_digits (s : string) : uint * string :=
  match s with
  | EmptyString => (Nil, EmptyString)
  | String c r =>
      match digit_of c with
      | Some D => let '(d, rest) := read_digits r in (D d, rest)
      | None => (Nil, s)
      end
  end.

(** The digits of [d], most significant first, in front of [k]. *)
Fixpoint write_uint (d : uint) (k : string) : string :=
  match d with
  | Nil => k
  | D0 d' => String "0" (write_uint d' k)
  | D1 d' => String "1" (write_uint d' k)
  | D2 d' => String "2" (write_uint d' k)
  | D3 d' => String "3" (write_uint d' k)
  | D4 d' => String "4" (write_uint d' k)
  | D5 d' => String "5" (write_uint d' k)
  | D6 d' => String "6" (write_uint d' k)
  | D7 d' => String "7" (write_uint d' k)
  | D8 d' => String "8" (write_uint d' k)
  | D9 d' => String "9" (write_uint d' k)
  end.

(** Number::toString for an integer, in front of [k]: all its digits, as
    for every integer that a 64-bit float holds exactly up to [2^53]. *)
Definition write_number (n : Z) (k : string) : string :=
  match n with
  | Z0 => String "0" k
  | Zpos p => write_uint (Pos.to_uint p) k
  | Zneg p => String "-" (write_uint (Pos.to_uint p) k)
  end.

Definition number_to_string (n : Z) : string := write_number n EmptyString.

(** A number as a conversion gives it: an integer, the fraction
    [m / 10^e], or an infinity.  NaN is the absence of a number. *)
Inductive Number : Type :=
  | Int (n : Z)
  | Dec (m : Z) (e : positive)
  | Inf (negative : bool).

(** [m / 10^scale] in lowest terms, as an integer or as a fraction. *)
Fixpoint reduce {A : Type} (int : Z -> A) (dec : Z -> positive -> A)
         (m : Z) (scale : nat) : A :=
  match scale with
  | O => int m
  | S n =>
      if m mod 10 =? 0 then reduce int dec (m / 10) n
      else dec m (Pos.of_succ_nat n)
  end.

(** [m * 10^x] *)
Definition scaled {A : Type} (int : Z -> A) (dec : Z -> positive -> A)
           (m x : Z) : A :=
  match x with
  | Z0 => int m
  | Zpos _ => int (m * 10 ^ x)
  | Zneg p => reduce int dec m (Pos.to_nat p)
  end.

Definition digit_val (c : ascii) : option Z :=
  if is_digit c then Some (Z.of_N (code c) - 48) else None.

Definition digit_char (d : Z) : ascii := ascii_of_N (48 + Z.to_N d).

(** The digits at the head of [s], appended to the numeral [m]: the new
    numeral, the number of digits read, and what follows them. *)
Fixpoint read_more_digits (m : Z) (s : string) : Z * nat * string :=
  match s with
  | EmptyString => (m, O, s)
  | String c r =>
      match digit_val c with
      | Some d =>
          let '(m', n, rest) := read_more_digits (10 * m + d) r in
          (m', S n, rest)
      | None => (m, O, s)
      end
  end.

(** The [n] digits of [r], for [r] below [10^n], in front of [k]. *)
Fixpoint write_digits (n : nat) (r : Z) (k : string) : string :=
  match n with
  | O => k
  | S n' =>
      String (digit_char (r / 10 ^ Z.of_nat n'))
        (write_digits n' (r mod 10 ^ Z.of_nat n') k)
  end.

(** [p / 10^s] in positional notation, for [p] not negative: the integer
    part, then the point and [s] digits when [s] is not 0. *)
Definition write_fixed (p : Z) (s : nat) (k : string) : string :=
  write_number (p / 10 ^ Z.of_nat s)
    (match s with
     | O => k
     | S _ => String "." (write_digits s (p mod 10 ^ Z.of_nat s) k)
     end).

(** The number of decimal digits of [p]. *)
Definition digit_count (p : Z) : nat :=
  match p with
  | Zpos q => nb_digits (Pos.to_uint q)
  | _ => 1%nat
  end.

(** Number::toString for the fraction [m / 10^e] in lowest terms, in front
    of [k].  With [d] digits in [m], the number is below [10^-6] when
    [d + 6 <= e], and is then written with an exponent: [1.5e-7]. *)
Definition write_decimal (m : Z) (e : positive) (k : string) : string :=
  let p := Z.abs m in
  let d := digit_count p in
  let text :=
    if (d + 6 <=? Pos.to_nat e)%nat then
      write_fixed p (d - 1)
        (String "e" (String "-"
           (write_number (Z.pos e - Z.of_nat (d - 1)) k)))
    else write_fixed p (Pos.to_nat e) k in
  if m <? 0 then String "-" text else text.

(** Number::toString for any fraction [m / 10^e], in front of [k]. *)
Definition write_fraction (m : Z) (e : positive) (k : string) : string :=
  reduce (fun n => write_number n k) (fun m' e' => write_decimal m' e' k)
    m (Pos.to_nat e).

(** The exponent part of a number literal at the head of [s], if there is
    one: its value (0 without an exponent part) and what follows.  [None]
    when no digit follows the [e]. *)
Definition read_exponent (s : string) : option (Z * string) :=
  match s with
  | String c r =>
      if Ascii.eqb c "e" || Ascii.eqb c "E" then
        let '(sign, body) :=
          match r with
          | String c' r' =>
              if Ascii.eqb c' "-" then (-1, r')
              else if Ascii.eqb c' "+" then (1, r') else (1, r)
          | EmptyString => (1, r)
          end in
        match read_digits body with
        | (Nil, _) => None
        | (d, rest) => Some (sign * Z.of_uint d, rest)
        end
      else Some (0, s)
  | EmptyString => Some (0, s)
  end.

(** The digits of a literal in base 2, 8 or 16, after its prefix: at least
    one digit, and nothing else. *)
Definition radix_digit (radix : Z) (c : ascii) : option Z :=
  let v :=
    if is_digit c then Some (Z.of_N (code c) - 48)
    else if in_range "a" "f" c then Some (Z.of_N (code c) - 87)
    else if in_range "A" "F" c then Some (Z.of_N (code c) - 55)
    else None in
  match v with
  | Some d => if d <? radix then Some d else None
  | None => None
  end.

Fixpoint radix_digits (radix acc : Z) (s : string) : option Z :=
  match s with
  | EmptyString => Some acc
  | String c r =>
      match radix_digit radix c with
      | Some d => radix_digits radix (radix * acc + d) r
      | None => None
      end
  end.

Definition radix_literal (radix : Z) (s : string) : option Number :=
  match s with
  | EmptyString => None
  | String _ _ =>
      match radix_digits radix 0 s with
      | Some n => Some (Int n)
      | None => None
      end
  end.

(** An unsigned decimal literal: digits, then optionally a point and
    digits, then optionally an exponent part.  The digits before the point
    or those after it may be missing, not both. *)
Definition decimal_literal (sign : Z) (s : string) : option Number :=
  let '(i, r1) := read_digits s in
  let '(m, count, r2) :=
    match r1 with
    | String c r' =>
        if Ascii.eqb c "." then read_more_digits (Z.of_uint i) r'
        else (Z.of_uint i, O, r1)
    | EmptyString => (Z.of_uint i, O, r1)
    end in
  match i, count with
  | Nil, O => None
  | _, _ =>
      match read_exponent r2 with
      | Some (x, EmptyString) =>
          Some (scaled Int Dec (sign * m) (x - Z.of_nat count))
      | _ => None
      end
  end.

(** The digits of a literal with the prefix [0a] or [0b]. *)
Definition radix_prefix (a b : ascii) (s : string) : option string :=
  match s with
  | String c (String x digits) =>
      if Ascii.eqb c "0" && (Ascii.eqb x a || Ascii.eqb x b) then Some digits
      else None
  | _ => None
  end.

(** StringToNumber: surrounding white space is ignored and the empty string
    is 0; then comes a literal in base 16, 8 or 2 with its prefix, or an
    optional sign followed by [Infinity] or by a decimal literal.  [None]
    is NaN. *)
Definition StringToNumber (s : string) : option Number :=
  match trim s with
  | EmptyString => Some (Int 0)
  | String c r as t =>
      match radix_prefix "x" "X" t, radix_prefix "o" "O" t,
            radix_prefix "b" "B" t with
      | Some digits, _, _ => radix_literal 16 digits
      | _, Some digits, _ => radix_literal 8 digits
      | _, _, Some digits => radix_literal 2 digits
      | None, None, None =>
          let '(sign, body) :=
            if Ascii.eqb c "-" then (-1, r)
            else if Ascii.eqb c "+" then (1, r) else (1, t) in
          if String.eqb body "Infinity" then Some (Inf (sign <? 0))
          else decimal_literal sign body
      end
  end.

(** ToNumber; [None] is NaN.  An array converts through its string form:
    the empty array is the empty string, a one-element array is the string
    of its element, and a longer one contains a comma. *)
Fixpoint ToNumber (v : JsVal) : option Number :=
  match v with
  | JUndefined => None
  | JNull => Some (Int 0)
  | JBool b => Some (Int (if b then 1 else 0))
  | JNum n => Some (Int n)
  | JDec m e => Some (Dec m e)
  | JStr s => StringToNumber s
  | JArr [] => Some (Int 0)
  | JArr [x] =>
      match x with
      | JUndefined | JNull => Some (Int 0)
      | JBool _ | JObj _ => None
      | JNum _ | JDec _ _ | JStr _ | JArr _ => ToNumber x
      end
  | JArr _ => None
  | JObj _ => None
  end.

(** [a < b] and [a <= b]: two fractions are compared over a common power
    of ten. *)
Definition num_ltb (a b : Number) : bool :=
  match a, b with
  | Int x, Int y => x <? y
  | Int x, Dec m e => x * 10 ^ Z.pos e <? m
  | Dec m e, Int y => m <? y * 10 ^ Z.pos e
  | Dec m e, Dec m' e' => m * 10 ^ Z.pos e' <? m' * 10 ^ Z.pos e
  | Inf n, Inf n' => n && negb n'
  | Inf n, _ => n
  | _, Inf n' => negb n'
  end.

Definition num_leb (a b : Number) : bool :=
  match a, b with
  | Int x, Int y => x <=? y
  | Int x, Dec m e => x * 10 ^ Z.pos e <=? m
  | Dec m e, Int y => m <=? y * 10 ^ Z.pos e
  | Dec m e, Dec m' e' => m * 10 ^ Z.pos e' <=? m' * 10 ^ Z.pos e
  | Inf n, Inf n' => n || negb n'
  | Inf n, _ => n
  | _, Inf n' => negb n'
  end.

(** [v < n], [v >= n] and [n - v] for a number [n]: a comparison with NaN
    is false. *)
Definition js_lt_num (v : JsVal) (n : Z) : bool :=
  match ToNumber v with Some a => num_ltb a (Int n) | None => false end.

Definition num_ge (a : option Number) (n : Z) : bool :=
  match a with Some x => num_leb (Int n) x | None => false end.

Definition num_sub (n : Z) (v : JsVal) : option Number :=
  match ToNumber v with
  | Some (Int a) => Some (Int (n - a))
  | Some (Dec m e) => Some (Dec (n * 10 ^ Z.pos e - m) e)
  | Some (Inf negative) => Some (Inf (negb negative))
  | None => None
  end.

(** [a > n] for a number [n]. *)
Definition num_gt (a : option Number) (n : Z) : bool :=
  match a with Some x => num_ltb (Int n) x | None => false end.

(** [a >= v] and [a <= v] for a number [a] and any value [v]. *)
Definition num_ge_val (a : Number) (v : JsVal) : bool :=
  match ToNumber v with Some b => num_leb b a | None => false end.

Definition num_le_val (a : Number) (v : JsVal) : bool :=
  match ToNumber v with Some b => num_leb a b | None => false end.

(** ToString: a number in decimal notation, an array as its elements
    joined by commas (an element that is null or undefined gives the empty
    string), an object as [[object Object]]. *)
Fixpoint ToString (v : JsVal) : string :=
  match v with
  | JUndefined => "undefined"
  | JNull => "null"
  | JBool true => "true"
  | JBool false => "false"
  | JNum n => number_to_string n
  | JDec m e => write_fraction m e EmptyString
  | JStr s => s
  | JArr l =>
      (fix join (l : list JsVal) (first : bool) : string :=
         match l with
         | [] => EmptyString
         | x :: r =>
             prepend (if first then EmptyString else ",")
               (prepend
                  (match x with
                   | JUndefined | JNull => EmptyString
                   | _ => ToString x
                   end)
                  (join r false))
         end) l true
  | JObj _ => "[object Object]"
  end.

(** An integer where a value is expected is that number. *)
Coercion JNum : Z >-> JsVal.

(** [v === n] for a number [n]. *)
Definition strict_eq_num (v : JsVal) (n : Z) : bool :=
  match v with
  | JNum m => m =? n
  | JDec m e => m =? n * 10 ^ Z.pos e
  | _ => false
  end.

(** ToInt32: the value modulo 2^32, read as a signed 32-bit integer. *)
Definition ToInt32 (n : Z) : Z :=
  let m := n mod 4294967296 in
  if m <? 2147483648 then m else m - 4294967296.

(** [a << k]: the left operand as a 32-bit integer, the shift count modulo
    32, the result again a signed 32-bit integer. *)
Definition js_shl (a k : Z) : Z := ToInt32 (Z.shiftl (ToInt32 a) (k mod 32)).

(** [a & b] on the 32-bit forms of the operands. *)
Definition js_and (a b : Z) : Z := Z.land (ToInt32 a) (ToInt32 b).

(** The hexadecimal digits of [d], most significant first, in front of
    [k]. *)
Fixpoint write_hex_uint (d : Hexadecimal.uint) (k : string) : string :=
  match d with
  | Hexadecimal.Nil => k
  | Hexadecimal.D0 d' => String "0" (write_hex_uint d' k)
  | Hexadecimal.D1 d' => String "1" (write_hex_uint d' k)
  | Hexadecimal.D2 d' => String "2" (write_hex_uint d' k)
  | Hexadecimal.D3 d' => String "3" (write_hex_uint d' k)
  | Hexadecimal.D4 d' => String "4" (write_hex_uint d' k)
  | Hexadecimal.D5 d' => String "5" (write_hex_uint d' k)
  | Hexadecimal.D6 d' => String "6" (write_hex_uint d' k)
  | Hexadecimal.D7 d' => String "7" (write_hex_uint d' k)
  | Hexadecimal.D8 d' => String "8" (write_hex_uint d' k)
  | Hexadecimal.D9 d' => String "9" (write_hex_uint d' k)
  | Hexadecimal.Da d' => String "a" (write_hex_uint d' k)
  | Hexadecimal.Db d' => String "b" (write_hex_uint d' k)
  | Hexadecimal.Dc d' => String "c" (write_hex_uint d' k)
  | Hexadecimal.Dd d' => String "d" (write_hex_uint d' k)
  | Hexadecimal.De d' => String "e" (write_hex_uint d' k)
  | Hexadecimal.Df d' => String "f" (write_hex_uint d' k)
  end.

(** [n.toString(16)] for an integer. *)
Definition number_to_hex (n : Z) : string :=
  match n with
  | Z0 => "0"
  | Zpos p => write_hex_uint (Pos.to_hex_uint p) EmptyString
  | Zneg p => String "-" (write_hex_uint (Pos.to_hex_uint p) EmptyString)
  end.

(* ===================================================================== *)
(** ** JSON text *)
(* ===================================================================== *)

Module JSON.

Definition dquote : ascii := ascii_of_N 34.
Definition backslash : ascii := "\".

Definition hex_char (n : N) : ascii :=
  if (n <? 10)%N then ascii_of_N (48 + n) else ascii_of_N (87 + n).

Definition hex_val (c : ascii) : option N :=
  if is_digit c then Some (code c - 48)%N
  else if in_range "a" "f" c then Some (code c - 87)%N
  else if in_range "A" "F" c then Some (code c - 55)%N
  else None.

(** QuoteJSONString, one code unit: the quote and the backslash are
    escaped, the control characters have a short or a [\u00XX] form. *)
Definition escape_char (c : ascii) (k : string) : string :=
  if Ascii.eqb c dquote then String backslash (String dquote k)
  else if Ascii.eqb c backslash then String backslash (String backslash k)
  else if (code c =? 8)%N then String backslash (String "b" k)
  else if (code c =? 9)%N then String backslash (String "t" k)
  else if (code c =? 10)%N then String backslash (String "n" k)
  else if (code c =? 12)%N then String backslash (String "f" k)
  else if (code c =? 13)%N then String backslash (String "r" k)
  else if (code c <? 32)%N then
    String backslash (String "u" (String "0" (String "0"
      (String (hex_char (code c / 16)) (String (hex_char (code c mod 16)) k)))))
  else String c k.

Fixpoint write_string_body (s : string) (k : string) : string :=
  match s with
  | EmptyString => k
  | String c r => escape_char c (write_string_body r k)
  end.

Definition write_string (s : string) (k : string) : string :=
  String dquote (write_string_body s (String dquote k)).

Definition sep (first : bool) (k : string) : string :=
  if first then k else String "," k.

(** SerializeJSONProperty without indentation, in front of [k].  An
    undefined array element is written as null; a property whose value is
    undefined is left out. *)
Fixpoint write_value (v : JsVal) (k : string) : string :=
  match v with
  | JUndefined | JNull => prepend "null" k
  | JBool true => prepend "true" k
  | JBool false => prepend "false" k
  | JNum n => write_number n k
  | JDec m e => write_fraction m e k
  | JStr s => write_string s k
  | JArr l =>
      String "["
        ((fix elements (l : list JsVal) (first : bool) : string :=
            match l with
            | [] => String "]" k
            | x :: r => sep first (write_value x (elements r false))
            end) l true)
  | JObj fs =>
      String "{"
        ((fix members (fs : list (string * JsVal)) (first : bool) : string :=
            match fs with
            | [] => String "}" k
            | (key, x) :: r =>
                match x with
                | JUndefined => members r first
                | _ => sep first (write_string key
                         (String ":" (write_value x (members r false))))
                end
            end) fs true)
  end.

(** [JSON.stringify(v)]: [None] is the result [undefined]. *)
Definition stringify (v : JsVal) : option string :=
  match v with
  | JUndefined => None
  | _ => Some (write_value v EmptyString)
  end.

Definition is_ws (c : ascii) : bool :=
  ((code c =? 32) || (code c =? 9) || (code c =? 10) || (code c =? 13))%N.

Fixpoint skip_ws (s : string) : string :=
  match s with
  | String c r => if is_ws c then skip_ws r else s
  | EmptyString => EmptyString
  end.

Fixpoint strip_prefix (p s : string) : option string :=
  match p, s with
  | EmptyString, _ => Some s
  | String a p', String b s' =>
      if Ascii.eqb a b then strip_prefix p' s' else None
  | String _ _, EmptyString => None
  end.

(** What the escape [\uXXXX] adds to a string: its code unit, when that is
    below 256; for a code unit above, which a [string] cannot hold, the
    six characters of the escape itself, in lower case, stand for it. *)
Definition unicode_escape (h1 h2 h3 h4 : ascii) : option string :=
  match hex_val h1, hex_val h2, hex_val h3, hex_val h4 with
  | Some a, Some b, Some c, Some d =>
      let n := (((a * 16 + b) * 16 + c) * 16 + d)%N in
      if (n <? 256)%N then Some (String (ascii_of_N n) EmptyString)
      else
        Some (String backslash (String "u" (String (hex_char a)
               (String (hex_char b) (String (hex_char c)
                  (String (hex_char d) EmptyString))))))
  | _, _, _, _ => None
  end.

Definition cons_char (c : ascii) (r : option (string * string))
  : option (string * string) :=
  match r with
  | Some (s, rest) => Some (String c s, rest)
  | None => None
  end.

Definition cons_string (p : string) (r : option (string * string))
  : option (string * string) :=
  match r with
  | Some (s, rest) => Some (prepend p s, rest)
  | None => None
  end.

(** The characters of a string literal after its opening quote, up to and
    including the closing quote. *)
Fixpoint parse_string_body (s : string) : option (string * string) :=
  match s with
  | EmptyString => None
  | String c r =>
      if Ascii.eqb c dquote then Some (EmptyString, r)
      else if Ascii.eqb c backslash then
        match r with
        | EmptyString => None
        | String e r' =>
            if Ascii.eqb e dquote then cons_char dquote (parse_string_body r')
            else if Ascii.eqb e backslash then
              cons_char backslash (parse_string_body r')
            else if Ascii.eqb e "/" then cons_char "/" (parse_string_body r')
            else if Ascii.eqb e "b" then
              cons_char (ascii_of_N 8) (parse_string_body r')
            else if Ascii.eqb e "t" then
              cons_char (ascii_of_N 9) (parse_string_body r')
            else if Ascii.eqb e "n" then
              cons_char (ascii_of_N 10) (parse_string_body r')
            else if Ascii.eqb e "f" then
              cons_char (ascii_of_N 12) (parse_string_body r')
            else if Ascii.eqb e "r" then
              cons_char (ascii_of_N 13) (parse_string_body r')
            else if Ascii.eqb e "u" then
              match r' with
              | String h1 (String h2 (String h3 (String h4 r''))) =>
                  match unicode_escape h1 h2 h3 h4 with
                  | Some p => cons_string p (parse_string_body r'')
                  | None => None
                  end
              | _ => None
              end
            else None
        end
      else if (code c <? 32)%N then None
      else cons_char c (parse_string_body r)
  end.

(** The fraction part of a number literal at the head of [s], after the
    numeral [m] of the integer part: the numeral of all the digits, the
    number of digits after the point (0 without a fraction part), and what
    follows.  [None] when no digit follows the point. *)
Definition read_fraction (m : Z) (s : string) : option (Z * nat * string) :=
  match s with
  | String c r =>
      if Ascii.eqb c "." then
        match read_more_digits m r with
        | (_, O, _) => None
        | res => Some res
        end
      else Some (m, O, s)
  | EmptyString => Some (m, O, s)
  end.

(** The rest of a number literal after the digits [d] of its integer
    part, and the number that the literal denotes. *)
Definition number_tail (sign : Z) (d : uint) (r1 : string)
  : option (JsVal * string) :=
  match read_fraction (Z.of_uint d) r1 with
  | Some (m, count, r2) =>
      match read_exponent r2 with
      | Some (x, rest) =>
          Some (scaled JNum JDec (sign * m) (x - Z.of_nat count), rest)
      | None => None
      end
  | None => None
  end.

(** A JSON number: an optional minus sign; then 0 or a digit run that does
    not start with 0; then optionally a fraction part, and optionally an
    exponent part. *)
Definition parse_number (s : string) : option (JsVal * string) :=
  let '(sign, body) :=
    match s with
    | String c r => if Ascii.eqb c "-" then (-1, r) else (1, s)
    | EmptyString => (1, s)
    end in
  match read_digits body with
  | (Nil, _) => None
  | (D0 (D0 _ | D1 _ | D2 _ | D3 _ | D4 _ | D5 _ | D6 _ | D7 _ | D8 _ | D9 _), _) =>
      None
  | (d, r1) => number_tail sign d r1
  end.

(** The object with the given members, a later duplicate key overwriting
    an earlier one. *)
Definition build_object (ms : list (string * JsVal)) : JsVal :=
  JObj (fold_left (fun acc kv => obj_set (fst kv) (snd kv) acc) ms []).

(** Recursive descent; every call spends one unit of [fuel]. *)
Fixpoint parse_value (fuel : nat) (s : string) : option (JsVal * string) :=
  match fuel with
  | O => None
  | S f =>
      match skip_ws s with
      | EmptyString => None
      | String c r as t =>
          if is_digit c || Ascii.eqb c "-" then parse_number t
          else if Ascii.eqb c dquote then
            match parse_string_body r with
            | Some (str, rest) => Some (JStr str, rest)
            | None => None
            end
          else if Ascii.eqb c "[" then
            match skip_ws r with
            | String c' rest =>
                if Ascii.eqb c' "]" then Some (JArr [], rest)
                else match parse_elements f r with
                     | Some (l, rest') => Some (JArr l, rest')
                     | None => None
                     end
            | EmptyString => None
            end
          else if Ascii.eqb c "{" then
            match skip_ws r with
            | String c' rest =>
                if Ascii.eqb c' "}" then Some (JObj [], rest)
                else match parse_members f r with
                     | Some (ms, rest') => Some (build_object ms, rest')
                     | None => None
                     end
            | EmptyString => None
            end
          else if Ascii.eqb c "t" then
            match strip_prefix "rue" r with
            | Some rest => Some (JBool true, rest)
            | None => None
            end
          else if Ascii.eqb c "f" then
            match strip_prefix "alse" r with
            | Some rest => Some (JBool false, rest)
            | None => None
            end
          else if Ascii.eqb c "n" then
            match strip_prefix "ull" r with
            | Some rest => Some (JNull, rest)
            | None => None
            end
          else None
      end
  end
with parse_elements (fuel : nat) (s : string)
  : option (list JsVal * string) :=
  match fuel with
  | O => None
  | S f =>
      match parse_value f s with
      | Some (v, r) =>
          match skip_ws r with
          | String c r' =>
              if Ascii.eqb c "," then
                match parse_elements f r' with
                | Some (vs, rest) => Some (v :: vs, rest)
                | None => None
                end
              else if Ascii.eqb c "]" then Some ([v], r')
              else None
          | EmptyString => None
          end
      | None => None
      end
  end
with parse_members (fuel : nat) (s : string)
  : option (list (string * JsVal) * string) :=
  match fuel with
  | O => None
  | S f =>
      match skip_ws s with
      | String c r =>
          if Ascii.eqb c dquote then
            match parse_string_body r with
            | Some (key, r1) =>
                match skip_ws r1 with
                | String c2 r2 =>
                    if Ascii.eqb c2 ":" then
                      match parse_value f r2 with
                      | Some (v, r3) =>
                          match skip_ws r3 with
                          | String c3 r4 =>
                              if Ascii.eqb c3 "," then
                                match parse_members f r4 with
                                | Some (ms, rest) => Some ((key, v) :: ms, rest)
                                | None => None
                                end
                              else if Ascii.eqb c3 "}" then
                                Some ([(key, v)], r4)
                              else None
                          | EmptyString => None
                          end
                      | None => None
                      end
                    else None
                | EmptyString => None
                end
            | None => None
            end
          else None
      | EmptyString => None
      end
  end.

(** [JSON.parse(text)]: [None] is a SyntaxError.  The fuel is never
    exhausted on a text written by [stringify] (see the round trip). *)
Definition parse (text : string) : option JsVal :=
  match parse_value (2 * String.length text + 2) text with
  | Some (v, rest) =>
      match skip_ws rest with
      | EmptyString => Some v
      | String _ _ => None
      end
  | None => None
  end.

End JSON.


(** [s] between double quotes. *)
Definition quoted (s : string) : string :=
  String JSON.dquote (prepend s (String JSON.dquote EmptyString)).

(* ===================================================================== *)
(** ** JSON-serializable values *)
(* ===================================================================== *)

Fixpoint unique_keys (ks : list string) : bool :=
  match ks with
  | [] => true
  | k :: r => negb (existsb (String.eqb k) r) && unique_keys r
  end.

(** The values of the JSON data model: null, booleans, numbers, strings,
    arrays and objects of such values.  [undefined] is not one, nor is a
    value that contains it.  A fraction is in lowest terms. *)
Fixpoint is_json (v : JsVal) : bool :=
  match v with
  | JUndefined => false
  | JNull | JBool _ | JNum _ | JStr _ => true
  | JDec m _ => negb (m mod 10 =? 0)
  | JArr l => forallb is_json l
  | JObj fs => forallb (fun kv => is_json (snd kv)) fs && unique_keys (List.map fst fs)
  end.

(** The number of parser calls that reading a value back takes. *)
Fixpoint value_size (v : JsVal) : nat :=
  match v with
  | JArr l => S (list_sum (List.map (fun x => S (value_size x)) l))
  | JObj fs => S (list_sum (List.map (fun kv => S (value_size (snd kv))) fs))
  | _ => 1
  end.

(** A continuation that does not start with a digit: what may follow a
    number in a JSON text. *)
Definition no_digit_head (k : string) : Prop :=
  match k with
  | EmptyString => True
  | String c _ => digit_of c = None
  end.

(** A continuation that does not go on with the number before it: what
    may follow a number in a JSON text. *)
Definition number_end (k : string) : Prop :=
  match k with
  | EmptyString => True
  | String c _ =>
      is_digit c || Ascii.eqb c "." || Ascii.eqb c "e" || Ascii.eqb c "E"
      = false
  end.

(** The first character of the text of a value. *)
Definition value_start (c : ascii) : bool :=
  is_digit c || Ascii.eqb c "-" || Ascii.eqb c JSON.dquote || Ascii.eqb c "["
  || Ascii.eqb c "{" || Ascii.eqb c "t" || Ascii.eqb c "f" || Ascii.eqb c "n".

(** The writers of the elements of an array and of the members of an
    object, as [JSON.write_value] has them. *)
Definition write_elements (k : string) : list JsVal -> bool -> string :=
  fix elements (l : list JsVal) (first : bool) : string :=
    match l with
    | [] => String "]" k
    | x :: r => JSON.sep first (JSON.write_value x (elements r false))
    end.

Definition write_members (k : string) : list (string * JsVal) -> bool -> string :=
  fix members (fs : list (string * JsVal)) (first : bool) : string :=
    match fs with
    | [] => String "}" k
    | (key, x) :: r =>
        match x with
        | JUndefined => members r first
        | _ => JSON.sep first (JSON.write_string key
                 (String ":" (JSON.write_value x (members r false))))
        end
    end.

(** Reading back the text of one value, whatever follows it. *)
Definition reads_back (v : JsVal) : Prop :=
  is_json v = true ->
  forall (fuel : nat) (k : string),
    (value_size v <= fuel)%nat -> number_end k ->
    JSON.parse_value fuel (JSON.write_value v k) = Some (v, k).

(* ===================================================================== *)
(** ** Base64: [btoa] and [atob] *)
(* ===================================================================== *)

Module Base64.

(** The character of a six-bit value. *)
Definition b64_char (n : N) : ascii :=
  if (n <? 26)%N then ascii_of_N (65 + n)
  else if (n <? 52)%N then ascii_of_N (71 + n)
  else if (n <? 62)%N then ascii_of_N (n - 4)
  else if (n =? 62)%N then "+" else "/".

Definition b64_val (c : ascii) : option N :=
  if is_upper c then Some (code c - 65)%N
  else if is_lower c then Some (code c - 71)%N
  else if is_digit c then Some (code c + 4)%N
  else if Ascii.eqb c "+" then Some 62%N
  else if Ascii.eqb c "/" then Some 63%N
  else None.

(** Three bytes as one number of 24 bits. *)
Definition pack3 (a b c : N) : N := (a * 65536 + b * 256 + c)%N.

(** [btoa]: three bytes give four characters; one or two remaining bytes
    are padded with [=]. *)
Fixpoint btoa (s : string) : string :=
  match s with
  | EmptyString => EmptyString
  | String a EmptyString =>
      let n := pack3 (code a) 0 0 in
      String (b64_char (n / 262144)) (String (b64_char ((n / 4096) mod 64))
        (String "=" (String "=" EmptyString)))
  | String a (String b EmptyString) =>
      let n := pack3 (code a) (code b) 0 in
      String (b64_char (n / 262144)) (String (b64_char ((n / 4096) mod 64))
        (String (b64_char ((n / 64) mod 64)) (String "=" EmptyString)))
  | String a (String b (String c r)) =>
      let n := pack3 (code a) (code b) (code c) in
      String (b64_char (n / 262144)) (String (b64_char ((n / 4096) mod 64))
        (String (b64_char ((n / 64) mod 64)) (String (b64_char (n mod 64))
          (btoa r))))
  end.

(** ASCII white space, which [atob] ignores. *)
Definition is_b64_ws (c : ascii) : bool :=
  ((code c =? 9) || (code c =? 10) || (code c =? 12) || (code c =? 13)
   || (code c =? 32))%N.

Definition byte1 (a b : N) : string :=
  String (ascii_of_N ((a * 64 + b) / 16)) EmptyString.

Definition byte2 (a b c : N) : string :=
  let n := (((a * 64 + b) * 64 + c) / 4)%N in
  String (ascii_of_N (n / 256)) (String (ascii_of_N (n mod 256)) EmptyString).

Definition byte3 (a b c d : N) (k : string) : string :=
  let n := (((a * 64 + b) * 64 + c) * 64 + d)%N in
  String (ascii_of_N (n / 65536)) (String (ascii_of_N ((n / 256) mod 256))
    (String (ascii_of_N (n mod 256)) k)).

(** Forgiving base64 decoding of a text without white space: groups of
    four characters give three bytes; a last group may be padded with one
    or two [=], or be two or three characters long; the unused low bits of
    a short last group are dropped.  A text whose length is 1 modulo 4, or
    with a character outside the alphabet, or with [=] anywhere else, is
    refused. *)
Fixpoint decode (s : string) : option string :=
  match s with
  | EmptyString => Some EmptyString
  | String _ EmptyString => None
  | String a (String b EmptyString) =>
      match b64_val a, b64_val b with
      | Some x, Some y => Some (byte1 x y)
      | _, _ => None
      end
  | String a (String b (String c EmptyString)) =>
      match b64_val a, b64_val b, b64_val c with
      | Some x, Some y, Some z => Some (byte2 x y z)
      | _, _, _ => None
      end
  | String a (String b (String c (String d r))) =>
      if Ascii.eqb d "=" then
        match r with
        | EmptyString =>
            if Ascii.eqb c "=" then
              match b64_val a, b64_val b with
              | Some x, Some y => Some (byte1 x y)
              | _, _ => None
              end
            else
              match b64_val a, b64_val b, b64_val c with
              | Some x, Some y, Some z => Some (byte2 x y z)
              | _, _, _ => None
              end
        | String _ _ => None
        end
      else
        match b64_val a, b64_val b, b64_val c, b64_val d, decode r with
        | Some x, Some y, Some z, Some t, Some k => Some (byte3 x y z t k)
        | _, _, _, _, _ => None
        end
  end.

(** [atob(s)]: [None] is an InvalidCharacterError. *)
Definition atob (s : string) : option string :=
  decode (remove_chars is_b64_ws s).

End Base64.

(* ===================================================================== *)
(** ** Regular expressions *)
(* ===================================================================== *)

(** The patterns of the validation utility are anchored at both ends and
    use character classes, concatenation, alternation and repetition only;
    for these, [test] decides membership in the language of the pattern. *)
Inductive regex : Type :=
  | Void
  | Eps
  | Class (p : ascii -> bool)
  | Cat (r1 r2 : regex)
  | Alt (r1 r2 : regex)
  | Star (r : regex).

Inductive re_matches : regex -> string -> Prop :=
  | m_eps : re_matches Eps EmptyString
  | m_class p c : p c = true -> re_matches (Class p) (String c EmptyString)
  | m_cat r1 r2 s1 s2 :
      re_matches r1 s1 -> re_matches r2 s2 -> re_matches (Cat r1 r2) (prepend s1 s2)
  | m_alt_l r1 r2 s : re_matches r1 s -> re_matches (Alt r1 r2) s
  | m_alt_r r1 r2 s : re_matches r2 s -> re_matches (Alt r1 r2) s
  | m_star_nil r : re_matches (Star r) EmptyString
  | m_star_cons r s1 s2 :
      re_matches r s1 -> re_matches (Star r) s2 -> re_matches (Star r) (prepend s1 s2).

Fixpoint nullable (r : regex) : bool :=
  match r with
  | Void => false
  | Eps => true
  | Class _ => false
  | Cat r1 r2 => nullable r1 && nullable r2
  | Alt r1 r2 => nullable r1 || nullable r2
  | Star _ => true
  end.

(** Concatenation and alternation that drop the empty language and the
    empty word where they are neutral. *)
Definition cat (r1 r2 : regex) : regex :=
  match r1, r2 with
  | Void, _ => Void
  | _, Void => Void
  | Eps, _ => r2
  | _, _ => Cat r1 r2
  end.

Definition alt (r1 r2 : regex) : regex :=
  match r1, r2 with
  | Void, _ => r2
  | _, Void => r1
  | _, _ => Alt r1 r2
  end.

(** The derivative of a pattern by a character. *)
Fixpoint deriv (c : ascii) (r : regex) : regex :=
  match r with
  | Void => Void
  | Eps => Void
  | Class p => if p c then Eps else Void
  | Cat r1 r2 =>
      alt (cat (deriv c r1) r2) (if nullable r1 then deriv c r2 else Void)
  | Alt r1 r2 => alt (deriv c r1) (deriv c r2)
  | Star r1 => cat (deriv c r1) (Star r1)
  end.

(** [/^r$/.test(s)] *)
Fixpoint re_test (r : regex) (s : string) : bool :=
  match s with
  | EmptyString => nullable r
  | String c s' => re_test (deriv c r) s'
  end.

Definition Lit (c : ascii) : regex := Class (Ascii.eqb c).

(** [r+], [r?], [r{0,n}] and [r{n}] *)
Definition Plus (r : regex) : regex := Cat r (Star r).
Definition Opt (r : regex) : regex := Alt Eps r.

Fixpoint UpTo (n : nat) (r : regex) : regex :=
  match n with
  | O => Eps
  | S n' => Opt (Cat r (UpTo n' r))
  end.

Fixpoint Exactly (n : nat) (r : regex) : regex :=
  match n with
  | O => Eps
  | S n' => Cat r (Exactly n' r)
  end.

Fixpoint Str (s : string) : regex :=
  match s with
  | EmptyString => Eps
  | String c r => Cat (Lit c) (Str r)
  end.

Fixpoint one_of (set : string) (c : ascii) : bool :=
  match set with
  | EmptyString => false
  | String a r => Ascii.eqb a c || one_of r c
  end.

(* ===================================================================== *)
(** ** The browser state and the monad of the code *)
(* ===================================================================== *)

Inductive JsError : Type :=
  | QuotaExceededError
  | SyntaxError
  | TypeError
  | InvalidCharacterError.

Inductive Result (A : Type) : Type :=
  | Ok (a : A)
  | Throw (e : JsError).
Arguments Ok {A} a.
Arguments Throw {A} e.

(** The state that the utilities read and write:
    - [items]: the entries of [localStorage], and [quota]: the largest
      total of key and value lengths that the browser accepts;
    - [clock]: the value of [Date.now()];
    - [sessionCheckInterval]: whether the interval stored in
      [window.sessionCheckInterval] is running;
    - [activityListeners]: the number of listeners added to [document];
    - [pathname]: [window.location.pathname];
    - [confirmReply]: what the user answers to a [confirm] dialog;
    - [alerts]: the messages shown by [alert], the latest first. *)
Record World : Type := mkWorld {
  items : gmap string string;
  quota : nat;
  clock : Z;
  sessionCheckInterval : bool;
  activityListeners : nat;
  pathname : string;
  confirmReply : bool;
  alerts : list string
}.

Definition with_items (m : gmap string string) (w : World) : World :=
  mkWorld m (quota w) (clock w) (sessionCheckInterval w) (activityListeners w)
          (pathname w) (confirmReply w) (alerts w).

Definition with_clock (t : Z) (w : World) : World :=
  mkWorld (items w) (quota w) t (sessionCheckInterval w) (activityListeners w)
          (pathname w) (confirmReply w) (alerts w).

Definition with_interval (b : bool) (w : World) : World :=
  mkWorld (items w) (quota w) (clock w) b (activityListeners w)
          (pathname w) (confirmReply w) (alerts w).

Definition with_listeners (n : nat) (w : World) : World :=
  mkWorld (items w) (quota w) (clock w) (sessionCheckInterval w) n
          (pathname w) (confirmReply w) (alerts w).

Definition with_pathname (p : string) (w : World) : World :=
  mkWorld (items w) (quota w) (clock w) (sessionCheckInterval w)
          (activityListeners w) p (confirmReply w) (alerts w).

Definition with_alert (msg : string) (w : World) : World :=
  mkWorld (items w) (quota w) (clock w) (sessionCheckInterval w)
          (activityListeners w) (pathname w) (confirmReply w) (msg :: alerts w).

Definition M (A : Type) : Type := World -> Result A * World.

Definition ret {A : Type} (a : A) : M A := fun w => (Ok a, w).

Definition bind {A B : Type} (c : M A) (k : A -> M B) : M B :=
  fun w =>
    match c w with
    | (Ok a, w') => k a w'
    | (Throw e, w') => (Throw e, w')
    end.

Definition throw {A : Type} (e : JsError) : M A := fun w => (Throw e, w).

(** [try { c } catch (e) { h e }]: what [c] wrote before it threw stays
    written. *)
Definition try_catch {A : Type} (c : M A) (h : JsError -> M A) : M A :=
  fun w =>
    match c w with
    | (Ok a, w') => (Ok a, w')
    | (Throw e, w') => h e w'
    end.

Definition read {A : Type} (f : World -> A) : M A := fun w => (Ok (f w), w).
Definition modify (f : World -> World) : M unit := fun w => (Ok tt, f w).

Declare Scope js_scope.
Delimit Scope js_scope with js.
Notation "x <- c ;; k" := (bind c (fun x => k))
  (at level 100, c at next level, right associativity) : js_scope.
Notation "c ;; k" := (bind c (fun _ => k))
  (at level 100, right associativity) : js_scope.
Local Open Scope js_scope.

(** Lift a platform function that may throw. *)
Definition lift_opt {A : Type} (e : JsError) (o : option A) : M A :=
  match o with
  | Some a => ret a
  | None => throw e
  end.

(** A computation that does not touch the world. *)
Definition lift_result {A : Type} (r : Result A) : M A := fun w => (r, w).

Definition Date_now : M Z := read clock.

(** Statements in sequence over a list, as [forEach] runs them. *)
Fixpoint for_each {A : Type} (f : A -> M unit) (l : list A) : M unit :=
  match l with
  | [] => ret tt
  | x :: r => f x ;; for_each f r
  end.

(** [String(x)] for the result of [JSON.stringify]. *)
Definition String_of (o : option string) : string :=
  match o with
  | Some s => s
  | None => "undefined"
  end.

(** [v.length]: the length of an array or of a string, the own property of
    an object, undefined for a boolean or a number; reading it from null or
    undefined is a TypeError. *)
Definition js_length (v : JsVal) : Result JsVal :=
  match v with
  | JUndefined | JNull => Throw TypeError
  | JArr l => Ok (JNum (Z.of_nat (length l)))
  | JStr s => Ok (JNum (str_length s))
  | JObj _ => Ok (get_prop v "length")
  | JBool _ | JNum _ | JDec _ _ => Ok JUndefined
  end.

(** [window.location.href = url] for a [url] that is an absolute path, as
    the redirections of the code are: the page at that path is loaded. *)
Definition navigate (url : string) : M unit := modify (with_pathname url).

(* ===================================================================== *)
(** ** [localStorage] *)
(* ===================================================================== *)

Module localStorage.

(** The space taken by the entries, counted as [StorageUtil.getSize]
    does: the lengths of the keys and of the values. *)
Definition used (m : gmap string string) : nat :=
  map_fold (fun k v acc => (String.length k + String.length v + acc)%nat) O m.

Definition getItem (key : string) : M (option string) :=
  read (fun w => items w !! key).

(** [setItem] throws a QuotaExceededError, and stores nothing, when the
    entries would no longer fit. *)
Definition setItem (key value : string) : M unit :=
  fun w =>
    let m := <[key := value]> (items w) in
    if (used m <=? quota w)%nat then (Ok tt, with_items m w)
    else (Throw QuotaExceededError, w).

Definition removeItem (key : string) : M unit :=
  modify (fun w => with_items (delete key (items w)) w).

(** The entries that [for (key in localStorage)] visits, with their
    values. *)
Definition entries : M (list (string * string)) :=
  read (fun w => map_to_list (items w)).

(** [localStorage.clear()] *)
Definition clear : M unit := modify (with_items ∅).

End localStorage.

(* ===================================================================== *)
(** ** src/js/utils/storage.js *)
(* ===================================================================== *)

Module StorageUtil.

Definition remove (key : string) : M bool :=
  try_catch (localStorage.removeItem key ;; ret true)
            (fun _ => ret false).

(** The test of [clearOldData] on the text of one entry: it parses, and
    the value is truthy with a truthy [timestamp] that is less than the
    limit.  A text that does not parse is skipped. *)
Definition is_old (thirtyDaysAgo : Z) (text : string) : bool :=
  match JSON.parse text with
  | Some data =>
      truthy data && truthy (get_prop data "timestamp")
      && js_lt_num (get_prop data "timestamp") thirtyDaysAgo
  | None => false
  end.

(** The keys that the first loop of [clearOldData] collects. *)
Definition keysToRemove (thirtyDaysAgo : Z) (es : list (string * string))
  : list string :=
  List.map fst (List.filter (fun kv => is_old thirtyDaysAgo (snd kv)) es).

Definition clearOldData : M unit :=
  now <- Date_now ;;
  let thirtyDaysAgo := now - (30 * 24 * 60 * 60 * 1000) in
  es <- localStorage.entries ;;
  for_each (fun key => remove key ;; ret tt) (keysToRemove thirtyDaysAgo es).

Definition set (key : string) (value : JsVal) : M bool :=
  try_catch
    (let serialized := JSON.stringify value in
     localStorage.setItem key (String_of serialized) ;;
     ret true)
    (fun error =>
       match error with
       | QuotaExceededError =>
           clearOldData ;;
           try_catch
             (localStorage.setItem key (String_of (JSON.stringify value)) ;;
              ret true)
             (fun _ => ret false)
       | _ => ret false
       end).

(** [get(key, defaultValue = null)] *)
Definition get (key : string) (defaultValue : JsVal) : M JsVal :=
  let defaultValue := or_default defaultValue JNull in
  try_catch
    (item <- localStorage.getItem key ;;
     match item with
     | None => ret defaultValue
     | Some text => lift_opt SyntaxError (JSON.parse text)
     end)
    (fun _ => ret defaultValue).

(** [get(key)], without a second argument: the default value is null. *)
Definition get_ (key : string) : M JsVal := get key JNull.

Definition has (key : string) : M bool :=
  item <- localStorage.getItem key ;;
  ret (match item with Some _ => true | None => false end).

Definition getSize : M Z :=
  read (fun w => Z.of_nat (localStorage.used (items w))).

Definition setWithTimestamp (key : string) (value : JsVal) : M bool :=
  now <- Date_now ;;
  set key (JObj [("data", value); ("timestamp", JNum now)]).

Definition append (key : string) (value : JsVal) : M bool :=
  existing <- get key (JArr []) ;;
  match existing with
  | JArr l => set key (JArr (l ++ [value]))
  | _ => ret false
  end.

Definition update (key : string) (updates : list (string * JsVal)) : M bool :=
  existing <- get key (JObj []) ;;
  match existing with
  | JObj fs =>
      set key (JObj (fold_left (fun acc kv => obj_set (fst kv) (snd kv) acc)
                               updates fs))
  | JNull =>
      set key (JObj (fold_left (fun acc kv => obj_set (fst kv) (snd kv) acc)
                               updates []))
  | _ => ret false
  end.

Definition clear : M bool :=
  try_catch (localStorage.clear ;; ret true) (fun _ => ret false).

(** [getWithTimestamp(key, maxAge)]; [None] is the default [null] of
    [maxAge].  The age is computed only when [maxAge] is truthy. *)
Definition getWithTimestamp (key : string) (maxAge : option Z) : M JsVal :=
  item <- get_ key ;;
  if negb (truthy item) || negb (truthy (get_prop item "timestamp")) then
    ret JNull
  else
    expired <-
      match maxAge with
      | Some age =>
          if age =? 0 then ret false
          else
            now <- Date_now ;;
            ret (num_gt (num_sub now (get_prop item "timestamp")) age)
      | None => ret false
      end ;;
    if expired then remove key ;; ret JNull
    else ret (get_prop item "data").

End StorageUtil.

(* ===================================================================== *)
(** ** src/js/utils/api.js: [CONFIG] *)
(* ===================================================================== *)

Module CONFIG.
Module STORAGE_KEYS.
Definition AUTH_TOKEN : string := "db_auth_token".
Definition USER_DATA : string := "db_user_data".
Definition USERS : string := "db_users".
Definition ADMIN_SESSION : string := "db_admin_session".
Definition REMEMBER_ME : string := "db_remember_me".
End STORAGE_KEYS.
Module ADMIN.
Definition USERNAME : string := "admin".
Definition PASSWORD : string := "admin12345".
Definition EMAIL : string := "admin@dbgeneralconstruction.com.et".
End ADMIN.
Module SESSION.
Definition TIMEOUT : Z := 30 * 60 * 1000.
Definition WARNING_TIME : Z := 5 * 60 * 1000.
End SESSION.
End CONFIG.

(* ===================================================================== *)
(** ** src/js/utils/auth.js *)
(* ===================================================================== *)

(** The object that the login functions return. *)
Record LoginResult : Type := mkLoginResult {
  success : bool;
  user : option JsVal;
  token : option string;
  message : string
}.

Module AuthUtil.
Section WithDate.

(** [new Date(t).toISOString()] for the time stamp [t]. *)
Variable toISOString : Z -> string.

(** [expiry || CONFIG.SESSION.TIMEOUT], [None] being null. *)
Definition expiry_or_timeout (expiry : option Z) : Z :=
match expiry with
| Some e => if e =? 0 then CONFIG.SESSION.TIMEOUT else e
| None => CONFIG.SESSION.TIMEOUT
end.

Definition token_text (header body signature : string) : string :=
prepend header (String "." (prepend body (String "." signature))).

Definition generateToken (payload : list (string * JsVal)) (expiry : option Z)
: M string :=
let header :=
Base64.btoa (String_of (JSON.stringify
  (JObj [("alg", JStr "HS256"); ("typ", JStr "JWT")]))) in
iat <- Date_now ;;
exp <- Date_now ;;
let body :=
Base64.btoa (String_of (JSON.stringify
  (JObj (obj_set "exp" (JNum (exp + expiry_or_timeout expiry))
           (obj_set "iat" (JNum iat) payload))))) in
now <- Date_now ;;
let signature := Base64.btoa (prepend "mock-signature-" (number_to_string now)) in
ret (token_text header body signature).

Definition decodeToken (token : JsVal) : M JsVal :=
try_catch
(match token with
 | JStr t =>
     if negb (truthy token) then ret JNull
     else
       match split "." t with
       | [_; part1; _] =>
           text <- lift_opt InvalidCharacterError (Base64.atob part1) ;;
           lift_opt SyntaxError (JSON.parse text)
       | _ => ret JNull
       end
 | _ => ret JNull
 end)
(fun _ => ret JNull).

Definition verifyToken (token : JsVal) : M bool :=
payload <- decodeToken token ;;
if negb (truthy payload) then ret false
else
let exp := get_prop payload "exp" in
if truthy exp then
  now <- Date_now ;;
  if js_lt_num exp now then ret false else ret true
else ret true.

Definition setupActivityListeners : M unit :=
modify (fun w => with_listeners (activityListeners w + 4) w).

(** The interval is (re)started; its callback is [sessionCheck] below. *)
Definition startSessionChecker : M unit :=
modify (with_interval true).

Definition clearInterval : M unit := modify (with_interval false).

Definition initSession : M unit :=
startTime <- Date_now ;;
lastActivity <- Date_now ;;
let session :=
JObj [("startTime", JNum startTime); ("lastActivity", JNum lastActivity);
      ("warningShown", JBool false)] in
StorageUtil.set CONFIG.STORAGE_KEYS.ADMIN_SESSION session ;;
setupActivityListeners ;;
startSessionChecker.

(** The constants [ADMIN_USERNAME] and [ADMIN_PASSWORD] of
    [authenticateAdmin]. *)
Definition ADMIN_USERNAME : string := "admin".
Definition ADMIN_PASSWORD : string := "admin12345".

(** The object [user] of [authenticateAdmin]. *)
Definition admin_user : JsVal :=
  JObj [("id", JStr "admin-001"); ("username", JStr ADMIN_USERNAME);
        ("email", JStr "admin@dbconstruction.com");
        ("name", JStr "Administrator"); ("role", JStr "admin");
        ("isActive", JBool true)].

Definition authenticateAdmin (username password : string) : M LoginResult :=
  if String.eqb username ADMIN_USERNAME && String.eqb password ADMIN_PASSWORD then
    let user := admin_user in
    token <- generateToken [("userId", get_prop user "id");
                            ("role", get_prop user "role")] None ;;
    StorageUtil.set CONFIG.STORAGE_KEYS.AUTH_TOKEN (JStr token) ;;
    StorageUtil.set CONFIG.STORAGE_KEYS.USER_DATA user ;;
    initSession ;;
    ret (mkLoginResult true (Some user) (Some token) "Admin login successful")
  else
    ret (mkLoginResult false None None "Invalid admin credentials").

(** [u.k] where [u] may be null or undefined. *)
Definition member (u : JsVal) (k : string) : Result JsVal :=
match u with
| JUndefined | JNull => Throw TypeError
| _ => Ok (get_prop u k)
end.

(** The callback of [users.find] in [loginLocalStorage]; the property
reads happen in the order of the expression. *)
Definition user_matches (username password : string) (u : JsVal) : Result bool :=
match member u "username" with
| Throw e => Throw e
| Ok _ =>
  Ok ((strict_eq_str (get_prop u "username") username
       || strict_eq_str (get_prop u "email") username)
      && strict_eq_str (get_prop u "password") password
      && truthy (get_prop u "isActive"))
end.

(** [users.find(callback)]: the index and the element of the first
match. *)
Fixpoint find_user (username password : string) (i : nat) (l : list JsVal)
: Result (option (nat * JsVal)) :=
match l with
| [] => Ok None
| u :: r =>
  match user_matches username password u with
  | Throw e => Throw e
  | Ok true => Ok (Some (i, u))
  | Ok false => find_user username password (S i) r
  end
end.

Definition thirty_days : Z := 30 * 24 * 60 * 60 * 1000.

Definition rememberMe_record (expiry : Z) : JsVal :=
JObj [("enabled", JBool true); ("expiry", JNum expiry)].

Definition loginLocalStorage (username password : string) (rememberMe : bool)
: M LoginResult :=
if String.eqb username CONFIG.ADMIN.USERNAME
 && String.eqb password CONFIG.ADMIN.PASSWORD then
let user :=
  JObj [("id", JStr "admin-001"); ("username", JStr CONFIG.ADMIN.USERNAME);
        ("email", JStr CONFIG.ADMIN.EMAIL); ("name", JStr "Dale Melaku");
        ("role", JStr "admin"); ("isActive", JBool true)] in
let tokenExpiry :=
  if rememberMe then thirty_days else CONFIG.SESSION.TIMEOUT in
token <- generateToken [("userId", get_prop user "id");
                        ("role", get_prop user "role")] (Some tokenExpiry) ;;
StorageUtil.set CONFIG.STORAGE_KEYS.AUTH_TOKEN (JStr token) ;;
StorageUtil.set CONFIG.STORAGE_KEYS.USER_DATA user ;;
(if rememberMe then
   now <- Date_now ;;
   StorageUtil.set CONFIG.STORAGE_KEYS.REMEMBER_ME
     (rememberMe_record (now + tokenExpiry)) ;; ret tt
 else ret tt) ;;
initSession ;;
ret (mkLoginResult true (Some user) (Some token) "Login successful")
else
users <- StorageUtil.get CONFIG.STORAGE_KEYS.USERS (JArr []) ;;
match users with
| JArr l =>
    found <- lift_result (find_user username password O l) ;;
    match found with
    | Some (i, user) =>
        let tokenExpiry :=
          if rememberMe then thirty_days else CONFIG.SESSION.TIMEOUT in
        token <- generateToken [("userId", get_prop user "id");
                                ("role", get_prop user "role")]
                               (Some tokenExpiry) ;;
        let userData :=
          match user with
          | JObj fs => JObj (obj_remove "password" fs)
          | _ => JObj []
          end in
        StorageUtil.set CONFIG.STORAGE_KEYS.AUTH_TOKEN (JStr token) ;;
        StorageUtil.set CONFIG.STORAGE_KEYS.USER_DATA userData ;;
        (if rememberMe then
           now <- Date_now ;;
           StorageUtil.set CONFIG.STORAGE_KEYS.REMEMBER_ME
             (rememberMe_record (now + tokenExpiry)) ;; ret tt
         else ret tt) ;;
        now <- Date_now ;;
        let user' := set_prop user "lastLogin" (JStr (toISOString now)) in
        StorageUtil.set CONFIG.STORAGE_KEYS.USERS (JArr (<[i := user']> l)) ;;
        initSession ;;
        ret (mkLoginResult true (Some userData) (Some token) "Login successful")
    | None =>
        ret (mkLoginResult false None None "Invalid username or password")
    end
| _ => throw TypeError
end.

Definition clearSession : M unit :=
active <- read sessionCheckInterval ;;
if active then clearInterval else ret tt.

Definition logout : M bool :=
try_catch
(StorageUtil.remove CONFIG.STORAGE_KEYS.AUTH_TOKEN ;;
 StorageUtil.remove CONFIG.STORAGE_KEYS.USER_DATA ;;
 StorageUtil.remove CONFIG.STORAGE_KEYS.ADMIN_SESSION ;;
 StorageUtil.remove CONFIG.STORAGE_KEYS.REMEMBER_ME ;;
 clearSession ;;
 ret true)
(fun _ => ret false).

Definition getCurrentUser : M JsVal :=
token <- StorageUtil.get_ CONFIG.STORAGE_KEYS.AUTH_TOKEN ;;
if negb (truthy token) then ret JNull
else
valid <- verifyToken token ;;
if negb valid then ret JNull
else StorageUtil.get_ CONFIG.STORAGE_KEYS.USER_DATA.

(** [token && this.verifyToken(token)]: a falsy token is returned as it
is. *)
Definition isAuthenticated : M JsVal :=
token <- StorageUtil.get_ CONFIG.STORAGE_KEYS.AUTH_TOKEN ;;
if truthy token then
valid <- verifyToken token ;; ret (JBool valid)
else ret token.

(** [user && user.role === role] *)
Definition hasRole (role : string) : M JsVal :=
user <- getCurrentUser ;;
if truthy user then ret (JBool (strict_eq_str (get_prop user "role") role))
else ret user.

Definition isAdmin : M JsVal := hasRole "admin".

Definition updateActivity : M unit :=
session <- StorageUtil.get_ CONFIG.STORAGE_KEYS.ADMIN_SESSION ;;
if truthy session then
now <- Date_now ;;
let session1 := set_prop session "lastActivity" (JNum now) in
let session2 := set_prop session1 "warningShown" (JBool false) in
StorageUtil.set CONFIG.STORAGE_KEYS.ADMIN_SESSION session2 ;; ret tt
else ret tt.

(** The listener that [setupActivityListeners] registers. *)
Definition onActivity : M unit :=
auth <- isAuthenticated ;;
if truthy auth then updateActivity else ret tt.

Definition showSessionWarning : M unit :=
ok <- read confirmReply ;;
if ok then updateActivity else ret tt.

(** The callback that [startSessionChecker] runs every minute. *)
Definition sessionCheck : M unit :=
auth <- isAuthenticated ;;
if negb (truthy auth) then clearInterval
else
session <- StorageUtil.get_ CONFIG.STORAGE_KEYS.ADMIN_SESSION ;;
if negb (truthy session) then ret tt
else
  now <- Date_now ;;
  let inactiveTime := num_sub now (get_prop session "lastActivity") in
  (if num_ge inactiveTime (CONFIG.SESSION.TIMEOUT - CONFIG.SESSION.WARNING_TIME)
      && negb (truthy (get_prop session "warningShown"))
   then
     showSessionWarning ;;
     StorageUtil.set CONFIG.STORAGE_KEYS.ADMIN_SESSION
       (set_prop session "warningShown" (JBool true)) ;; ret tt
   else ret tt) ;;
  if num_ge inactiveTime CONFIG.SESSION.TIMEOUT then
    logout ;;
    clearInterval ;;
    path <- read pathname ;;
    if includes "/admin/" path then
      modify (with_alert
        "Your session has expired due to inactivity. Please login again.") ;;
      modify (with_pathname "/admin/login.html")
    else ret tt
  else ret tt.

Definition requireAuth (redirectUrl : string) : M bool :=
auth <- isAuthenticated ;;
if negb (truthy auth) then navigate redirectUrl ;; ret false
else ret true.

Definition requireAdmin (redirectUrl : string) : M bool :=
admin <- isAdmin ;;
if negb (truthy admin) then navigate redirectUrl ;; ret false
else ret true.

(** The body of the loop of [hashPassword], for one character. *)
Definition hash_step (hash : Z) (char : ascii) : Z :=
let hash := (js_shl hash 5 - hash) + Z.of_N (code char) in
js_and hash hash.

(** The loop of [hashPassword] over the characters that are left. *)
Fixpoint hash_loop (password : string) (hash : Z) : Z :=
match password with
| EmptyString => hash
| String char rest => hash_loop rest (hash_step hash char)
end.

Definition hashPassword (password : string) : string :=
let hash := hash_loop password 0 in
prepend "hash_" (number_to_hex (Z.abs hash)).

(** One entry of the list [demoUsers], its properties in the order of the
    source. *)
Definition demo_user (id username email password name role : string)
         (projectIds : list string) (createdAt lastLogin : JsVal)
         (isActive : bool) : JsVal :=
JObj [("id", JStr id); ("username", JStr username); ("email", JStr email);
      ("password", JStr password); ("name", JStr name); ("role", JStr role);
      ("projectIds", JArr (List.map JStr projectIds));
      ("createdAt", createdAt); ("lastLogin", lastLogin);
      ("isActive", JBool isActive)].

(** [new Date(Date.now() - n * 24 * 60 * 60 * 1000).toISOString()] *)
Definition days_ago (now n : Z) : JsVal :=
JStr (toISOString (now - n * 24 * 60 * 60 * 1000)).

(** The list [demoUsers] of [initDemoUsers], built at the time [now]. *)
Definition demoUsers (now : Z) : list JsVal :=
[ demo_user "admin-001" "admin" "admin@dbconstruction.com" "admin12345"
    "Administrator" "admin" [] (days_ago now 365) (JStr (toISOString now)) true;
  demo_user "staff-001" "moti.elias" "moti@dbconstruction.com" "staff123"
    "Moti Elias" "staff" ["proj-001"; "proj-002"; "proj-003"]
    (days_ago now 180) (days_ago now 2) true;
  demo_user "staff-002" "moti.tola" "tola@dbconstruction.com" "staff456"
    "Moti Tola" "staff" ["proj-004"; "proj-005"]
    (days_ago now 150) (days_ago now 1) true;
  demo_user "client-001" "abc.corp" "contact@abc.com" "client123"
    "ABC Corporation" "client" ["proj-001"; "proj-002"]
    (days_ago now 200) (days_ago now 3) true;
  demo_user "client-002" "john.doe" "john.doe@example.com" "client123"
    "John Doe" "client" ["proj-003"]
    (days_ago now 120) (days_ago now 5) true;
  demo_user "client-003" "jane.smith" "jane.smith@example.com" "client456"
    "Jane Smith" "client" ["proj-004"; "proj-005"]
    (days_ago now 90) (days_ago now 7) true;
  demo_user "client-004" "ministry.health" "info@moh.gov.et" "client789"
    "Ministry of Health" "client" ["proj-006"]
    (days_ago now 250) (days_ago now 10) true;
  demo_user "client-005" "real.estate" "contact@regroup.com" "client321"
    "Real Estate Group" "client" ["proj-007"; "proj-008"; "proj-009"]
    (days_ago now 300) (days_ago now 1) true;
  demo_user "client-006" "private.dev" "dev@private.com" "client654"
    "Private Developer" "client" ["proj-010"]
    (days_ago now 60) (days_ago now 15) true;
  demo_user "client-007" "city.admin" "admin@city.gov.et" "client987"
    "City Administration" "client" ["proj-011"; "proj-012"]
    (days_ago now 280) (days_ago now 4) true;
  demo_user "client-008" "demo.client" "demo@example.com" "demo123"
    "Demo Client" "client" [] (days_ago now 30) JNull false;
  demo_user "client-009" "test.user" "test@example.com" "test123"
    "Test User" "client" [] (days_ago now 45) (days_ago now 40) false ].

Definition initDemoUsers : M JsVal :=
existingUsers <- StorageUtil.get CONFIG.STORAGE_KEYS.USERS (JArr []) ;;
len <- lift_result (js_length existingUsers) ;;
if strict_eq_num len 0 then
now <- Date_now ;;
StorageUtil.set CONFIG.STORAGE_KEYS.USERS (JArr (demoUsers now)) ;;
ret (JArr (demoUsers now))
else ret existingUsers.

End WithDate.
End AuthUtil.

(* ===================================================================== *)
(** ** The validation utility *)
(* ===================================================================== *)

Module ValidationUtil.

Definition local_part_char (c : ascii) : bool :=
  is_alnum c || one_of ".!#$%&'*+/=?^_`{|}~-" c.

Definition label_char (c : ascii) : bool := is_alnum c || Ascii.eqb c "-".

(** [[a-zA-Z0-9](?:[a-zA-Z0-9-]{0,61}[a-zA-Z0-9])?] *)
Definition label : regex :=
  Cat (Class is_alnum) (Opt (Cat (UpTo 61 (Class label_char)) (Class is_alnum))).

(** The pattern of [validateEmail]. *)
Definition emailRegex : regex :=
  Cat (Plus (Class local_part_char))
    (Cat (Lit "@") (Cat label (Star (Cat (Lit ".") label)))).

Definition validateEmail (email : JsVal) : bool :=
  match email with
  | JStr s =>
      if negb (truthy email) then false else re_test emailRegex (trim s)
  | _ => false
  end.

(** [/^(\+251|0)[79]\d{8}$/] *)
Definition phoneRegex : regex :=
  Cat (Alt (Str "+251") (Lit "0"))
    (Cat (Class (one_of "79")) (Exactly 8 (Class is_digit))).

Definition validatePhone (phone : JsVal) : bool :=
  match phone with
  | JStr s =>
      if negb (truthy phone) then false
      else
        let cleaned :=
          remove_chars (fun c => is_js_space c || Ascii.eqb c "-") s in
        re_test phoneRegex cleaned
  | _ => false
  end.

Definition required (value : JsVal) : bool :=
  match value with
  | JNull | JUndefined => false
  | JStr s => 0 <? str_length (trim s)
  | JArr l => 0 <? Z.of_nat (length l)
  | _ => true
  end.

(** [min] and [max] are whatever the caller passes: the comparison
    converts them to numbers. *)
Definition minLength (value : JsVal) (min : JsVal) : bool :=
  match value with
  | JStr s =>
      if negb (truthy value) then false
      else num_ge_val (Int (str_length (trim s))) min
  | _ => false
  end.

Definition maxLength (value : JsVal) (max : JsVal) : bool :=
  match value with
  | JStr s =>
      if negb (truthy value) then true
      else num_le_val (Int (str_length (trim s))) max
  | _ => true
  end.

Definition numberRange (value : JsVal) (min max : JsVal) : bool :=
  match ToNumber value with
  | None => false
  | Some num => num_ge_val num min && num_le_val num max
  end.

Definition positiveNumber (value : JsVal) : bool :=
  match ToNumber value with
  | None => false
  | Some num => num_ltb (Int 0) num
  end.

Definition nonNegativeNumber (value : JsVal) : bool :=
  match ToNumber value with
  | None => false
  | Some num => num_leb (Int 0) num
  end.

(** [getErrorMessage(field, rule, params = {})] for the rule types that
    [validateForm] can fail.  The table of messages is built before the
    look-up, and it reads properties of [params]: that is a TypeError when
    [params] is null.  The texts [${params.min}] and [${params.max}] are
    string forms. *)
Definition getErrorMessage (field : string) (rule : JsVal) (params : JsVal)
  : Result string :=
  match or_default params (JObj []) with
  | JNull => Throw TypeError
  | params =>
      let min := ToString (get_prop params "min") in
      let max := ToString (get_prop params "max") in
      Ok (if strict_eq_str rule "required" then prepend field " is required"
          else if strict_eq_str rule "email" then
            "Please enter a valid email address"
          else if strict_eq_str rule "phone" then
            "Please enter a valid phone number"
          else if strict_eq_str rule "minLength" then
            prepend field (prepend " must be at least "
              (prepend min " characters"))
          else if strict_eq_str rule "maxLength" then
            prepend field (prepend " must not exceed "
              (prepend max " characters"))
          else if strict_eq_str rule "numberRange" then
            prepend field (prepend " must be between "
              (prepend min (prepend " and " max)))
          else if strict_eq_str rule "positiveNumber" then
            prepend field " must be a positive number"
          else prepend field " is invalid")
  end.

(** The names of the members that every object inherits from
    [Object.prototype]. *)
Definition Object_prototype : list string :=
  ["constructor"; "__defineGetter__"; "__defineSetter__"; "hasOwnProperty";
   "__lookupGetter__"; "__lookupSetter__"; "isPrototypeOf";
   "propertyIsEnumerable"; "toString"; "valueOf"; "__proto__";
   "toLocaleString"].

(** What [data[field]] gives for a plain object [data]: the value of an own
    property; or an inherited member, which is a function, or the prototype
    object itself for [__proto__]; or undefined. *)
Inductive Read : Type :=
  | Value (v : JsVal)
  | Inherited.

Definition read_property (data : list (string * JsVal)) (field : string)
  : Read :=
  match obj_get field data with
  | Some v => Value v
  | None =>
      if existsb (String.eqb field) Object_prototype then Inherited
      else Value JUndefined
  end.

(** A validator on what was read.  An inherited member is an object that
    is not null, not a string and not an array, and whose number form is
    NaN: [inherited] is the answer of the validator for it. *)
Definition validator (f : JsVal -> bool) (inherited : bool) (value : Read)
  : bool :=
  match value with
  | Value v => f v
  | Inherited => inherited
  end.

(** [params.k]: a TypeError when [params] is undefined or null. *)
Definition param (params : JsVal) (k : string) : Result JsVal :=
  match params with
  | JUndefined | JNull => Throw TypeError
  | _ => Ok (get_prop params k)
  end.

(** The [switch] of [validateForm]: an unknown type leaves [valid] true. *)
Definition rule_valid (type params : JsVal) (value : Read) : Result bool :=
  if strict_eq_str type "required" then Ok (validator required true value)
  else if strict_eq_str type "email" then
    Ok (validator validateEmail false value)
  else if strict_eq_str type "phone" then
    Ok (validator validatePhone false value)
  else if strict_eq_str type "minLength" then
    match param params "min" with
    | Ok min => Ok (validator (fun v => minLength v min) false value)
    | Throw e => Throw e
    end
  else if strict_eq_str type "maxLength" then
    match param params "max" with
    | Ok max => Ok (validator (fun v => maxLength v max) true value)
    | Throw e => Throw e
    end
  else if strict_eq_str type "numberRange" then
    match param params "min", param params "max" with
    | Ok min, Ok max =>
        Ok (validator (fun v => numberRange v min max) false value)
    | Throw e, _ | _, Throw e => Throw e
    end
  else if strict_eq_str type "positiveNumber" then
    Ok (validator positiveNumber false value)
  else Ok true.

(** [message || this.getErrorMessage(field, type, params)] *)
Definition message_of (field : string) (type params message : JsVal)
  : Result JsVal :=
  if truthy message then Ok message
  else
    match getErrorMessage field type params with
    | Ok text => Ok (JStr text)
    | Throw e => Throw e
    end.

(** One turn of the inner loop, for the rule [rule]: the destructuring
    [{ type, params, message } = rule] is a TypeError when [rule] is
    undefined or null.  The result is the message when the rule fails. *)
Definition check_rule (field : string) (value : Read) (rule : JsVal)
  : Result (option JsVal) :=
  match rule with
  | JUndefined | JNull => Throw TypeError
  | _ =>
      let type := get_prop rule "type" in
      let params := get_prop rule "params" in
      let message := get_prop rule "message" in
      match rule_valid type params value with
      | Ok true => Ok None
      | Ok false =>
          match message_of field type params message with
          | Ok m => Ok (Some m)
          | Throw e => Throw e
          end
      | Throw e => Throw e
      end
  end.

(** The inner loop over the rules of one field: the message of the first
    rule that fails, the loop ending there. *)
Fixpoint check_field (field : string) (value : Read) (fieldRules : list JsVal)
  : Result (option JsVal) :=
  match fieldRules with
  | [] => Ok None
  | rule :: rest =>
      match check_rule field value rule with
      | Ok None => check_field field value rest
      | r => r
      end
  end.

(** [errors[field] = message] on the object [errors], which was created
    as [{}]: the assignment to [__proto__] reaches the setter that
    [Object.prototype] has for that name, and adds no own property. *)
Definition assign (field : string) (message : JsVal)
           (errors : list (string * JsVal)) : list (string * JsVal) :=
  if String.eqb field "__proto__" then errors
  else obj_set field message errors.

Record FormResult : Type := mkFormResult {
  isValid : bool;
  errors : list (string * JsVal)
}.

(** The outer loop, from the state [(isValid, errors)] reached so far. *)
Fixpoint validate_fields (data : list (string * JsVal))
         (rules : list (string * list JsVal)) (acc : FormResult)
  : Result FormResult :=
  match rules with
  | [] => Ok acc
  | (field, fieldRules) :: rest =>
      let value := read_property data field in
      match check_field field value fieldRules with
      | Ok (Some message) =>
          validate_fields data rest
            (mkFormResult false (assign field message (errors acc)))
      | Ok None => validate_fields data rest acc
      | Throw e => Throw e
      end
  end.

(** [validateForm(data, rules)] for an object [data] and an object [rules]
    whose properties are arrays of rules. *)
Definition validateForm (data : list (string * JsVal))
           (rules : list (string * list JsVal)) : Result FormResult :=
  validate_fields data rules (mkFormResult true []).

(** The object that [validatePassword] returns. *)
Record PasswordResult : Type := mkPasswordResult {
  valid : bool;
  strength : string;
  message : string
}.

(** [/[...]/.test(s)] for a character class without anchors: some
    character of [s] is in the class. *)
Fixpoint test_class (p : ascii -> bool) (s : string) : bool :=
  match s with
  | EmptyString => false
  | String c r => p c || test_class p r
  end.

(** The class of the test [hasSpecialChar]. *)
Definition special_char : ascii -> bool :=
  one_of (String JSON.dquote "!@#$%^&*(),.?:{}|<>").

Definition validatePassword (password : JsVal) : PasswordResult :=
  match password with
  | JStr s =>
      if negb (truthy password) then
        mkPasswordResult false "none" "Password is required"
      else
        let minLength := 8 in
        let hasUpperCase := test_class is_upper s in
        let hasLowerCase := test_class is_lower s in
        let hasNumbers := test_class is_digit s in
        let hasSpecialChar := test_class special_char s in
        if str_length s <? minLength then
          mkPasswordResult false "weak"
            (prepend "Password must be at least "
               (prepend (number_to_string minLength) " characters"))
        else
          let strength :=
            (if hasUpperCase then 1 else 0) + (if hasLowerCase then 1 else 0)
            + (if hasNumbers then 1 else 0) + (if hasSpecialChar then 1 else 0) in
          if strength <? 2 then
            mkPasswordResult false "weak" "Password is too weak"
          else if strength =? 2 then
            mkPasswordResult true "medium" "Password strength is medium"
          else
            mkPasswordResult true "strong" "Password is strong"
  | _ => mkPasswordResult false "none" "Password is required"
  end.

End ValidationUtil.

(* ===================================================================== *)
(** ** Vocabulary of the statements *)
(* ===================================================================== *)

Fixpoint str_forall (p : ascii -> bool) (s : string) : bool :=
  match s with
  | EmptyString => true
  | String c r => p c && str_forall p r
  end.

(** A string without the character [c]. *)
Definition lacks (c : ascii) (s : string) : bool :=
  str_forall (fun a => negb (Ascii.eqb a c)) s.

(** The entries that are left when the keys [ks] are removed one by one. *)
Definition remove_keys (ks : list string) (m : gmap string string)
  : gmap string string :=
  fold_left (fun acc k => delete k acc) ks m.

(** The entries that [StorageUtil.clearOldData] leaves at time [now]. *)
Definition cleared_items (now : Z) (m : gmap string string) : gmap string string :=
  remove_keys
    (StorageUtil.keysToRemove (now - (30 * 24 * 60 * 60 * 1000)) (map_to_list m)) m.

(** Whether the entries still fit once [key] holds [text]. *)
Definition fits (key text : string) (m : gmap string string) (q : nat) : bool :=
  (localStorage.used (<[key := text]> m) <=? q)%nat.

(** Worlds used in the examples: the page [/admin/dashboard.html] at time
    [t], with the given entries and quota, no interval running and a user
    who dismisses the warning dialog. *)
Definition world_of (m : gmap string string) (q : nat) (t : Z) : World :=
  mkWorld m q t false 0 "/admin/dashboard.html" false [].

(** A storage that refuses every write, and one with room. *)
Definition world_full : World := world_of {["k" := "0"]} 2 1000.
Definition world_roomy : World := world_of ∅ 5000 1000.

(** The value that [StorageUtil.get(key, d)] reads from the entries [m]:
    the default is [d], or null when [d] is undefined. *)
Definition stored (key : string) (d : JsVal) (m : gmap string string) : JsVal :=
  match m !! key with
  | Some text =>
      match JSON.parse text with
      | Some x => x
      | None => or_default d JNull
      end
  | None => or_default d JNull
  end.

(** The body and the whole of the token that [AuthUtil.generateToken]
    builds at time [now]. *)
Definition token_payload (payload : list (string * JsVal)) (expiry : option Z)
           (now : Z) : list (string * JsVal) :=
  obj_set "exp" (JNum (now + AuthUtil.expiry_or_timeout expiry))
    (obj_set "iat" (JNum now) payload).

Definition make_token (payload : list (string * JsVal)) (expiry : option Z)
           (now : Z) : string :=
  AuthUtil.token_text
    (Base64.btoa (String_of (JSON.stringify
       (JObj [("alg", JStr "HS256"); ("typ", JStr "JWT")]))))
    (Base64.btoa (String_of (JSON.stringify
       (JObj (token_payload payload expiry now)))))
    (Base64.btoa (prepend "mock-signature-" (number_to_string now))).

(** The payload that [AuthUtil.decodeToken] returns, null when it gives
    up. *)
Definition decode_payload (token : JsVal) : JsVal :=
  match token with
  | JStr t =>
      if negb (truthy token) then JNull
      else
        match split "." t with
        | [_; part1; _] =>
            match Base64.atob part1 with
            | Some text =>
                match JSON.parse text with Some v => v | None => JNull end
            | None => JNull
            end
        | _ => JNull
        end
  | _ => JNull
  end.

(** The answer of [AuthUtil.verifyToken] at time [now]. *)
Definition token_valid (now : Z) (token : JsVal) : bool :=
  let payload := decode_payload token in
  if negb (truthy payload) then false
  else
    let exp := get_prop payload "exp" in
    if truthy exp then negb (js_lt_num exp now) else true.

(** The answers of [AuthUtil.isAuthenticated] and [AuthUtil.getCurrentUser]
    for the entries [m] at time [now]. *)
Definition auth_value (m : gmap string string) (now : Z) : JsVal :=
  let token := stored CONFIG.STORAGE_KEYS.AUTH_TOKEN JNull m in
  if truthy token then JBool (token_valid now token) else token.

Definition current_user (m : gmap string string) (now : Z) : JsVal :=
  let token := stored CONFIG.STORAGE_KEYS.AUTH_TOKEN JNull m in
  if negb (truthy token) then JNull
  else if negb (token_valid now token) then JNull
  else stored CONFIG.STORAGE_KEYS.USER_DATA JNull m.

(** The entries that [AuthUtil.logout] leaves. *)
Definition logged_out (m : gmap string string) : gmap string string :=
  delete CONFIG.STORAGE_KEYS.REMEMBER_ME
    (delete CONFIG.STORAGE_KEYS.ADMIN_SESSION
       (delete CONFIG.STORAGE_KEYS.USER_DATA
          (delete CONFIG.STORAGE_KEYS.AUTH_TOKEN m))).

(** The payload that the admin logins put in the token. *)
Definition admin_payload : list (string * JsVal) :=
  [("userId", JStr "admin-001"); ("role", JStr "admin")].

(** A storage that accepts no write at all. *)
Definition world_no_room : World := world_of ∅ 0 1000.

(** The two worlds that the writes of an admin login in [world_roomy] go
    through. *)
Definition world_roomy1 : World :=
  snd (StorageUtil.set CONFIG.STORAGE_KEYS.AUTH_TOKEN
         (JStr (make_token admin_payload None (clock world_roomy))) world_roomy).

Definition world_roomy2 : World :=
  snd (StorageUtil.set CONFIG.STORAGE_KEYS.USER_DATA AuthUtil.admin_user
         world_roomy1).

(** A token whose payload is the given object. *)
Definition token_with (payload : list (string * JsVal)) : string :=
  AuthUtil.token_text "x"
    (Base64.btoa (String_of (JSON.stringify (JObj payload)))) "y".

(** A world whose stored token has the given payload. *)
Definition world_with_token (payload : list (string * JsVal)) (t : Z) : World :=
  world_of
    {[ CONFIG.STORAGE_KEYS.AUTH_TOKEN
         := String_of (JSON.stringify (JStr (token_with payload))) ]}
    5000 t.

(** The world after an admin login in [world_roomy] at time 1000, seen at
    the time [t]. *)
Definition world_logged_in (t : Z) : World :=
  with_clock t (snd (AuthUtil.authenticateAdmin "admin" "admin12345" world_roomy)).

(** The first of the demo users that [initDemoUsers] stores, with fixed
    dates, and a world whose user list holds it. *)
Definition demo_admin : JsVal :=
  JObj [("id", JStr "admin-001"); ("username", JStr "admin");
        ("email", JStr "admin@dbconstruction.com");
        ("password", JStr "admin12345"); ("name", JStr "Administrator");
        ("role", JStr "admin"); ("projectIds", JArr []);
        ("createdAt", JStr "2025-01-01T00:00:00.000Z");
        ("lastLogin", JStr "2026-01-01T00:00:00.000Z");
        ("isActive", JBool true)].

Definition world_with_users : World :=
  world_of
    {[ CONFIG.STORAGE_KEYS.USERS := String_of (JSON.stringify (JArr [demo_admin])) ]}
    5000 1000.

(** A login result that names a user whose role is admin. *)
Definition as_admin (res : LoginResult) : Prop :=
  success res = true
  /\ exists u, user res = Some u /\ get_prop u "role" = JStr "admin".

(** A rule object with the given type, and with the given parameters or
    message besides. *)
Definition rule_of (type : string) : JsVal := JObj [("type", JStr type)].

Definition rule_with (type : string) (k : string) (v : JsVal) : JsVal :=
  JObj [("type", JStr type); (k, v)].

(** The rules of the README example, and a form that leaves the name
    short. *)
Definition example_rules : list (string * list JsVal) :=
  [("email", [rule_with "required" "message" (JStr "Email is required");
              rule_with "email" "message" (JStr "Invalid email format")]);
   ("name", [rule_of "required";
             rule_with "minLength" "params" (JObj [("min", JNum 3)])])].

Definition example_form : list (string * JsVal) :=
  [("email", JStr "user@example.com"); ("name", JStr "Al")].



(** A rule that [validateForm] can evaluate whatever the value is: it is
    not undefined or null, its [params] is not null, and it has [params]
    when its type is one that reads them. *)
Definition reads_params (type : JsVal) : bool :=
  strict_eq_str type "minLength" || strict_eq_str type "maxLength"
  || strict_eq_str type "numberRange".

Definition rule_ok (rule : JsVal) : bool :=
  match rule with
  | JUndefined | JNull => false
  | _ =>
      match get_prop rule "params" with
      | JNull => false
      | JUndefined => negb (reads_params (get_prop rule "type"))
      | _ => true
      end
  end.

Definition rules_ok (rules : list (string * list JsVal)) : bool :=
  forallb (fun fr => forallb rule_ok (snd fr)) rules.


(** The world after [loginLocalStorage('admin', 'admin12345', true)] in
    [world_roomy] at time 1000, seen at the time [t]; the admin branch does
    not format a date. *)
Definition world_remembered (t : Z) : World :=
  with_clock t
    (snd (AuthUtil.loginLocalStorage (fun _ => EmptyString) "admin" "admin12345"
            true world_roomy)).

(** A storage that holds an object, a number, a string, null, a boolean,
    numbers with a fraction and with an exponent, and a string with an
    escape above [\u00ff]. *)
Definition world_kinds : World :=
  world_of
    {[ "o" := "{}"; "n" := "5"; "s" := quoted "x"; "z" := "null";
       "b" := "true"; "d" := "1.5"; "e" := "2e3";
       "u" := quoted "\u12a0" ]} 5000 1000.

(** A storage with the entry that the site writes for its dark mode: a
    plain text, not JSON. *)
Definition world_raw : World :=
  world_of {[ "darkMode" := "enabled" ]} 5000 1000.

(** [maxAge && age > maxAge], the test of [StorageUtil.getWithTimestamp]
    on the age of an entry; [None] is null. *)
Definition too_old (maxAge : option Z) (age : Z) : bool :=
  match maxAge with
  | Some m => negb (m =? 0) && (m <? age)
  | None => false
  end.

(** The four keys that [AuthUtil.logout] removes. *)
Definition session_keys : list string :=
  [CONFIG.STORAGE_KEYS.AUTH_TOKEN; CONFIG.STORAGE_KEYS.USER_DATA;
   CONFIG.STORAGE_KEYS.ADMIN_SESSION; CONFIG.STORAGE_KEYS.REMEMBER_ME].

(** The string [v.k], empty when the property is no string. *)
Definition str_prop (v : JsVal) (k : string) : string :=
  match get_prop v k with
  | JStr s => s
  | _ => EmptyString
  end.

(** The world after [initDemoUsers] in [world_roomy], the dates being
    written as the empty string. *)
Definition world_demo : World :=
  snd (AuthUtil.initDemoUsers (fun _ => EmptyString) world_roomy).

(** The login of the demo user [moti.elias] in [world_demo], with
    [rememberMe], and its result. *)
Definition demo_login : Result LoginResult * World :=
  AuthUtil.loginLocalStorage (fun _ => EmptyString) "moti.elias" "staff123" true
    world_demo.

Definition demo_login_result : LoginResult :=
  match fst demo_login with
  | Ok res => res
  | Throw _ => mkLoginResult false None None EmptyString
  end.

Definition demo_login_user : JsVal :=
  default JNull (user demo_login_result).

(** The world [world_logged_in t] with a user who confirms the warning
    dialog. *)
Definition world_confirming (t : Z) : World :=
  mkWorld (items (world_logged_in t)) (quota (world_logged_in t)) t
          (sessionCheckInterval (world_logged_in t))
          (activityListeners (world_logged_in t))
          (pathname (world_logged_in t)) true (alerts (world_logged_in t)).

(** The sum [c1 * 31^(n-1) + ... + cn] over the character codes of a
    string of length [n]. *)
Fixpoint char_sum31 (s : string) : Z :=
  match s with
  | EmptyString => 0
  | String c r => Z.of_N (code c) * 31 ^ str_length r + char_sum31 r
  end.

(** The characters that occur in the words of a pattern. *)
Fixpoint alphabet (r : regex) (c : ascii) : bool :=
  match r with
  | Void | Eps => false
  | Class p => p c
  | Cat r1 r2 | Alt r1 r2 => alphabet r1 c || alphabet r2 c
  | Star r1 => alphabet r1 c
  end.

(** The characters of a domain name: letters, digits, hyphen and dot. *)
Definition domain_char (c : ascii) : bool :=
  is_alnum c || Ascii.eqb c "-" || Ascii.eqb c ".".


(* ===================================================================== *)
(** * Examples of the platform functions *)
(* ===================================================================== *)

Example JSON_stringify_ex :
  JSON.stringify (JObj [("a", JArr [JNum 1; JNull; JNum (-20)]); ("u", JUndefined); ("b", JBool true)])
  = Some (prepend "{" (prepend (quoted "a") (prepend ":[1,null,-20]," (prepend (quoted "b") ":true}")))).
Proof. reflexivity. Qed.

Example JSON_parse_ex :
  JSON.parse (prepend " { " (prepend (quoted "a") (prepend " : [ -12 , null ] , "
               (prepend (quoted "b") (prepend ":{}, " (prepend (quoted "a") ": false } "))))))
  = Some (JObj [("a", JBool false); ("b", JObj [])]).
Proof. vm_compute. reflexivity. Qed.

Example JSON_parse_bad :
  JSON.parse "[01]" = None /\ JSON.parse "undefined" = None
  /\ JSON.parse EmptyString = None /\ JSON.parse "[1,]" = None.
Proof. vm_compute. auto. Qed.

Example JSON_number_ex :
  JSON.parse "[1.5, -2e3, 0.000001, 1E-7, 1.50, 0.0]"
  = Some (JArr [JDec 15 1; JNum (-2000); JDec 1 6; JDec 1 7; JDec 15 1; JNum 0])
  /\ JSON.stringify (JArr [JDec 15 1; JDec 1 6; JDec 1 7; JDec (-125) 2])
     = Some "[1.5,0.000001,1e-7,-1.25]"
  /\ JSON.parse "1." = None /\ JSON.parse ".5" = None /\ JSON.parse "1e" = None.
Proof. vm_compute. auto. Qed.

Example JSON_escape_ex :
  JSON.parse (quoted "a\u0041\u007a\/") = Some (JStr "aAz/")
  /\ JSON.parse (quoted "\u12A0") = Some (JStr "\u12a0")
  /\ JSON.parse (quoted "\u12") = None
  /\ JSON.parse (quoted "\x41") = None.
Proof. vm_compute. auto. Qed.

Example StringToNumber_ex :
  StringToNumber " 120.5 " = Some (Dec 1205 1)
  /\ StringToNumber "1e3" = Some (Int 1000)
  /\ StringToNumber ".5" = Some (Dec 5 1)
  /\ StringToNumber "5." = Some (Int 5)
  /\ StringToNumber "0x1F" = Some (Int 31)
  /\ StringToNumber "-Infinity" = Some (Inf true)
  /\ StringToNumber "12px" = None
  /\ StringToNumber "." = None
  /\ StringToNumber "-0x1F" = None.
Proof. vm_compute. auto 10. Qed.

Example btoa_ex : Base64.btoa "admin" = "YWRtaW4=" /\ Base64.atob "YWRt aW4" = Some "admin".
Proof. vm_compute. auto. Qed.

Example atob_bad : Base64.atob "YWRta" = None /\ Base64.atob "YW=taW4=" = None.
Proof. vm_compute. auto. Qed.

Example split_ex : split "." "a.b.c" = ["a"; "b"; "c"] /\ split "." "a." = ["a"; EmptyString].
Proof. vm_compute. auto. Qed.

Example trim_ex : trim "  a b  " = "a b" /\ trim "   " = EmptyString.
Proof. vm_compute. auto. Qed.

(* ===================================================================== *)
(** * Facts about numbers and JSON text *)
(* ===================================================================== *)

Lemma read_digits_write_uint (d : uint) (k : string) :
  no_digit_head k -> read_digits (write_uint d k) = (d, k).
Proof.
  intros Hk. induction d; simpl; try (rewrite IHd; reflexivity).
  destruct k as [|c r]; simpl in *; [reflexivity | now rewrite Hk].
Qed.

Lemma nzhead_not_D0 (d u : uint) : nzhead d <> D0 u.
Proof. induction d; simpl; congruence. Qed.

Lemma to_uint_not_D0 (p : positive) (u : uint) : Pos.to_uint p <> D0 u.
Proof.
  intros H.
  assert (Hn : unorm (Pos.to_uint p) = Pos.to_uint p).
  { rewrite <- (DecimalPos.Unsigned.to_of (Pos.to_uint p)).
    now rewrite DecimalPos.Unsigned.of_to. }
  rewrite H, unorm_D0 in Hn. unfold unorm in Hn.
  destruct (nzhead u) eqn:E; try discriminate.
  - injection Hn as <-. now apply (Unsigned.to_uint_nonzero p).
  - now apply nzhead_not_D0 in E.
Qed.

Lemma of_uint_to_uint (p : positive) : Z.of_uint (Pos.to_uint p) = Z.pos p.
Proof. unfold Z.of_uint. now rewrite DecimalPos.Unsigned.of_to. Qed.

(** *** The end of a number *)

Lemma digit_of_is_digit (c : ascii) : digit_of c = None <-> is_digit c = false.
Proof.
  destruct c as [[] [] [] [] [] [] [] []]; vm_compute; split; congruence.
Qed.

Lemma number_end_chars (c : ascii) (r : string) :
  number_end (String c r) ->
  is_digit c = false /\ Ascii.eqb c "." = false
  /\ Ascii.eqb c "e" = false /\ Ascii.eqb c "E" = false.
Proof.
  cbn [number_end]. intros H.
  apply orb_false_elim in H as [H HE].
  apply orb_false_elim in H as [H He].
  apply orb_false_elim in H as [H Hp]. auto.
Qed.

Lemma number_end_no_digit (k : string) : number_end k -> no_digit_head k.
Proof.
  destruct k as [|c r]; [trivial|]. intros H.
  apply number_end_chars in H as (H & _). now apply digit_of_is_digit.
Qed.

Lemma read_fraction_end (m : Z) (k : string) :
  number_end k -> JSON.read_fraction m k = Some (m, O, k).
Proof.
  destruct k as [|c r]; [reflexivity|]. intros H.
  apply number_end_chars in H as (_ & H & _).
  unfold JSON.read_fraction. now rewrite H.
Qed.

Lemma read_exponent_end (k : string) :
  number_end k -> read_exponent k = Some (0, k).
Proof.
  destruct k as [|c r]; [reflexivity|]. intros H.
  apply number_end_chars in H as (_ & _ & He & HE).
  unfold read_exponent. now rewrite He, HE.
Qed.

(** *** Integers *)

(** The digits of a number that is not negative, read back. *)
Lemma read_write_number (q : Z) (k : string) :
  0 <= q -> no_digit_head k ->
  exists d, read_digits (write_number q k) = (d, k)
            /\ Z.of_uint d = q
            /\ JSON.parse_number (write_number q k) = JSON.number_tail 1 d k
            /\ JSON.parse_number (String "-" (write_number q k))
               = JSON.number_tail (-1) d k.
Proof.
  intros Hq Hk. destruct q as [|p|p]; [| |lia].
  - exists (D0 Nil). cbn [write_number].
    pose proof (read_digits_write_uint Nil k Hk) as Hr. cbn [write_uint] in Hr.
    unfold JSON.parse_number.
    cbn [Ascii.eqb Bool.eqb read_digits digit_of]. rewrite Hr. auto.
  - exists (Pos.to_uint p). cbn [write_number].
    pose proof (Unsigned.to_uint_nonnil p) as Hnil.
    pose proof (to_uint_not_D0 p) as H0.
    rewrite of_uint_to_uint.
    split; [now apply read_digits_write_uint|]. split; [reflexivity|].
    unfold JSON.parse_number. cbn [Ascii.eqb Bool.eqb].
    rewrite read_digits_write_uint by assumption.
    destruct (Pos.to_uint p) as [|u|u|u|u|u|u|u|u|u|u] eqn:E;
      [congruence | exfalso; eapply H0; reflexivity | ..].
    all: cbn [write_uint Ascii.eqb Bool.eqb read_digits digit_of].
    all: rewrite read_digits_write_uint by assumption.
    all: auto.
Qed.

Lemma number_tail_end (sign : Z) (d : uint) (k : string) :
  number_end k ->
  JSON.number_tail sign d k = Some (JNum (sign * Z.of_uint d), k).
Proof.
  intros Hk. unfold JSON.number_tail.
  now rewrite read_fraction_end, read_exponent_end.
Qed.

Lemma parse_number_write_number (n : Z) (k : string) :
  number_end k -> JSON.parse_number (write_number n k) = Some (JNum n, k).
Proof.
  intros Hk. pose proof (number_end_no_digit k Hk) as Hd.
  destruct n as [|p|p].
  - destruct (read_write_number 0 k) as (d & _ & Hv & -> & _); [lia | assumption |].
    rewrite number_tail_end, Hv by assumption. reflexivity.
  - destruct (read_write_number (Z.pos p) k) as (d & _ & Hv & -> & _);
      [lia | assumption |].
    rewrite number_tail_end, Hv by assumption. reflexivity.
  - destruct (read_write_number (Z.pos p) k) as (d & _ & Hv & _ & H);
      [lia | assumption |].
    change (write_number (Z.neg p) k) with (String "-" (write_number (Z.pos p) k)).
    rewrite H, number_tail_end, Hv by assumption. reflexivity.
Qed.

(** *** Fractions *)

Lemma digit_val_digit_char (d : Z) :
  0 <= d < 10 -> digit_val (digit_char d) = Some d.
Proof.
  intros H.
  assert (E : d = 0 \/ d = 1 \/ d = 2 \/ d = 3 \/ d = 4 \/ d = 5 \/ d = 6
              \/ d = 7 \/ d = 8 \/ d = 9) by lia.
  repeat (destruct E as [-> | E]; [reflexivity|]). now subst d.
Qed.

Lemma digit_val_none (c : ascii) : digit_of c = None -> digit_val c = None.
Proof. intros H. apply digit_of_is_digit in H. unfold digit_val. now rewrite H. Qed.

Lemma pow10_pos (n : nat) : 0 < 10 ^ Z.of_nat n.
Proof. apply Z.pow_pos_nonneg; lia. Qed.

Lemma pow10_succ (n : nat) : 10 ^ Z.of_nat (S n) = 10 * 10 ^ Z.of_nat n.
Proof. rewrite Nat2Z.inj_succ, Z.pow_succ_r; lia. Qed.

(** The digits that [write_digits] writes, read back after a numeral. *)
Lemma read_write_digits (n : nat) (m r : Z) (k : string) :
  0 <= r < 10 ^ Z.of_nat n -> no_digit_head k ->
  read_more_digits m (write_digits n r k) = (m * 10 ^ Z.of_nat n + r, n, k).
Proof.
  revert m r. induction n as [|n IH]; intros m r Hr Hk.
  - cbn [write_digits]. change (10 ^ Z.of_nat 0) with 1 in *.
    replace (m * 1 + r) with m by lia.
    destruct k as [|c t]; [reflexivity|]. cbn [read_more_digits].
    now rewrite digit_val_none.
  - cbn [write_digits read_more_digits].
    pose proof (pow10_pos n) as Hp. rewrite pow10_succ in Hr.
    assert (Hd : 0 <= r / 10 ^ Z.of_nat n < 10).
    { split; [apply Z.div_pos; lia|]. apply Z.div_lt_upper_bound; lia. }
    rewrite (digit_val_digit_char _ Hd).
    rewrite IH; [| apply Z.mod_pos_bound; lia | assumption].
    rewrite pow10_succ. f_equal. f_equal.
    pose proof (Z.div_mod r (10 ^ Z.of_nat n) ltac:(lia)). nia.
Qed.

Lemma length_write_digits (n : nat) (r : Z) (k : string) :
  (String.length k <= String.length (write_digits n r k))%nat.
Proof.
  revert r. induction n as [|n IH]; intros r; cbn [write_digits String.length];
    [lia|]. specialize (IH (r mod 10 ^ Z.of_nat n)). lia.
Qed.

(** A fraction in lowest terms is what [reduce] leaves. *)
Lemma reduce_lowest {A : Type} (int : Z -> A) (dec : Z -> positive -> A)
      (m : Z) (e : positive) :
  m mod 10 <> 0 -> reduce int dec m (Pos.to_nat e) = dec m e.
Proof.
  intros H. destruct (Pos2Nat.is_succ e) as [n Hn]. rewrite Hn.
  cbn [reduce]. apply Z.eqb_neq in H. rewrite H.
  now rewrite (SuccNat2Pos.inv _ _ Hn).
Qed.

(** What [reduce] returns is a result of one of its two continuations. *)
Lemma reduce_cases {A : Type} (int : Z -> A) (dec : Z -> positive -> A)
      (m : Z) (scale : nat) :
  (exists n, reduce int dec m scale = int n)
  \/ (exists m' e', reduce int dec m scale = dec m' e').
Proof.
  revert m. induction scale as [|n IH]; intros m; cbn [reduce]; [now eauto|].
  destruct (m mod 10 =? 0); [apply IH | now eauto].
Qed.

Lemma read_exponent_written (x : Z) (k : string) :
  0 < x -> no_digit_head k ->
  read_exponent (String "e" (String "-" (write_number x k))) = Some (- x, k).
Proof.
  intros Hx Hk. unfold read_exponent. cbn [Ascii.eqb Bool.eqb orb].
  destruct (read_write_number x k) as (d & -> & Hv & _); [lia | assumption |].
  destruct d; [cbn in Hv; lia | ..]; rewrite Hv; f_equal; f_equal; lia.
Qed.

(** The positional notation, read back: the integer part [p / 10^s], the
    [s] digits of the fraction part, and the exponent part, if there is
    one, at the head of [k]. *)
Lemma parse_number_fixed (negative : bool) (p : Z) (s : nat) (k : string)
      (x : Z) (rest : string) :
  0 <= p -> no_digit_head k ->
  (s = O -> forall c t, k = String c t -> Ascii.eqb c "." = false) ->
  read_exponent k = Some (x, rest) ->
  JSON.parse_number
    (if negative then String "-" (write_fixed p s k) else write_fixed p s k)
  = Some (scaled JNum JDec ((if negative then -1 else 1) * p) (x - Z.of_nat s),
          rest).
Proof.
  intros Hp Hk Hdot Hx. unfold write_fixed.
  pose proof (pow10_pos s) as Hpow.
  set (tail := match s with
               | O => k
               | S _ => String "." (write_digits s (p mod 10 ^ Z.of_nat s) k)
               end).
  assert (Ht : no_digit_head tail) by (destruct s; [assumption | reflexivity]).
  destruct (read_write_number (p / 10 ^ Z.of_nat s) tail)
    as (d & _ & Hv & H1 & H2); [apply Z.div_pos; lia | assumption |].
  assert (T : forall sign,
    JSON.number_tail sign d tail
    = Some (scaled JNum JDec (sign * p) (x - Z.of_nat s), rest)).
  { intros sign. unfold JSON.number_tail. rewrite Hv. subst tail.
    destruct s as [|n].
    - change (10 ^ Z.of_nat 0) with 1. rewrite Z.div_1_r.
      assert (F : JSON.read_fraction p k = Some (p, O, k)).
      { destruct k as [|c t]; [reflexivity|]. unfold JSON.read_fraction.
        now rewrite (Hdot eq_refl c t eq_refl). }
      now rewrite F, Hx.
    - unfold JSON.read_fraction. cbn [Ascii.eqb Bool.eqb].
      rewrite read_write_digits;
        [| apply Z.mod_pos_bound; lia | assumption].
      rewrite Hx. do 3 f_equal.
      pose proof (Z.div_mod p (10 ^ Z.of_nat (S n)) ltac:(lia)). lia. }
  destruct negative; [rewrite H2 | rewrite H1]; apply T.
Qed.

Lemma abs_mod10 (m : Z) : m mod 10 <> 0 -> 0 < Z.abs m.
Proof. intros H. destruct m; cbn [Z.abs]; [now elim H | lia | lia]. Qed.

Lemma sign_abs (m : Z) : (if m <? 0 then -1 else 1) * Z.abs m = m.
Proof. destruct (Z.ltb_spec m 0); lia. Qed.

(** A fraction in lowest terms is read back from its text. *)
Lemma parse_number_write_decimal (m : Z) (e : positive) (k : string) :
  m mod 10 <> 0 -> number_end k ->
  JSON.parse_number (write_decimal m e k) = Some (JDec m e, k).
Proof.
  intros Hm Hk. pose proof (number_end_no_digit k Hk) as Hd.
  pose proof (abs_mod10 m Hm) as Hp. unfold write_decimal.
  set (p := Z.abs m) in *. set (d := digit_count p).
  destruct (d + 6 <=? Pos.to_nat e)%nat eqn:E.
  - apply Nat.leb_le in E.
    assert (Hx : 0 < Z.pos e - Z.of_nat (d - 1)) by lia.
    rewrite (parse_number_fixed (m <? 0) p (d - 1) _
               (- (Z.pos e - Z.of_nat (d - 1))) k);
      [| lia | reflexivity | intros _ c t [= <- _]; reflexivity
       | now apply read_exponent_written].
    replace (- (Z.pos e - Z.of_nat (d - 1)) - Z.of_nat (d - 1)) with (Z.neg e) by lia.
    subst p. rewrite sign_abs. cbn [scaled]. now rewrite reduce_lowest.
  - pose proof (Pos2Nat.is_pos e) as He.
    rewrite (parse_number_fixed (m <? 0) p (Pos.to_nat e) k 0 k);
      [| lia | assumption | lia | now apply read_exponent_end].
    replace (0 - Z.of_nat (Pos.to_nat e)) with (Z.neg e) by lia.
    subst p. rewrite sign_abs. cbn [scaled]. now rewrite reduce_lowest.
Qed.

Lemma parse_escape_char (c : ascii) (rest : string) :
  JSON.parse_string_body (JSON.escape_char c rest)
  = JSON.cons_char c (JSON.parse_string_body rest).
Proof.
  destruct c as [[] [] [] [] [] [] [] []]; reflexivity.
Qed.

Lemma parse_write_string_body (s k : string) :
  JSON.parse_string_body (JSON.write_string_body s (String JSON.dquote k))
  = Some (s, k).
Proof.
  induction s as [|c r IH]; [reflexivity|].
  cbn [JSON.write_string_body]. now rewrite parse_escape_char, IH.
Qed.

Lemma write_value_arr (l : list JsVal) (k : string) :
  JSON.write_value (JArr l) k = String "[" (write_elements k l true).
Proof. reflexivity. Qed.

Lemma write_value_obj (fs : list (string * JsVal)) (k : string) :
  JSON.write_value (JObj fs) k = String "{" (write_members k fs true).
Proof. reflexivity. Qed.

Lemma write_members_cons k key x r first :
  is_json x = true ->
  write_members k ((key, x) :: r) first
  = JSON.sep first (JSON.write_string key
      (String ":" (JSON.write_value x (write_members k r false)))).
Proof. destruct x; try discriminate; reflexivity. Qed.

Lemma write_number_head (n : Z) (k : string) :
  exists c r, write_number n k = String c r
              /\ (is_digit c || Ascii.eqb c "-") = true.
Proof.
  destruct n as [|p|p]; cbn [write_number]; [now eauto | | now eauto].
  pose proof (Unsigned.to_uint_nonnil p).
  destruct (Pos.to_uint p); [congruence | ..]; cbn [write_uint]; now eauto.
Qed.

Lemma write_decimal_head (m : Z) (e : positive) (k : string) :
  exists c r, write_decimal m e k = String c r
              /\ (is_digit c || Ascii.eqb c "-") = true.
Proof.
  unfold write_decimal. destruct (m <? 0); [now eauto|].
  destruct (_ <=? _)%nat; unfold write_fixed; apply write_number_head.
Qed.

Lemma write_value_head (v : JsVal) (k : string) :
  exists c r, JSON.write_value v k = String c r /\ value_start c = true.
Proof.
  destruct v as [| |[]|n|m e|s|l|fs];
    try (eexists; eexists; split; [reflexivity | reflexivity]).
  - cbn [JSON.write_value].
    destruct (write_number_head n k) as (c & r & -> & H).
    exists c, r. split; [reflexivity|]. unfold value_start. now rewrite H.
  - cbn [JSON.write_value]. unfold write_fraction.
    destruct (reduce_cases (fun n => write_number n k)
                (fun m' e' => write_decimal m' e' k) m (Pos.to_nat e))
      as [(n & ->) | (m' & e' & ->)].
    + destruct (write_number_head n k) as (c & r & -> & H).
      exists c, r. split; [reflexivity|]. unfold value_start. now rewrite H.
    + destruct (write_decimal_head m' e' k) as (c & r & -> & H).
      exists c, r. split; [reflexivity|]. unfold value_start. now rewrite H.
Qed.

Lemma value_start_not_ws (c : ascii) :
  value_start c = true ->
  JSON.is_ws c = false /\ Ascii.eqb c "]" = false /\ Ascii.eqb c "}" = false.
Proof.
  destruct c as [[] [] [] [] [] [] [] []]; vm_compute; intros; try discriminate; auto.
Qed.

Lemma skip_ws_write_value (v : JsVal) (k : string) :
  JSON.skip_ws (JSON.write_value v k) = JSON.write_value v k.
Proof.
  destruct (write_value_head v k) as (c & r & -> & H).
  apply value_start_not_ws in H as (H & _). cbn. now rewrite H.
Qed.

Lemma parse_value_number (f : nat) (n : Z) (k : string) :
  number_end k ->
  JSON.parse_value (S f) (write_number n k) = Some (JNum n, k).
Proof.
  intros Hk. rewrite <- (parse_number_write_number n k Hk).
  destruct (write_number_head n k) as (c & r & -> & H).
  assert (Hws : JSON.is_ws c = false).
  { apply (value_start_not_ws c). unfold value_start. now rewrite H. }
  cbn [JSON.parse_value JSON.skip_ws]. now rewrite Hws, H.
Qed.

Lemma parse_value_decimal (f : nat) (m : Z) (e : positive) (k : string) :
  m mod 10 <> 0 -> number_end k ->
  JSON.parse_value (S f) (write_decimal m e k) = Some (JDec m e, k).
Proof.
  intros Hm Hk. rewrite <- (parse_number_write_decimal m e k Hm Hk).
  destruct (write_decimal_head m e k) as (c & r & -> & H).
  assert (Hws : JSON.is_ws c = false).
  { apply (value_start_not_ws c). unfold value_start. now rewrite H. }
  cbn [JSON.parse_value JSON.skip_ws]. now rewrite Hws, H.
Qed.

Lemma list_sum_cons (a : nat) (l : list nat) :
  list_sum (a :: l) = (a + list_sum l)%nat.
Proof. reflexivity. Qed.


Lemma parse_elements_write (k : string) (r : list JsVal) :
  Forall reads_back r -> forallb is_json r = true ->
  forall (x : JsVal) (f : nat),
    reads_back x -> is_json x = true ->
    (S (value_size x) + list_sum (List.map (fun y => S (value_size y)) r) <= f)%nat ->
    JSON.parse_elements f (JSON.write_value x (write_elements k r false))
    = Some (x :: r, k).
Proof.
  induction r as [|y r IH]; intros HF Hj x f Hx Hjx Hf.
  - destruct f as [|f]; [lia|]. cbn [JSON.parse_elements].
    rewrite Hx; [| assumption | cbn in Hf; lia | exact eq_refl].
    reflexivity.
  - destruct f as [|f]; [lia|]. cbn [JSON.parse_elements].
    cbn [List.map] in Hf. rewrite list_sum_cons in Hf.
    rewrite Hx; [| assumption | lia | exact eq_refl].
    cbn [forallb] in Hj. apply andb_prop in Hj as [Hjy Hjr].
    inversion HF as [|? ? Hy HF']; subst.
    change (write_elements k (y :: r) false)
      with (String "," (JSON.write_value y (write_elements k r false))).
    cbn [JSON.skip_ws]. change (JSON.is_ws ",") with false.
    change (Ascii.eqb "," ",") with true. cbv iota.
    rewrite (IH HF' Hjr y f Hy Hjy); [reflexivity | lia].
Qed.

Lemma parse_members_write (k : string) (r : list (string * JsVal)) :
  Forall (fun kv => reads_back (snd kv)) r ->
  forallb (fun kv => is_json (snd kv)) r = true ->
  forall (key : string) (x : JsVal) (f : nat),
    reads_back x -> is_json x = true ->
    (S (value_size x) + list_sum (List.map (fun kv => S (value_size (snd kv))) r) <= f)%nat ->
    JSON.parse_members f
      (JSON.write_string key (String ":" (JSON.write_value x (write_members k r false))))
    = Some ((key, x) :: r, k).
Proof.
  induction r as [|[key' y] r IH]; intros HF Hj key x f Hx Hjx Hf.
  - destruct f as [|f]; [lia|].
    unfold JSON.write_string. cbn [JSON.parse_members JSON.skip_ws].
    change (JSON.is_ws JSON.dquote) with false. cbv iota.
    change (Ascii.eqb JSON.dquote JSON.dquote) with true. cbv iota.
    rewrite parse_write_string_body.
    cbn [JSON.skip_ws]. change (JSON.is_ws ":") with false.
    change (Ascii.eqb ":" ":") with true. cbv iota.
    rewrite Hx; [| assumption | cbn in Hf; lia | exact eq_refl].
    reflexivity.
  - destruct f as [|f]; [lia|].
    unfold JSON.write_string at 1. cbn [JSON.parse_members JSON.skip_ws].
    change (JSON.is_ws JSON.dquote) with false. cbv iota.
    change (Ascii.eqb JSON.dquote JSON.dquote) with true. cbv iota.
    rewrite parse_write_string_body.
    cbn [JSON.skip_ws]. change (JSON.is_ws ":") with false.
    change (Ascii.eqb ":" ":") with true. cbv iota.
    cbn [List.map snd] in Hf. rewrite list_sum_cons in Hf.
    cbn [forallb snd] in Hj. apply andb_prop in Hj as [Hjy Hjr].
    inversion HF as [|? ? Hy HF']; subst. cbn [snd] in Hy.
    rewrite (write_members_cons k key' y r false Hjy).
    rewrite Hx; [| assumption | lia | exact eq_refl].
    cbn [JSON.sep JSON.skip_ws]. change (JSON.is_ws ",") with false.
    change (Ascii.eqb "," ",") with true. cbv iota.
    rewrite (IH HF' Hjr key' y f Hy Hjy); [reflexivity | lia].
Qed.

Lemma obj_set_fresh (k : string) (v : JsVal) (acc : list (string * JsVal)) :
  existsb (String.eqb k) (List.map fst acc) = false ->
  obj_set k v acc = acc ++ [(k, v)].
Proof.
  induction acc as [|[k' v'] acc IH]; cbn; [reflexivity|].
  intros H. apply orb_false_elim in H as [H1 H2].
  rewrite String.eqb_sym, H1. now rewrite IH.
Qed.

Lemma existsb_app_false {A} (p : A -> bool) (l1 l2 : list A) :
  existsb p (l1 ++ l2) = false <-> existsb p l1 = false /\ existsb p l2 = false.
Proof. rewrite existsb_app. apply orb_false_iff. Qed.

Lemma fold_obj_set_unique (ms acc : list (string * JsVal)) :
  unique_keys (List.map fst (acc ++ ms)) = true ->
  fold_left (fun a kv => obj_set (fst kv) (snd kv) a) ms acc = acc ++ ms.
Proof.
  revert acc. induction ms as [|[k v] ms IH]; intros acc H; cbn [fold_left].
  - now rewrite app_nil_r.
  - cbn [fst snd]. rewrite obj_set_fresh.
    + rewrite IH; rewrite <- app_assoc; [reflexivity | exact H].
    + clear IH. induction acc as [|[k' v'] acc IHa]; [reflexivity|].
      cbn in H. apply andb_prop in H as [H1 H2].
      cbn. rewrite (IHa H2), orb_false_r.
      apply negb_true_iff in H1. rewrite List.map_app in H1.
      apply existsb_app_false in H1 as [_ H1]. cbn in H1.
      apply orb_false_elim in H1 as [H1 _]. now rewrite String.eqb_sym.
Qed.

Lemma build_object_unique (fs : list (string * JsVal)) :
  unique_keys (List.map fst fs) = true -> JSON.build_object fs = JObj fs.
Proof.
  intros H. unfold JSON.build_object. now rewrite fold_obj_set_unique.
Qed.

Lemma parse_write_value (v : JsVal) : reads_back v.
Proof.
  induction v as [| |b|n|m e|s|l IH|fs IH] using JsVal_nested_ind;
    intros Hj fuel k Hf Hk; try discriminate;
    (destruct fuel as [|f]; [cbn in Hf; lia|]).
  - reflexivity.
  - destruct b; reflexivity.
  - now apply parse_value_number.
  - cbn [is_json] in Hj. apply negb_true_iff, Z.eqb_neq in Hj.
    cbn [JSON.write_value]. unfold write_fraction.
    rewrite reduce_lowest by assumption. now apply parse_value_decimal.
  - unfold JSON.write_value, JSON.write_string.
    cbn [JSON.parse_value JSON.skip_ws].
    change (JSON.is_ws JSON.dquote) with false. cbv iota.
    change (is_digit JSON.dquote || Ascii.eqb JSON.dquote "-") with false.
    change (Ascii.eqb JSON.dquote JSON.dquote) with true. cbv iota.
    now rewrite parse_write_string_body.
  - rewrite write_value_arr. cbn [JSON.parse_value JSON.skip_ws].
    change (JSON.is_ws "[") with false. cbv iota.
    change (is_digit "[" || Ascii.eqb "[" "-") with false.
    change (Ascii.eqb "[" JSON.dquote) with false.
    change (Ascii.eqb "[" "[") with true. cbv iota.
    destruct l as [|x r]; [reflexivity|].
    change (write_elements k (x :: r) true)
      with (JSON.write_value x (write_elements k r false)).
    rewrite skip_ws_write_value.
    destruct (write_value_head x (write_elements k r false)) as (c & t & E & Hc).
    rewrite E. apply value_start_not_ws in Hc as (_ & Hc & _). rewrite Hc, <- E.
    cbn [is_json forallb] in Hj. apply andb_prop in Hj as [Hjx Hjr].
    inversion IH as [|? ? Hx HF]; subst.
    cbn [value_size List.map] in Hf. rewrite list_sum_cons in Hf.
    rewrite (parse_elements_write k r HF Hjr x f Hx Hjx); [reflexivity | lia].
  - rewrite write_value_obj. cbn [JSON.parse_value JSON.skip_ws].
    change (JSON.is_ws "{") with false. cbv iota.
    change (is_digit "{" || Ascii.eqb "{" "-") with false.
    change (Ascii.eqb "{" JSON.dquote) with false.
    change (Ascii.eqb "{" "[") with false.
    change (Ascii.eqb "{" "{") with true. cbv iota.
    destruct fs as [|[key x] r]; [reflexivity|].
    cbn [is_json] in Hj. apply andb_prop in Hj as [Hj Hu].
    cbn [forallb snd] in Hj. apply andb_prop in Hj as [Hjx Hjr].
    rewrite (write_members_cons k key x r true Hjx). cbn [JSON.sep].
    unfold JSON.write_string at 1. cbn [JSON.skip_ws].
    change (JSON.is_ws JSON.dquote) with false. cbv iota.
    change (Ascii.eqb JSON.dquote "}") with false. cbv iota.
    fold (JSON.write_string key
            (String ":" (JSON.write_value x (write_members k r false)))).
    inversion IH as [|? ? Hx HF]; subst. cbn [snd] in Hx.
    cbn [value_size List.map snd] in Hf. rewrite list_sum_cons in Hf.
    rewrite (parse_members_write k r HF Hjr key x f Hx Hjx); [| lia].
    now rewrite build_object_unique.
Qed.

Lemma length_write_uint (d : uint) (k : string) :
  (String.length k <= String.length (write_uint d k))%nat.
Proof. induction d; cbn [write_uint String.length]; lia. Qed.

Lemma length_write_number (n : Z) (k : string) :
  (1 + String.length k <= String.length (write_number n k))%nat.
Proof.
  destruct (write_number_head n k) as (c & r & E & _).
  destruct n as [|p|p]; cbn [write_number String.length] in *.
  - lia.
  - pose proof (Unsigned.to_uint_nonnil p).
    destruct (Pos.to_uint p) as [|u|u|u|u|u|u|u|u|u|u]; [congruence | ..];
      cbn [write_uint String.length];
      pose proof (length_write_uint u k); lia.
  - pose proof (length_write_uint (Pos.to_uint p) k). lia.
Qed.

Lemma length_escape_char (c : ascii) (k : string) :
  (1 + String.length k <= String.length (JSON.escape_char c k))%nat.
Proof.
  unfold JSON.escape_char.
  repeat match goal with
         | |- context [if ?b then _ else _] => destruct b
         end; cbn [String.length]; lia.
Qed.

Lemma length_write_string_body (s k : string) :
  (String.length k <= String.length (JSON.write_string_body s k))%nat.
Proof.
  induction s as [|c r IH]; cbn [JSON.write_string_body]; [lia|].
  pose proof (length_escape_char c (JSON.write_string_body r k)). lia.
Qed.

Lemma length_write_string (s k : string) :
  (2 + String.length k <= String.length (JSON.write_string s k))%nat.
Proof.
  unfold JSON.write_string. cbn [String.length].
  pose proof (length_write_string_body s (String JSON.dquote k)).
  cbn [String.length] in *. lia.
Qed.

Lemma length_sep (first : bool) (k : string) :
  (String.length k <= String.length (JSON.sep first k))%nat.
Proof. destruct first; cbn; lia. Qed.

Lemma length_write_decimal (m : Z) (e : positive) (k : string) :
  (1 + String.length k <= String.length (write_decimal m e k))%nat.
Proof.
  assert (F : forall p s k',
    (1 + String.length k' <= String.length (write_fixed p s k'))%nat).
  { intros p s k'. unfold write_fixed.
    pose proof (length_write_digits s (p mod 10 ^ Z.of_nat s) k').
    destruct s as [|n].
    - apply length_write_number.
    - pose proof (length_write_number (p / 10 ^ Z.of_nat (S n))
        (String "." (write_digits (S n) (p mod 10 ^ Z.of_nat (S n)) k'))).
      cbn [String.length] in *. lia. }
  unfold write_decimal.
  set (p := Z.abs m). set (d := digit_count p).
  pose proof (F p (Pos.to_nat e) k).
  pose proof (F p (d - 1)%nat
    (String "e" (String "-" (write_number (Z.pos e - Z.of_nat (d - 1)) k)))).
  pose proof (length_write_number (Z.pos e - Z.of_nat (d - 1)) k).
  destruct (m <? 0), (_ <=? _)%nat; cbn [String.length] in *; lia.
Qed.

Lemma length_write_value (v : JsVal) :
  is_json v = true ->
  forall k, (value_size v + String.length k
             <= String.length (JSON.write_value v k))%nat.
Proof.
  induction v as [| |b|n|m e|s|l IH|fs IH] using JsVal_nested_ind;
    intros Hj k; try discriminate.
  - cbn. lia.
  - destruct b; cbn; lia.
  - cbn [JSON.write_value value_size]. apply length_write_number.
  - cbn [JSON.write_value value_size is_json] in *.
    apply negb_true_iff, Z.eqb_neq in Hj. unfold write_fraction.
    rewrite reduce_lowest by assumption. apply length_write_decimal.
  - cbn [JSON.write_value value_size].
    pose proof (length_write_string s k). lia.
  - rewrite write_value_arr. cbn [value_size String.length is_json] in *.
    enough (H : forall first : bool,
      (list_sum (List.map (fun x => S (value_size x)) l) + String.length k
       + (if first then 0 else 1)
       <= String.length (write_elements k l first))%nat) by (specialize (H true); cbv iota in H; lia).
    induction l as [|x r IHr]; intros first; [destruct first; cbn; lia|].
    cbn [forallb] in Hj. apply andb_prop in Hj as [Hjx Hjr].
    inversion IH as [|? ? Hx HF]; subst.
    cbn [List.map write_elements]. rewrite list_sum_cons.
    specialize (IHr HF Hjr false).
    pose proof (Hx Hjx (write_elements k r false)).
    pose proof (length_sep first (JSON.write_value x (write_elements k r false))).
    destruct first; cbn [JSON.sep String.length] in *; lia.
  - rewrite write_value_obj. cbn [value_size String.length is_json] in *.
    apply andb_prop in Hj as [Hj _].
    enough (H : forall first : bool,
      (list_sum (List.map (fun kv => S (value_size (snd kv))) fs) + String.length k
       + (if first then 0 else 1)
       <= String.length (write_members k fs first))%nat) by (specialize (H true); cbv iota in H; lia).
    induction fs as [|[key x] r IHr]; intros first; [destruct first; cbn; lia|].
    cbn [forallb snd] in Hj. apply andb_prop in Hj as [Hjx Hjr].
    inversion IH as [|? ? Hx HF]; subst. cbn [snd] in Hx.
    rewrite (write_members_cons k key x r first Hjx).
    cbn [List.map snd]. rewrite list_sum_cons.
    specialize (IHr HF Hjr false).
    pose proof (Hx Hjx (write_members k r false)).
    pose proof (length_write_string key
                  (String ":" (JSON.write_value x (write_members k r false)))).
    pose proof (length_sep first (JSON.write_string key
                  (String ":" (JSON.write_value x (write_members k r false))))).
    destruct first; cbn [JSON.sep String.length] in *; lia.
Qed.

(** Reading the text of a JSON-serializable value gives the value back. *)
Lemma parse_stringify (v : JsVal) :
  is_json v = true ->
  exists text, JSON.stringify v = Some text /\ JSON.parse text = Some v.
Proof.
  intros Hj. exists (JSON.write_value v EmptyString). split.
  - destruct v; try reflexivity; discriminate.
  - unfold JSON.parse.
    pose proof (length_write_value v Hj EmptyString) as Hl.
    rewrite (parse_write_value v Hj); [reflexivity | lia | exact I].
Qed.

(* ===================================================================== *)
(** * Facts about base64 *)
(* ===================================================================== *)

Lemma b64_val_char (n : N) :
  (n < 64)%N -> Base64.b64_val (Base64.b64_char n) = Some n.
Proof.
  intros H. rewrite <- (N2Nat.id n). assert (Hn : (N.to_nat n < 64)%nat) by lia.
  clear H. revert Hn. generalize (N.to_nat n). clear n. intros n Hn.
  do 64 (destruct n as [|n]; [vm_compute; reflexivity|]). lia.
Qed.

Lemma b64_char_plain (n : N) :
  (n < 64)%N ->
  Base64.is_b64_ws (Base64.b64_char n) = false
  /\ Ascii.eqb (Base64.b64_char n) "=" = false
  /\ Ascii.eqb (Base64.b64_char n) "." = false.
Proof.
  intros H. rewrite <- (N2Nat.id n). assert (Hn : (N.to_nat n < 64)%nat) by lia.
  clear H. revert Hn. generalize (N.to_nat n). clear n. intros n Hn.
  do 64 (destruct n as [|n]; [vm_compute; auto|]). lia.
Qed.

Section Sextets.
Local Open Scope N_scope.

Lemma div_mod_join (x : N) : x / 64 * 64 + x mod 64 = x.
Proof. pose proof (N.div_mod x 64). lia. Qed.

Lemma sextet1_lt (a b c : N) :
  a < 256 -> b < 256 -> c < 256 -> Base64.pack3 a b c / 262144 < 64.
Proof.
  intros Ha Hb Hc. unfold Base64.pack3. apply N.Div0.div_lt_upper_bound. lia.
Qed.

Lemma sextet_mod_lt (x : N) : x mod 64 < 64.
Proof. now apply N.mod_lt. Qed.

Lemma sextets_join (n : N) :
  ((n / 262144 * 64 + (n / 4096) mod 64) * 64 + (n / 64) mod 64) * 64 + n mod 64 = n.
Proof.
  replace (n / 262144) with (n / 64 / 64 / 64)
    by (rewrite !N.Div0.div_div by lia; reflexivity).
  replace (n / 4096) with (n / 64 / 64)
    by (rewrite !N.Div0.div_div by lia; reflexivity).
  now rewrite !div_mod_join.
Qed.

Lemma bytes_split (a b c : N) :
  a < 256 -> b < 256 -> c < 256 ->
  Base64.pack3 a b c / 65536 = a
  /\ (Base64.pack3 a b c / 256) mod 256 = b
  /\ Base64.pack3 a b c mod 256 = c.
Proof.
  intros Ha Hb Hc. unfold Base64.pack3. repeat split.
  - symmetry. apply (N.div_unique _ _ a (b * 256 + c)); lia.
  - assert (E : (a * 65536 + b * 256 + c) / 256 = a * 256 + b)
      by (symmetry; apply (N.div_unique _ _ _ c); lia).
    rewrite E. symmetry. apply (N.mod_unique _ _ a); lia.
  - symmetry. apply (N.mod_unique _ _ (a * 256 + b)); lia.
Qed.

Lemma one_byte (a : N) :
  a < 256 ->
  (Base64.pack3 a 0 0 / 262144 * 64 + (Base64.pack3 a 0 0 / 4096) mod 64) / 16 = a.
Proof.
  intros Ha.
  replace (Base64.pack3 a 0 0 / 262144) with (Base64.pack3 a 0 0 / 4096 / 64)
    by (rewrite N.Div0.div_div; reflexivity).
  rewrite div_mod_join.
  assert (E : Base64.pack3 a 0 0 / 4096 = a * 16)
    by (symmetry; apply (N.div_unique _ _ _ 0); unfold Base64.pack3; lia).
  rewrite E. symmetry. apply (N.div_unique _ _ _ 0); lia.
Qed.

Lemma two_bytes (a b : N) :
  a < 256 -> b < 256 ->
  ((Base64.pack3 a b 0 / 262144 * 64 + (Base64.pack3 a b 0 / 4096) mod 64) * 64
   + (Base64.pack3 a b 0 / 64) mod 64) / 4 = a * 256 + b.
Proof.
  intros Ha Hb.
  replace (Base64.pack3 a b 0 / 262144) with (Base64.pack3 a b 0 / 64 / 64 / 64)
    by (rewrite !N.Div0.div_div; reflexivity).
  replace (Base64.pack3 a b 0 / 4096) with (Base64.pack3 a b 0 / 64 / 64)
    by (rewrite !N.Div0.div_div; reflexivity).
  rewrite !div_mod_join.
  assert (E : Base64.pack3 a b 0 / 64 = a * 1024 + b * 4)
    by (symmetry; apply (N.div_unique _ _ _ 0); unfold Base64.pack3; lia).
  rewrite E. symmetry. apply (N.div_unique _ _ _ 0); lia.
Qed.

Lemma two_bytes_split (a b : N) :
  b < 256 -> (a * 256 + b) / 256 = a /\ (a * 256 + b) mod 256 = b.
Proof.
  intros Hb. split.
  - symmetry. apply (N.div_unique _ _ _ b); lia.
  - symmetry. apply (N.mod_unique _ _ a); lia.
Qed.
End Sextets.

(** Induction over a string three characters at a time. *)
Lemma string_ind3 (P : string -> Prop) :
  P EmptyString ->
  (forall a, P (String a EmptyString)) ->
  (forall a b, P (String a (String b EmptyString))) ->
  (forall a b c r, P r -> P (String a (String b (String c r)))) ->
  forall s, P s.
Proof.
  intros H0 H1 H2 H3.
  fix IH 1. intros [|a [|b [|c r]]];
    [exact H0 | apply H1 | apply H2 | apply H3, IH].
Qed.

Lemma code_lt (c : ascii) : (code c < 256)%N.
Proof. apply N_ascii_bounded. Qed.

(** The four characters of a group are characters of the alphabet. *)
Lemma group_chars (a b c : N) :
  (a < 256)%N -> (b < 256)%N -> (c < 256)%N ->
  let n := Base64.pack3 a b c in
  (n / 262144 < 64 /\ (n / 4096) mod 64 < 64
   /\ (n / 64) mod 64 < 64 /\ n mod 64 < 64)%N.
Proof.
  intros Ha Hb Hc n. repeat split;
    [now apply sextet1_lt | apply sextet_mod_lt ..].
Qed.

Ltac group_facts a b c :=
  let H1 := fresh "H1" in let H2 := fresh "H2" in
  let H3 := fresh "H3" in let H4 := fresh "H4" in
  destruct (group_chars a b c) as (H1 & H2 & H3 & H4);
  [try apply code_lt; lia ..|];
  cbv zeta in H1, H2, H3, H4;
  pose proof (b64_char_plain _ H1) as (? & ? & ?);
  pose proof (b64_char_plain _ H2) as (? & ? & ?);
  pose proof (b64_char_plain _ H3) as (? & ? & ?);
  pose proof (b64_char_plain _ H4) as (? & ? & ?).

Lemma decode_btoa (s : string) : Base64.decode (Base64.btoa s) = Some s.
Proof.
  induction s as [|a|a b|a b c r IH] using string_ind3.
  - reflexivity.
  - group_facts (code a) 0%N 0%N.
    cbn [Base64.btoa Base64.decode]. cbv zeta.
    change (Ascii.eqb "=" "=") with true. cbv iota.
    rewrite !b64_val_char by assumption.
    unfold Base64.byte1. rewrite (one_byte (code a) (code_lt a)).
    unfold code. now rewrite ascii_N_embedding.
  - group_facts (code a) (code b) 0%N.
    cbn [Base64.btoa Base64.decode]. cbv zeta.
    change (Ascii.eqb "=" "=") with true. cbv iota.
    match goal with H : Ascii.eqb (Base64.b64_char ((_ / 64) mod 64)) "=" = false |- _ =>
      rewrite H end.
    rewrite !b64_val_char by assumption.
    unfold Base64.byte2.
    rewrite (two_bytes (code a) (code b) (code_lt a) (code_lt b)).
    destruct (two_bytes_split (code a) (code b) (code_lt b)) as [-> ->].
    unfold code. now rewrite !ascii_N_embedding.
  - group_facts (code a) (code b) (code c).
    cbn [Base64.btoa Base64.decode]. cbv zeta.
    match goal with H : Ascii.eqb (Base64.b64_char (_ mod 64)) "=" = false |- _ =>
      rewrite H end.
    rewrite !b64_val_char by assumption. rewrite IH.
    unfold Base64.byte3. rewrite sextets_join.
    destruct (bytes_split (code a) (code b) (code c)
                (code_lt a) (code_lt b) (code_lt c)) as (-> & -> & ->).
    unfold code. now rewrite !ascii_N_embedding.
Qed.

Lemma btoa_plain (s : string) :
  remove_chars Base64.is_b64_ws (Base64.btoa s) = Base64.btoa s.
Proof.
  induction s as [|a|a b|a b c r IH] using string_ind3.
  - reflexivity.
  - group_facts (code a) 0%N 0%N.
    cbn [Base64.btoa remove_chars]. cbv zeta.
    repeat match goal with H : Base64.is_b64_ws _ = false |- _ =>
      rewrite H; clear H end.
    reflexivity.
  - group_facts (code a) (code b) 0%N.
    cbn [Base64.btoa remove_chars]. cbv zeta.
    repeat match goal with H : Base64.is_b64_ws _ = false |- _ =>
      rewrite H; clear H end.
    reflexivity.
  - group_facts (code a) (code b) (code c).
    cbn [Base64.btoa remove_chars]. cbv zeta.
    repeat match goal with H : Base64.is_b64_ws _ = false |- _ =>
      rewrite H; clear H end.
    now rewrite IH.
Qed.

(** [atob] undoes [btoa]. *)
Lemma atob_btoa (s : string) : Base64.atob (Base64.btoa s) = Some s.
Proof. unfold Base64.atob. now rewrite btoa_plain, decode_btoa. Qed.

Lemma btoa_lacks_dot (s : string) : lacks "." (Base64.btoa s) = true.
Proof.
  unfold lacks.
  induction s as [|a|a b|a b c r IH] using string_ind3.
  - reflexivity.
  - group_facts (code a) 0%N 0%N.
    cbn [Base64.btoa str_forall]. cbv zeta.
    repeat match goal with H : Ascii.eqb _ "." = false |- _ =>
      rewrite H; clear H end.
    reflexivity.
  - group_facts (code a) (code b) 0%N.
    cbn [Base64.btoa str_forall]. cbv zeta.
    repeat match goal with H : Ascii.eqb _ "." = false |- _ =>
      rewrite H; clear H end.
    reflexivity.
  - group_facts (code a) (code b) (code c).
    cbn [Base64.btoa str_forall]. cbv zeta.
    repeat match goal with H : Ascii.eqb _ "." = false |- _ =>
      rewrite H; clear H end.
    now rewrite IH.
Qed.

Lemma split_lacks (sep : ascii) (s : string) :
  lacks sep s = true -> split sep s = [s].
Proof.
  unfold lacks. induction s as [|c r IH]; [reflexivity|].
  cbn [str_forall split]. intros H. apply andb_prop in H as [Hc Hr].
  apply negb_true_iff in Hc. now rewrite Hc, IH.
Qed.

Lemma split_prepend (sep : ascii) (h r : string) :
  lacks sep h = true ->
  split sep (prepend h (String sep r)) = h :: split sep r.
Proof.
  unfold lacks. induction h as [|c h IH]; cbn [prepend str_forall split].
  - intros _. now rewrite Ascii.eqb_refl.
  - intros H. apply andb_prop in H as [Hc Hh].
    apply negb_true_iff in Hc. now rewrite Hc, IH.
Qed.

(* ===================================================================== *)
(** * The matcher decides the language of a pattern *)
(* ===================================================================== *)

Lemma prepend_nil_r (s : string) : prepend s EmptyString = s.
Proof. induction s; cbn; congruence. Qed.

Lemma prepend_assoc (a b c : string) :
  prepend (prepend a b) c = prepend a (prepend b c).
Proof. induction a; cbn; congruence. Qed.

Lemma prepend_eq_nil (a b : string) :
  prepend a b = EmptyString -> a = EmptyString /\ b = EmptyString.
Proof. destruct a; cbn; [auto | discriminate]. Qed.

Lemma prepend_eq_cons (a b : string) (c : ascii) (s : string) :
  prepend a b = String c s ->
  (a = EmptyString /\ b = String c s)
  \/ (exists a', a = String c a' /\ s = prepend a' b).
Proof.
  destruct a as [|x a]; cbn; intros H.
  - now left.
  - injection H as -> <-. right. now exists a.
Qed.

Lemma void_inv (s : string) : re_matches Void s -> False.
Proof. inversion 1. Qed.

Lemma eps_inv (s : string) : re_matches Eps s -> s = EmptyString.
Proof. now inversion 1. Qed.

Lemma class_inv (p : ascii -> bool) (s : string) :
  re_matches (Class p) s -> exists c, s = String c EmptyString /\ p c = true.
Proof. inversion 1; subst; eauto. Qed.

Lemma cat_inv (r1 r2 : regex) (s : string) :
  re_matches (Cat r1 r2) s ->
  exists s1 s2, s = prepend s1 s2 /\ re_matches r1 s1 /\ re_matches r2 s2.
Proof. inversion 1; subst; eauto. Qed.

Lemma alt_inv (r1 r2 : regex) (s : string) :
  re_matches (Alt r1 r2) s -> re_matches r1 s \/ re_matches r2 s.
Proof. inversion 1; subst; auto. Qed.

Lemma nullable_spec (r : regex) : nullable r = true <-> re_matches r EmptyString.
Proof.
  induction r as [| |p|r1 IH1 r2 IH2|r1 IH1 r2 IH2|r IH]; cbn.
  - split; [discriminate | intros H; now apply void_inv in H].
  - split; [constructor | reflexivity].
  - split; [discriminate |].
    intros H. apply class_inv in H as (c & E & _). discriminate.
  - rewrite andb_true_iff, IH1, IH2. split.
    + intros [H1 H2]. exact (m_cat _ _ _ _ H1 H2).
    + intros H. apply cat_inv in H as (s1 & s2 & E & H1 & H2).
      symmetry in E. apply prepend_eq_nil in E as [-> ->]. now split.
  - rewrite orb_true_iff, IH1, IH2. split.
    + intros [H|H]; [now apply m_alt_l | now apply m_alt_r].
    + apply alt_inv.
  - split; [constructor | reflexivity].
Qed.

Lemma cat_spec (r1 r2 : regex) (s : string) :
  re_matches (cat r1 r2) s <-> re_matches (Cat r1 r2) s.
Proof.
  split.
  - destruct r1, r2; cbn; intros H; try assumption;
      try (now apply void_inv in H);
      try (exact (m_cat _ _ EmptyString _ m_eps H)).
  - intros H. apply cat_inv in H as (s1 & s2 & -> & H1 & H2).
    destruct r1; try (now apply void_inv in H1);
      destruct r2; try (now apply void_inv in H2); cbn;
      try (apply eps_inv in H1 as ->; cbn; assumption);
      now constructor.
Qed.

Lemma alt_spec (r1 r2 : regex) (s : string) :
  re_matches (alt r1 r2) s <-> re_matches (Alt r1 r2) s.
Proof.
  split.
  - destruct r1, r2; cbn; intros H; try assumption;
      try (now apply m_alt_l); try (now apply m_alt_r).
  - intros H. apply alt_inv in H as [H|H].
    + destruct r1; try (now apply void_inv in H); destruct r2; cbn;
        try assumption; now apply m_alt_l.
    + destruct r2; try (now apply void_inv in H); destruct r1; cbn;
        try assumption; now apply m_alt_r.
Qed.

(** A non-empty word of [r*] starts with a non-empty word of [r]. *)
Lemma star_cons_inv (r : regex) (c : ascii) (s : string) :
  re_matches (Star r) (String c s) ->
  exists s1 s2, s = prepend s1 s2
                /\ re_matches r (String c s1) /\ re_matches (Star r) s2.
Proof.
  intros H. remember (Star r) as r' eqn:Er. remember (String c s) as t eqn:Et.
  revert c s Et. induction H as [| | | | | |r0 s1 s2 H1 _ H2 IH2];
    intros c0 s0 Et; try discriminate.
  injection Er as ->.
  apply prepend_eq_cons in Et as [[-> E]|(a' & -> & ->)].
  - now apply IH2.
  - now exists a', s2.
Qed.

Lemma deriv_spec (r : regex) (c : ascii) (s : string) :
  re_matches (deriv c r) s <-> re_matches r (String c s).
Proof.
  revert s. induction r as [| |p|r1 IH1 r2 IH2|r1 IH1 r2 IH2|r IH];
    intros s; cbn [deriv].
  - split; intros H; now apply void_inv in H.
  - split; intros H; [now apply void_inv in H | now apply eps_inv in H].
  - destruct (p c) eqn:E; split; intros H.
    + apply eps_inv in H as ->. now constructor.
    + apply class_inv in H as (c' & [= <- ->] & _). constructor.
    + now apply void_inv in H.
    + apply class_inv in H as (c' & [= <- ->] & H). congruence.
  - rewrite alt_spec. split; intros H.
    + apply alt_inv in H as [H|H].
      * apply cat_spec, cat_inv in H as (s1 & s2 & -> & Ha & Hb).
        apply IH1 in Ha. exact (m_cat _ _ (String c s1) s2 Ha Hb).
      * destruct (nullable r1) eqn:En; [| now apply void_inv in H].
        apply nullable_spec in En. apply IH2 in H.
        exact (m_cat _ _ EmptyString _ En H).
    + apply cat_inv in H as (s1 & s2 & E & Ha & Hb). symmetry in E.
      apply prepend_eq_cons in E as [[-> ->]|(a' & -> & ->)].
      * apply m_alt_r. apply nullable_spec in Ha. rewrite Ha. now apply IH2.
      * apply m_alt_l, cat_spec. apply IH1 in Ha. now constructor.
  - rewrite alt_spec. split; intros H; apply alt_inv in H as [H|H];
      (apply m_alt_l; now apply IH1) || (apply m_alt_r; now apply IH2).
  - rewrite cat_spec. split; intros H.
    + apply cat_inv in H as (s1 & s2 & -> & Ha & Hb).
      apply IH in Ha. exact (m_star_cons _ (String c s1) s2 Ha Hb).
    + apply star_cons_inv in H as (s1 & s2 & -> & Ha & Hb).
      apply IH in Ha. now constructor.
Qed.

(** [test] answers true exactly on the words of the pattern. *)
Lemma re_test_spec (r : regex) (s : string) :
  re_test r s = true <-> re_matches r s.
Proof.
  revert r. induction s as [|c s IH]; intros r; cbn [re_test].
  - apply nullable_spec.
  - rewrite IH. apply deriv_spec.
Qed.

Lemma re_test_false (r : regex) (s : string) :
  re_test r s = false <-> ~ re_matches r s.
Proof.
  rewrite <- re_test_spec. destruct (re_test r s); split; congruence.
Qed.

(* ===================================================================== *)
(** * The storage utility *)
(* ===================================================================== *)

Local Open Scope js_scope.

Lemma with_items_items (m : gmap string string) (w : World) :
  items (with_items m w) = m.
Proof. reflexivity. Qed.

Lemma with_items_twice (m1 m2 : gmap string string) (w : World) :
  with_items m2 (with_items m1 w) = with_items m2 w.
Proof. reflexivity. Qed.

Lemma with_items_same (w : World) : with_items (items w) w = w.
Proof. now destruct w. Qed.

Lemma remove_run (key : string) (w : World) :
  StorageUtil.remove key w = (Ok true, with_items (delete key (items w)) w).
Proof. reflexivity. Qed.

Lemma for_each_remove_run (ks : list string) (w : World) :
  for_each (fun key => StorageUtil.remove key ;; ret tt) ks w
  = (Ok tt, with_items (remove_keys ks (items w)) w).
Proof.
  revert w. induction ks as [|k ks IH]; intros w.
  - cbn. now rewrite with_items_same.
  - cbn [for_each]. unfold bind at 1. unfold bind at 1. rewrite remove_run.
    unfold ret at 1. rewrite IH. reflexivity.
Qed.

Lemma clearOldData_run (w : World) :
  StorageUtil.clearOldData w
  = (Ok tt, with_items (cleared_items (clock w) (items w)) w).
Proof.
  unfold StorageUtil.clearOldData, Date_now, localStorage.entries, read, bind.
  now rewrite for_each_remove_run.
Qed.

(** What [StorageUtil.set] does, by cases on the room that is left. *)
Lemma set_run (key : string) (value : JsVal) (w : World) :
  StorageUtil.set key value w =
  let text := String_of (JSON.stringify value) in
  if fits key text (items w) (quota w) then
    (Ok true, with_items (<[key := text]> (items w)) w)
  else
    let m := cleared_items (clock w) (items w) in
    if fits key text m (quota w) then
      (Ok true, with_items (<[key := text]> m) w)
    else (Ok false, with_items m w).
Proof.
  unfold StorageUtil.set, try_catch, bind, localStorage.setItem, fits. cbv zeta.
  set (text := String_of (JSON.stringify value)).
  destruct (localStorage.used (<[key := text]> (items w)) <=? quota w)%nat;
    [reflexivity|].
  rewrite clearOldData_run. cbn [items quota with_items].
  destruct (localStorage.used
              (<[key := text]> (cleared_items (clock w) (items w))) <=? quota w)%nat;
    reflexivity.
Qed.

Lemma get_run (key : string) (d : JsVal) (w : World) :
  StorageUtil.get key d w = (Ok (stored key d (items w)), w).
Proof.
  unfold StorageUtil.get, try_catch, bind, localStorage.getItem, read, stored.
  destruct (items w !! key) as [text|]; [|reflexivity].
  unfold lift_opt. destruct (JSON.parse text); reflexivity.
Qed.

Lemma lookup_remove_keys (ks : list string) (m : gmap string string) (k : string) :
  remove_keys ks m !! k = if decide (k ∈ ks) then None else m !! k.
Proof.
  revert m. induction ks as [|a ks IH]; intros m; cbn [remove_keys fold_left].
  - destruct (decide _) as [H|]; [|reflexivity]. now apply elem_of_nil in H.
  - fold (remove_keys ks (delete a m)). rewrite IH.
    destruct (decide (k ∈ ks)) as [Hin|Hin].
    + rewrite decide_True; [reflexivity | now apply elem_of_cons; right].
    + destruct (decide (a = k)) as [->|Hne].
      * rewrite lookup_delete_eq.
        rewrite decide_True; [reflexivity | now apply elem_of_cons; left].
      * rewrite lookup_delete_ne by assumption.
        rewrite decide_False; [reflexivity|].
        intros [?|?]%elem_of_cons; congruence.
Qed.

(** [clearOldData] keeps an entry that its test does not select. *)
Lemma cleared_items_keep (now : Z) (m : gmap string string) (k text : string) :
  m !! k = Some text ->
  StorageUtil.is_old (now - (30 * 24 * 60 * 60 * 1000)) text = false ->
  cleared_items now m !! k = Some text.
Proof.
  intros Hk Hold. unfold cleared_items. rewrite lookup_remove_keys.
  destruct (decide _) as [Hin|]; [|assumption].
  exfalso. unfold StorageUtil.keysToRemove in Hin.
  apply list_elem_of_In, in_map_iff in Hin as ([k' t'] & Hfst & Hin).
  cbn in Hfst. subst k'.
  apply filter_In in Hin as [Hin Ht]. cbn in Ht.
  apply list_elem_of_In, elem_of_map_to_list in Hin.
  congruence.
Qed.

(** A write under another key keeps an entry that is not old. *)
Lemma set_keeps (key : string) (value : JsVal) (w : World) (k text : string) :
  key <> k ->
  items w !! k = Some text ->
  StorageUtil.is_old (clock w - (30 * 24 * 60 * 60 * 1000)) text = false ->
  items (snd (StorageUtil.set key value w)) !! k = Some text.
Proof.
  intros Hne Hk Hold. rewrite set_run. cbv zeta.
  pose proof (cleared_items_keep (clock w) (items w) k text Hk Hold) as Hc.
  repeat destruct (fits _ _ _ _); cbn [snd items with_items];
    rewrite ?lookup_insert_ne by assumption; assumption.
Qed.

(** A write that reports success has stored the text of the value. *)
Lemma set_true_lookup (key : string) (value : JsVal) (w w' : World) :
  StorageUtil.set key value w = (Ok true, w') ->
  items w' !! key = Some (String_of (JSON.stringify value)).
Proof.
  rewrite set_run. cbv zeta.
  repeat destruct (fits _ _ _ _); intros [= <-]; cbn [items with_items];
    apply lookup_insert_eq.
Qed.

(** The world fields that a write leaves alone. *)
Lemma set_frame (key : string) (value : JsVal) (w : World) :
  let w' := snd (StorageUtil.set key value w) in
  clock w' = clock w /\ quota w' = quota w
  /\ sessionCheckInterval w' = sessionCheckInterval w
  /\ pathname w' = pathname w /\ confirmReply w' = confirmReply w.
Proof.
  rewrite set_run. cbv zeta. repeat destruct (fits _ _ _ _); cbn; auto.
Qed.

(* ===================================================================== *)
(** * The authentication utility *)
(* ===================================================================== *)

Local Open Scope js_scope.

Lemma generateToken_run (payload : list (string * JsVal)) (expiry : option Z)
      (w : World) :
  AuthUtil.generateToken payload expiry w
  = (Ok (make_token payload expiry (clock w)), w).
Proof. reflexivity. Qed.

Lemma decodeToken_run (token : JsVal) (w : World) :
  AuthUtil.decodeToken token w = (Ok (decode_payload token), w).
Proof.
  unfold AuthUtil.decodeToken, decode_payload, try_catch.
  destruct token as [| |b|n|m e|t|l|fs]; try reflexivity.
  destruct (negb (truthy (JStr t))); [reflexivity|].
  destruct (split "." t) as [|p0 [|p1 [|p2 [|p3 r]]]]; try reflexivity.
  unfold bind, lift_opt.
  destruct (Base64.atob p1) as [text|]; [|reflexivity].
  cbn. destruct (JSON.parse text); reflexivity.
Qed.

Lemma verifyToken_run (token : JsVal) (w : World) :
  AuthUtil.verifyToken token w = (Ok (token_valid (clock w) token), w).
Proof.
  unfold AuthUtil.verifyToken, bind. rewrite decodeToken_run.
  unfold token_valid. cbv zeta.
  destruct (negb (truthy (decode_payload token))); [reflexivity|].
  destruct (truthy (get_prop (decode_payload token) "exp")); [|reflexivity].
  unfold Date_now, read.
  destruct (js_lt_num _ _); reflexivity.
Qed.

Lemma isAuthenticated_run (w : World) :
  AuthUtil.isAuthenticated w = (Ok (auth_value (items w) (clock w)), w).
Proof.
  unfold AuthUtil.isAuthenticated, StorageUtil.get_, bind, auth_value.
  rewrite get_run. cbv zeta.
  destruct (truthy _); [|reflexivity].
  now rewrite verifyToken_run.
Qed.

Lemma getCurrentUser_run (w : World) :
  AuthUtil.getCurrentUser w = (Ok (current_user (items w) (clock w)), w).
Proof.
  unfold AuthUtil.getCurrentUser, StorageUtil.get_, bind, current_user.
  rewrite get_run. cbv zeta.
  destruct (negb (truthy _)); [reflexivity|].
  rewrite verifyToken_run.
  destruct (negb (token_valid _ _)); [reflexivity|].
  now rewrite get_run.
Qed.

(** [StorageUtil.set] never throws. *)
Lemma set_ok (key : string) (value : JsVal) (w : World) :
  exists b, StorageUtil.set key value w = (Ok b, snd (StorageUtil.set key value w)).
Proof.
  rewrite set_run. cbv zeta. repeat destruct (fits _ _ _ _); cbn [snd]; eauto.
Qed.

Lemma initSession_run (w : World) :
  AuthUtil.initSession w =
  (Ok tt,
   with_interval true
     (with_listeners (activityListeners w + 4)
        (snd (StorageUtil.set CONFIG.STORAGE_KEYS.ADMIN_SESSION
                (JObj [("startTime", JNum (clock w));
                       ("lastActivity", JNum (clock w));
                       ("warningShown", JBool false)]) w)))).
Proof.
  unfold AuthUtil.initSession, bind, Date_now, read.
  destruct (set_ok CONFIG.STORAGE_KEYS.ADMIN_SESSION
              (JObj [("startTime", JNum (clock w));
                     ("lastActivity", JNum (clock w));
                     ("warningShown", JBool false)]) w) as [b E].
  rewrite E. cbn [snd].
  unfold AuthUtil.setupActivityListeners, AuthUtil.startSessionChecker, modify.
  pose proof (set_frame CONFIG.STORAGE_KEYS.ADMIN_SESSION
              (JObj [("startTime", JNum (clock w));
                     ("lastActivity", JNum (clock w));
                     ("warningShown", JBool false)]) w) as F.
  cbv zeta in F.
  assert (L : activityListeners
                (snd (StorageUtil.set CONFIG.STORAGE_KEYS.ADMIN_SESSION
                        (JObj [("startTime", JNum (clock w));
                               ("lastActivity", JNum (clock w));
                               ("warningShown", JBool false)]) w))
              = activityListeners w).
  { rewrite set_run. cbv zeta. repeat destruct (fits _ _ _ _); reflexivity. }
  now rewrite L.
Qed.

Lemma logout_run (w : World) :
  AuthUtil.logout w
  = (Ok true, with_interval false (with_items (logged_out (items w)) w)).
Proof.
  unfold AuthUtil.logout, try_catch, bind. rewrite !remove_run.
  unfold AuthUtil.clearSession, bind, read, AuthUtil.clearInterval, modify.
  cbn [sessionCheckInterval with_items items].
  destruct w as [m q t i n p c a]. cbn. destruct i; reflexivity.
Qed.

Lemma prepend_not_empty (h r : string) (c : ascii) :
  String.eqb (prepend h (String c r)) EmptyString = false.
Proof. destruct h; reflexivity. Qed.

Lemma split_token_text (h b g : string) :
  lacks "." h = true -> lacks "." b = true -> lacks "." g = true ->
  split "." (AuthUtil.token_text h b g) = [h; b; g].
Proof.
  intros Hh Hb Hg. unfold AuthUtil.token_text.
  now rewrite !split_prepend, split_lacks.
Qed.

(** Decoding a generated token gives its payload back. *)
Lemma decode_make_token (payload : list (string * JsVal)) (expiry : option Z)
      (now : Z) :
  is_json (JObj (token_payload payload expiry now)) = true ->
  decode_payload (JStr (make_token payload expiry now))
  = JObj (token_payload payload expiry now).
Proof.
  intros Hj. unfold decode_payload, make_token.
  cbn [truthy]. unfold AuthUtil.token_text at 1. rewrite prepend_not_empty.
  cbn [negb]. rewrite split_token_text by apply btoa_lacks_dot.
  rewrite atob_btoa.
  destruct (parse_stringify _ Hj) as (text & Hs & Hp).
  rewrite Hs. cbn [String_of]. now rewrite Hp.
Qed.

Lemma truthy_make_token (payload : list (string * JsVal)) (expiry : option Z)
      (now : Z) :
  truthy (JStr (make_token payload expiry now)) = true.
Proof.
  unfold make_token, AuthUtil.token_text. cbn [truthy].
  now rewrite prepend_not_empty.
Qed.

(** A generated token is valid until its expiry, inclusive. *)
Lemma token_valid_make_token (payload : list (string * JsVal)) (expiry : option Z)
      (now now' : Z) :
  is_json (JObj (token_payload payload expiry now)) = true ->
  now' <= now + AuthUtil.expiry_or_timeout expiry ->
  token_valid now' (JStr (make_token payload expiry now)) = true.
Proof.
  intros Hj Hle. unfold token_valid. rewrite decode_make_token by assumption.
  cbv zeta. cbn [truthy negb].
  assert (E : get_prop (JObj (token_payload payload expiry now)) "exp"
              = JNum (now + AuthUtil.expiry_or_timeout expiry)).
  { unfold token_payload, get_prop.
    generalize (obj_set "iat" (JNum now) payload). intros fs.
    induction fs as [|[k v] fs IH]; cbn [obj_set obj_get].
    - reflexivity.
    - destruct (String.eqb k "exp") eqn:Ek; cbn [obj_get].
      + now rewrite String.eqb_refl.
      + now rewrite Ek. }
  rewrite E. cbn [truthy js_lt_num ToNumber num_ltb num_leb].
  destruct (negb _); [|reflexivity].
  apply negb_true_iff, Z.ltb_ge. exact Hle.
Qed.

(** The text of a string or of an object without [timestamp] is not what
    [clearOldData] removes. *)
Lemma is_old_text (cutoff : Z) (v : JsVal) :
  is_json v = true ->
  truthy (get_prop v "timestamp") = false ->
  StorageUtil.is_old cutoff (String_of (JSON.stringify v)) = false.
Proof.
  intros Hj Ht. unfold StorageUtil.is_old.
  destruct (parse_stringify v Hj) as (text & Hs & Hp).
  rewrite Hs. cbn [String_of]. now rewrite Hp, Ht, andb_false_r.
Qed.

Lemma stored_text (m : gmap string string) (k : string) (d v : JsVal) :
  m !! k = Some (String_of (JSON.stringify v)) ->
  is_json v = true ->
  stored k d m = v.
Proof.
  intros Hk Hj. unfold stored. rewrite Hk.
  destruct (parse_stringify v Hj) as (text & Hs & Hp).
  rewrite Hs. cbn [String_of]. now rewrite Hp.
Qed.

Lemma set_snd_clock (key : string) (value : JsVal) (w w' : World) (b : bool) :
  StorageUtil.set key value w = (Ok b, w') -> clock w' = clock w.
Proof.
  intros H. pose proof (set_frame key value w) as F. cbv zeta in F.
  rewrite H in F. cbn [snd] in F. tauto.
Qed.

(** The statements of [sessionCheck] between its guards and its end. *)
Lemma updateActivity_ok (w : World) :
  exists w', AuthUtil.updateActivity w = (Ok tt, w').
Proof.
  unfold AuthUtil.updateActivity, StorageUtil.get_, bind. rewrite get_run.
  destruct (truthy _); [|now eexists].
  unfold Date_now, read.
  match goal with
  | |- context [StorageUtil.set ?k ?v ?w0] =>
      destruct (set_ok k v w0) as [b ->]
  end.
  now eexists.
Qed.

Lemma showSessionWarning_ok (w : World) :
  exists w', AuthUtil.showSessionWarning w = (Ok tt, w').
Proof.
  unfold AuthUtil.showSessionWarning, bind, read.
  destruct (confirmReply w); [apply updateActivity_ok | now eexists].
Qed.

Lemma warning_ok (session : JsVal) (w : World) :
  exists w',
    (AuthUtil.showSessionWarning ;;
     StorageUtil.set CONFIG.STORAGE_KEYS.ADMIN_SESSION
       (set_prop session "warningShown" (JBool true)) ;; ret tt)%js w
    = (Ok tt, w').
Proof.
  unfold bind at 1. destruct (showSessionWarning_ok w) as [w1 ->].
  unfold bind.
  match goal with
  | |- context [StorageUtil.set ?k ?v ?w0] =>
      destruct (set_ok k v w0) as [b ->]
  end.
  now eexists.
Qed.

(** What [sessionCheck] does once the time without activity has reached
    the timeout: the logout, the end of the interval and, on an admin page,
    the alert and the redirection. *)
Lemma expire_run (w : World) :
  exists w',
    (AuthUtil.logout ;;
     AuthUtil.clearInterval ;;
     path <- read pathname ;;
     if includes "/admin/" path then
       modify (with_alert
         "Your session has expired due to inactivity. Please login again.") ;;
       modify (with_pathname "/admin/login.html")
     else ret tt)%js w = (Ok tt, w')
    /\ items w' = logged_out (items w)
    /\ sessionCheckInterval w' = false.
Proof.
  unfold bind at 1. rewrite logout_run.
  unfold bind, AuthUtil.clearInterval, modify, read, ret.
  cbn [pathname with_interval with_items].
  destruct (includes "/admin/" (pathname w)); eexists; repeat split.
Qed.

Lemma logged_out_lookup (m : gmap string string) :
  logged_out m !! CONFIG.STORAGE_KEYS.AUTH_TOKEN = None
  /\ logged_out m !! CONFIG.STORAGE_KEYS.USER_DATA = None
  /\ logged_out m !! CONFIG.STORAGE_KEYS.ADMIN_SESSION = None
  /\ logged_out m !! CONFIG.STORAGE_KEYS.REMEMBER_ME = None.
Proof.
  unfold logged_out. repeat split.
  - rewrite !lookup_delete_ne by discriminate. apply lookup_delete_eq.
  - rewrite !lookup_delete_ne by discriminate. apply lookup_delete_eq.
  - rewrite lookup_delete_ne by discriminate. apply lookup_delete_eq.
  - apply lookup_delete_eq.
Qed.

Lemma eqb_pair (u p a b : string) :
  String.eqb u a && String.eqb p b = true <-> u = a /\ p = b.
Proof. now rewrite andb_true_iff, !String.eqb_eq. Qed.

(** [authenticateAdmin] never throws, and succeeds for its pair only. *)
Lemma authenticateAdmin_success (u p : string) (w : World) :
  exists res w',
    AuthUtil.authenticateAdmin u p w = (Ok res, w')
    /\ (success res = true
        <-> u = AuthUtil.ADMIN_USERNAME /\ p = AuthUtil.ADMIN_PASSWORD).
Proof.
  unfold AuthUtil.authenticateAdmin.
  destruct (String.eqb u AuthUtil.ADMIN_USERNAME
            && String.eqb p AuthUtil.ADMIN_PASSWORD) eqn:E.
  - unfold bind at 1. rewrite generateToken_run.
    unfold bind at 1.
    match goal with
    | |- context [StorageUtil.set ?k ?v ?w0] => destruct (set_ok k v w0) as [b1 ->]
    end.
    unfold bind at 1.
    match goal with
    | |- context [StorageUtil.set ?k ?v ?w0] => destruct (set_ok k v w0) as [b2 ->]
    end.
    unfold bind at 1. rewrite initSession_run. unfold ret.
    eexists. eexists. split; [reflexivity|]. cbn [success].
    apply eqb_pair in E. tauto.
  - unfold ret. eexists. eexists. split; [reflexivity|]. cbn [success].
    split; [discriminate|]. intros H. apply eqb_pair in H. congruence.
Qed.

Section LocalLogin.
Variable toISOString : Z -> string.

(** The admin branch of [loginLocalStorage]. *)
Lemma loginLocalStorage_admin (rememberMe : bool) (w : World) :
  exists res w',
    AuthUtil.loginLocalStorage toISOString CONFIG.ADMIN.USERNAME
      CONFIG.ADMIN.PASSWORD rememberMe w = (Ok res, w')
    /\ as_admin res.
Proof.
  unfold AuthUtil.loginLocalStorage.
  rewrite !String.eqb_refl. cbn [andb].
  unfold bind at 1. rewrite generateToken_run.
  unfold bind at 1.
  match goal with
  | |- context [StorageUtil.set ?k ?v ?w0] => destruct (set_ok k v w0) as [b1 ->]
  end.
  unfold bind at 1.
  match goal with
  | |- context [StorageUtil.set ?k ?v ?w0] => destruct (set_ok k v w0) as [b2 ->]
  end.
  unfold bind at 1.
  destruct rememberMe.
  - unfold bind at 1. unfold Date_now at 1, read at 1. unfold bind at 1.
    match goal with
    | |- context [StorageUtil.set ?k ?v ?w0] => destruct (set_ok k v w0) as [b3 ->]
    end.
    unfold ret at 1. unfold bind at 1. rewrite initSession_run. unfold ret.
    eexists. eexists. split; [reflexivity|].
    split; [reflexivity|]. eexists. split; reflexivity.
  - unfold ret at 1. unfold bind at 1. rewrite initSession_run. unfold ret.
    eexists. eexists. split; [reflexivity|].
    split; [reflexivity|]. eexists. split; reflexivity.
Qed.

(** Without a stored user list, any other pair is refused. *)
Lemma loginLocalStorage_no_users (u p : string) (rememberMe : bool) (w : World) :
  items w !! CONFIG.STORAGE_KEYS.USERS = None ->
  ~ (u = CONFIG.ADMIN.USERNAME /\ p = CONFIG.ADMIN.PASSWORD) ->
  exists res,
    AuthUtil.loginLocalStorage toISOString u p rememberMe w = (Ok res, w)
    /\ success res = false.
Proof.
  intros Hu Hne. unfold AuthUtil.loginLocalStorage.
  destruct (String.eqb u CONFIG.ADMIN.USERNAME
            && String.eqb p CONFIG.ADMIN.PASSWORD) eqn:E.
  - apply eqb_pair in E. contradiction.
  - unfold bind at 1. rewrite get_run. unfold stored. rewrite Hu.
    unfold bind, lift_result. cbn [AuthUtil.find_user]. unfold ret.
    eexists. split; reflexivity.
Qed.
End LocalLogin.

(* ===================================================================== *)
(** * The validation utility *)
(* ===================================================================== *)

Lemma emailRegex_not_empty : re_test ValidationUtil.emailRegex EmptyString = false.
Proof. reflexivity. Qed.

(** [validateEmail] accepts a string exactly when its trimmed form is a
    word of the pattern. *)
Lemma validateEmail_iff (s : string) :
  ValidationUtil.validateEmail (JStr s) = true
  <-> re_matches ValidationUtil.emailRegex (trim s).
Proof.
  unfold ValidationUtil.validateEmail. cbn [truthy]. rewrite negb_involutive.
  destruct (String.eqb s EmptyString) eqn:E.
  - apply String.eqb_eq in E. subst s. split; [discriminate|].
    intros H. apply re_test_spec in H. discriminate.
  - apply re_test_spec.
Qed.

Section ObjectFacts.
Context {A : Type}.

Lemma obj_get_obj_set (k f : string) (v : A) (l : list (string * A)) :
  obj_get f (obj_set k v l) = if String.eqb k f then Some v else obj_get f l.
Proof.
  induction l as [|[k' v'] l IH]; cbn [obj_set obj_get].
  - reflexivity.
  - destruct (String.eqb k' k) eqn:E; cbn [obj_get].
    + apply String.eqb_eq in E. subst k'.
      destruct (String.eqb k f); reflexivity.
    + rewrite IH. destruct (String.eqb k' f) eqn:E'; [|reflexivity].
      apply String.eqb_eq in E'. subst k'.
      rewrite String.eqb_sym in E. now rewrite E.
Qed.

Lemma existsb_keys_obj_set (x k : string) (v : A) (l : list (string * A)) :
  existsb (String.eqb x) (List.map fst (obj_set k v l))
  = String.eqb x k || existsb (String.eqb x) (List.map fst l).
Proof.
  induction l as [|[k' v'] l IH]; cbn [obj_set List.map fst existsb].
  - reflexivity.
  - destruct (String.eqb k' k) eqn:E; cbn [List.map fst existsb].
    + apply String.eqb_eq in E. subst k'.
      destruct (String.eqb x k); reflexivity.
    + rewrite IH. destruct (String.eqb x k'), (String.eqb x k); reflexivity.
Qed.

Lemma unique_keys_obj_set (k : string) (v : A) (l : list (string * A)) :
  unique_keys (List.map fst l) = true ->
  unique_keys (List.map fst (obj_set k v l)) = true.
Proof.
  induction l as [|[k' v'] l IH]; cbn [obj_set List.map fst unique_keys].
  - reflexivity.
  - intros H. apply andb_prop in H as [H1 H2].
    destruct (String.eqb k' k) eqn:E; cbn [List.map fst unique_keys].
    + apply String.eqb_eq in E. subst k'. now rewrite H1, H2.
    + rewrite existsb_keys_obj_set, E, (IH H2).
      apply negb_true_iff in H1. now rewrite H1.
Qed.

Lemma obj_get_absent (f : string) (l : list (string * A)) :
  existsb (String.eqb f) (List.map fst l) = false -> obj_get f l = None.
Proof.
  induction l as [|[k v] l IH]; cbn [List.map fst existsb obj_get];
    [reflexivity|].
  intros H. apply orb_false_elim in H as [H1 H2].
  rewrite String.eqb_sym, H1. now apply IH.
Qed.


End ObjectFacts.

(** *** The loop over the rules of one field *)






(** *** Rules that can be evaluated *)




(** *** The loop over the fields *)










(* ===================================================================== *)
(** * What [JSON.parse] returns *)
(* ===================================================================== *)

Local Open Scope js_scope.

Lemma forallb_obj_set (P : JsVal -> bool) (k : string) (v : JsVal)
      (l : list (string * JsVal)) :
  P v = true ->
  forallb (fun kv => P (snd kv)) l = true ->
  forallb (fun kv => P (snd kv)) (obj_set k v l) = true.
Proof.
  intros Hv. induction l as [|[k' v'] l IH]; cbn [obj_set forallb snd].
  - intros _. now rewrite Hv.
  - intros [Hv' Hl]%andb_true_iff.
    destruct (String.eqb k' k); cbn [forallb snd].
    + now rewrite Hv, Hl.
    + now rewrite Hv', IH.
Qed.

(** Setting properties one after the other keeps an object of the JSON data
    model in it. *)
Lemma fold_obj_set_json (ms acc : list (string * JsVal)) :
  forallb (fun kv => is_json (snd kv)) ms = true ->
  is_json (JObj acc) = true ->
  is_json (JObj (fold_left (fun a kv => obj_set (fst kv) (snd kv) a) ms acc)) = true.
Proof.
  revert acc. induction ms as [|[k v] ms IH]; intros acc Hms Hacc.
  - exact Hacc.
  - cbn [fold_left fst snd]. cbn [forallb snd] in Hms.
    apply andb_true_iff in Hms as [Hv Hms].
    apply IH; [exact Hms|].
    cbn [is_json] in Hacc |- *. apply andb_true_iff in Hacc as [Ha Hu].
    apply andb_true_iff. split.
    + now apply forallb_obj_set.
    + now apply unique_keys_obj_set.
Qed.

(** What [reduce] leaves is an integer or a fraction in lowest terms. *)
Lemma reduce_json (m : Z) (scale : nat) :
  is_json (reduce JNum JDec m scale) = true.
Proof.
  revert m. induction scale as [|n IH]; intros m; cbn [reduce]; [reflexivity|].
  destruct (m mod 10 =? 0) eqn:E; [apply IH|]. cbn [is_json]. now rewrite E.
Qed.

Lemma scaled_json (m x : Z) : is_json (scaled JNum JDec m x) = true.
Proof. destruct x; cbn [scaled]; [reflexivity | reflexivity | apply reduce_json]. Qed.

Lemma number_tail_json (sign : Z) (d : uint) (r1 : string) (v : JsVal)
      (rest : string) :
  JSON.number_tail sign d r1 = Some (v, rest) -> is_json v = true.
Proof.
  unfold JSON.number_tail.
  destruct (JSON.read_fraction _ r1) as [[[m count] r2]|]; [|discriminate].
  destruct (read_exponent r2) as [[x rest']|]; [|discriminate].
  intros [= <- _]. apply scaled_json.
Qed.

Lemma parse_number_json (s : string) (v : JsVal) (rest : string) :
  JSON.parse_number s = Some (v, rest) -> is_json v = true.
Proof.
  unfold JSON.parse_number.
  destruct (match s with
            | String c r => if Ascii.eqb c "-" then (-1, r) else (1, s)
            | EmptyString => (1, s)
            end) as [sign body].
  destruct (read_digits body) as [d r].
  destruct d as [|d'|d'|d'|d'|d'|d'|d'|d'|d'|d']; try discriminate;
    try apply number_tail_json.
  destruct d'; try discriminate. apply number_tail_json.
Qed.


(** The three parsers return values of the JSON data model only. *)
Lemma parse_json_values (fuel : nat) :
  (forall s v rest, JSON.parse_value fuel s = Some (v, rest) -> is_json v = true)
  /\ (forall s l rest,
        JSON.parse_elements fuel s = Some (l, rest) -> forallb is_json l = true)
  /\ (forall s ms rest,
        JSON.parse_members fuel s = Some (ms, rest) ->
        forallb (fun kv => is_json (snd kv)) ms = true).
Proof.
  induction fuel as [|f (IHv & IHe & IHm)].
  - repeat split; intros; discriminate.
  - split; [|split].
    + intros s v rest. cbn [JSON.parse_value].
      destruct (JSON.skip_ws s) as [|c r]; [discriminate|].
      destruct (is_digit c || Ascii.eqb c "-"); [apply parse_number_json|].
      destruct (Ascii.eqb c JSON.dquote).
      { destruct (JSON.parse_string_body r) as [[str rest']|]; [|discriminate].
        intros [= <- _]. reflexivity. }
      destruct (Ascii.eqb c "[").
      { destruct (JSON.skip_ws r) as [|c' rest']; [discriminate|].
        destruct (Ascii.eqb c' "]"); [intros [= <- _]; reflexivity|].
        destruct (JSON.parse_elements f r) as [[l rest'']|] eqn:E; [|discriminate].
        intros [= <- _]. cbn [is_json]. exact (IHe _ _ _ E). }
      destruct (Ascii.eqb c "{").
      { destruct (JSON.skip_ws r) as [|c' rest']; [discriminate|].
        destruct (Ascii.eqb c' "}"); [intros [= <- _]; reflexivity|].
        destruct (JSON.parse_members f r) as [[ms rest'']|] eqn:E; [|discriminate].
        intros [= <- _]. unfold JSON.build_object.
        apply fold_obj_set_json; [exact (IHm _ _ _ E) | reflexivity]. }
      destruct (Ascii.eqb c "t").
      { destruct (JSON.strip_prefix "rue" r); [|discriminate].
        intros [= <- _]. reflexivity. }
      destruct (Ascii.eqb c "f").
      { destruct (JSON.strip_prefix "alse" r); [|discriminate].
        intros [= <- _]. reflexivity. }
      destruct (Ascii.eqb c "n"); [|discriminate].
      destruct (JSON.strip_prefix "ull" r); [|discriminate].
      intros [= <- _]. reflexivity.
    + intros s l rest. cbn [JSON.parse_elements].
      destruct (JSON.parse_value f s) as [[v r]|] eqn:Ev; [|discriminate].
      destruct (JSON.skip_ws r) as [|c r']; [discriminate|].
      destruct (Ascii.eqb c ",").
      { destruct (JSON.parse_elements f r') as [[vs rest']|] eqn:Ee; [|discriminate].
        intros [= <- _]. cbn [forallb].
        now rewrite (IHv _ _ _ Ev), (IHe _ _ _ Ee). }
      destruct (Ascii.eqb c "]"); [|discriminate].
      intros [= <- _]. cbn [forallb]. now rewrite (IHv _ _ _ Ev).
    + intros s ms rest. cbn [JSON.parse_members].
      destruct (JSON.skip_ws s) as [|c r]; [discriminate|].
      destruct (Ascii.eqb c JSON.dquote); [|discriminate].
      destruct (JSON.parse_string_body r) as [[key r1]|]; [|discriminate].
      destruct (JSON.skip_ws r1) as [|c2 r2]; [discriminate|].
      destruct (Ascii.eqb c2 ":"); [|discriminate].
      destruct (JSON.parse_value f r2) as [[v r3]|] eqn:Ev; [|discriminate].
      destruct (JSON.skip_ws r3) as [|c3 r4]; [discriminate|].
      destruct (Ascii.eqb c3 ",").
      { destruct (JSON.parse_members f r4) as [[ms' rest']|] eqn:Em; [|discriminate].
        intros [= <- _]. cbn [forallb snd].
        now rewrite (IHv _ _ _ Ev), (IHm _ _ _ Em). }
      destruct (Ascii.eqb c3 "}"); [|discriminate].
      intros [= <- _]. cbn [forallb snd]. now rewrite (IHv _ _ _ Ev).
Qed.

Lemma parse_json (text : string) (v : JsVal) :
  JSON.parse text = Some v -> is_json v = true.
Proof.
  unfold JSON.parse.
  destruct (JSON.parse_value _ text) as [[x rest]|] eqn:E; [|discriminate].
  destruct (JSON.skip_ws rest); [|discriminate].
  intros [= <-]. exact (proj1 (parse_json_values _) _ _ _ E).
Qed.

(** What [StorageUtil.get] reads is a value of the JSON data model when the
    default is one. *)
Lemma stored_json (key : string) (d : JsVal) (m : gmap string string) :
  is_json d = true -> is_json (stored key d m) = true.
Proof.
  intros Hd. unfold stored.
  assert (Hd' : is_json (or_default d JNull) = true)
    by (destruct d; try exact Hd; discriminate).
  destruct (m !! key) as [text|]; [|exact Hd'].
  destruct (JSON.parse text) as [x|] eqn:E; [|exact Hd'].
  exact (parse_json _ _ E).
Qed.

(* ===================================================================== *)
(** * More on the storage utility *)
(* ===================================================================== *)

Local Open Scope js_scope.

Lemma setWithTimestamp_run (key : string) (value : JsVal) (w : World) :
  StorageUtil.setWithTimestamp key value w
  = StorageUtil.set key (JObj [("data", value); ("timestamp", JNum (clock w))]) w.
Proof. reflexivity. Qed.

(** The entries that [clearOldData] leaves, one key at a time. *)
Lemma cleared_items_lookup (now : Z) (m : gmap string string) (k : string) :
  cleared_items now m !! k
  = match m !! k with
    | Some text =>
        if StorageUtil.is_old (now - (30 * 24 * 60 * 60 * 1000)) text
        then None else Some text
    | None => None
    end.
Proof.
  destruct (m !! k) as [text|] eqn:Hk.
  - destruct (StorageUtil.is_old _ text) eqn:Hold.
    + unfold cleared_items. rewrite lookup_remove_keys.
      rewrite decide_True; [reflexivity|].
      unfold StorageUtil.keysToRemove.
      apply list_elem_of_In, in_map_iff. exists (k, text). split; [reflexivity|].
      apply filter_In. split; [|exact Hold].
      now apply list_elem_of_In, elem_of_map_to_list.
    + now apply cleared_items_keep.
  - unfold cleared_items. rewrite lookup_remove_keys.
    destruct (decide _); [reflexivity | exact Hk].
Qed.

(** A write leaves a key that it does not write absent. *)
Lemma set_absent (key : string) (value : JsVal) (w : World) (k : string) :
  key <> k ->
  items w !! k = None ->
  items (snd (StorageUtil.set key value w)) !! k = None.
Proof.
  intros Hne Hk. rewrite set_run. cbv zeta.
  pose proof (cleared_items_lookup (clock w) (items w) k) as Hc.
  rewrite Hk in Hc.
  repeat destruct (fits _ _ _ _); cbn [snd items with_items];
    rewrite ?lookup_insert_ne by assumption; assumption.
Qed.

Lemma is_old_parse (cutoff : Z) (text : string) (v : JsVal) :
  JSON.parse text = Some v ->
  StorageUtil.is_old cutoff text
  = truthy v && truthy (get_prop v "timestamp")
    && js_lt_num (get_prop v "timestamp") cutoff.
Proof. intros E. unfold StorageUtil.is_old. now rewrite E. Qed.

Lemma obj_get_fold_set (us fs : list (string * JsVal)) (k : string) :
  unique_keys (List.map fst us) = true ->
  obj_get k (fold_left (fun a kv => obj_set (fst kv) (snd kv) a) us fs)
  = match obj_get k us with
    | Some v => Some v
    | None => obj_get k fs
    end.
Proof.
  revert fs. induction us as [|[k1 v1] us IH]; intros fs Hu.
  - reflexivity.
  - cbn [List.map fst unique_keys] in Hu.
    apply andb_true_iff in Hu as [Hfresh Hu]. apply negb_true_iff in Hfresh.
    cbn [fold_left fst snd obj_get]. rewrite IH by exact Hu.
    rewrite obj_get_obj_set.
    destruct (String.eqb k1 k) eqn:E.
    + apply String.eqb_eq in E. subst k1.
      now rewrite (obj_get_absent k us Hfresh).
    + reflexivity.
Qed.

(** [setWithTimestamp] followed by [getWithTimestamp] at a later time [t]:
    the value comes back unless [maxAge] is truthy and the age exceeds it,
    in which case the entry is removed and the result is null.  A time
    stamp of 0 would read as missing. *)
Theorem getWithTimestamp_after_set
        (key : string) (value : JsVal) (maxAge : option Z) (w w' : World) (t : Z) :
  is_json value = true ->
  clock w <> 0 ->
  StorageUtil.setWithTimestamp key value w = (Ok true, w') ->
  StorageUtil.getWithTimestamp key maxAge (with_clock t w')
  = if too_old maxAge (t - clock w)
    then (Ok JNull, with_items (delete key (items w')) (with_clock t w'))
    else (Ok value, with_clock t w').
Proof.
  intros Hj Hc Hset. rewrite setWithTimestamp_run in Hset.
  pose proof (set_true_lookup _ _ _ _ Hset) as Hk.
  assert (Hobj : is_json (JObj [("data", value); ("timestamp", JNum (clock w))]) = true)
    by (cbn; now rewrite Hj).
  unfold StorageUtil.getWithTimestamp, StorageUtil.get_.
  unfold bind at 1. rewrite get_run. cbn [items with_clock].
  rewrite (stored_text _ _ _ _ Hk Hobj).
  change (get_prop (JObj [("data", value); ("timestamp", JNum (clock w))]) "timestamp")
    with (JNum (clock w)).
  change (get_prop (JObj [("data", value); ("timestamp", JNum (clock w))]) "data")
    with value.
  cbn [truthy negb orb].
  apply Z.eqb_neq in Hc. rewrite Hc. cbn [negb].
  unfold too_old. destruct maxAge as [m|]; [|reflexivity].
  destruct (m =? 0); [reflexivity|]. cbn [negb andb].
  unfold bind, Date_now, read, ret. cbn [clock with_clock num_sub ToNumber num_ltb num_leb num_gt].
  destruct (m <? t - clock w); [|reflexivity].
  now rewrite remove_run.
Qed.

Lemma getWithTimestamp_after_set_witness :
  StorageUtil.getWithTimestamp "draft" (Some 60000)
    (with_clock 50000
       (snd (StorageUtil.setWithTimestamp "draft" (JStr "text") world_roomy)))
  = (Ok (JStr "text"),
     with_clock 50000
       (snd (StorageUtil.setWithTimestamp "draft" (JStr "text") world_roomy))).
Proof.
  exact (getWithTimestamp_after_set "draft" (JStr "text") (Some 60000) world_roomy
           (snd (StorageUtil.setWithTimestamp "draft" (JStr "text") world_roomy))
           50000 eq_refl ltac:(discriminate) ltac:(vm_compute; reflexivity)).
Defined.

(** [append] on a stored array (or on a missing key, read as the empty
    array): once it reports success, [get] returns the array with the value
    at its end. *)
Theorem append_then_get
        (key : string) (value d : JsVal) (l : list JsVal) (w w' : World) :
  StorageUtil.get key (JArr []) w = (Ok (JArr l), w) ->
  is_json value = true ->
  StorageUtil.append key value w = (Ok true, w') ->
  StorageUtil.get key d w' = (Ok (JArr (l ++ [value])), w').
Proof.
  intros Hget Hv Happ.
  assert (Hl : is_json (JArr l) = true).
  { rewrite get_run in Hget. injection Hget as <-. now apply stored_json. }
  unfold StorageUtil.append, bind in Happ. rewrite Hget in Happ.
  pose proof (set_true_lookup _ _ _ _ Happ) as Hk.
  rewrite get_run. f_equal. f_equal.
  apply (stored_text _ _ _ _ Hk).
  cbn [is_json] in Hl |- *. rewrite forallb_app, Hl. cbn. now rewrite Hv.
Qed.

Lemma append_then_get_witness :
  StorageUtil.get "log" JNull
    (snd (StorageUtil.append "log" (JNum 7) world_roomy))
  = (Ok (JArr [JNum 7]), snd (StorageUtil.append "log" (JNum 7) world_roomy)).
Proof.
  exact (append_then_get "log" (JNum 7) JNull [] world_roomy
           (snd (StorageUtil.append "log" (JNum 7) world_roomy))
           ltac:(vm_compute; reflexivity) eq_refl ltac:(vm_compute; reflexivity)).
Defined.

(** [update] on a stored object (or on a missing key, read as the empty
    object): once it reports success, [get] returns an object in which
    every property of [updates] has its new value and every other property
    keeps the old one. *)
Theorem update_then_get
        (key : string) (updates fs : list (string * JsVal)) (d : JsVal)
        (w w' : World) :
  StorageUtil.get key (JObj []) w = (Ok (JObj fs), w) ->
  is_json (JObj updates) = true ->
  StorageUtil.update key updates w = (Ok true, w') ->
  exists merged,
    StorageUtil.get key d w' = (Ok (JObj merged), w')
    /\ forall k, obj_get k merged
                 = match obj_get k updates with
                   | Some v => Some v
                   | None => obj_get k fs
                   end.
Proof.
  intros Hget Hu Hupd.
  assert (Hfs : is_json (JObj fs) = true).
  { rewrite get_run in Hget. injection Hget as <-. now apply stored_json. }
  unfold StorageUtil.update, bind in Hupd. rewrite Hget in Hupd.
  pose proof (set_true_lookup _ _ _ _ Hupd) as Hk.
  exists (fold_left (fun a kv => obj_set (fst kv) (snd kv) a) updates fs).
  split.
  - rewrite get_run. f_equal. f_equal.
    apply (stored_text _ _ _ _ Hk).
    cbn [is_json] in Hu. apply andb_true_iff in Hu as [Hu _].
    now apply fold_obj_set_json.
  - intros k. apply obj_get_fold_set.
    cbn [is_json] in Hu. now apply andb_true_iff in Hu as [_ Hu].
Qed.

Lemma update_then_get_witness :
  exists merged,
    StorageUtil.get "settings" JNull
      (snd (StorageUtil.update "settings" [("theme", JStr "dark")] world_roomy))
    = (Ok (JObj merged),
       snd (StorageUtil.update "settings" [("theme", JStr "dark")] world_roomy))
    /\ forall k, obj_get k merged
                 = match obj_get k [("theme", JStr "dark")] with
                   | Some v => Some v
                   | None => obj_get k []
                   end.
Proof.
  exact (update_then_get "settings" [("theme", JStr "dark")] [] JNull world_roomy
           (snd (StorageUtil.update "settings" [("theme", JStr "dark")] world_roomy))
           ltac:(vm_compute; reflexivity) eq_refl ltac:(vm_compute; reflexivity)).
Defined.

(** [update] refuses a stored array, number, string or boolean: it returns
    false and writes nothing. *)
Theorem update_non_object
        (key : string) (updates : list (string * JsVal)) (v : JsVal) (w : World) :
  StorageUtil.get key (JObj []) w = (Ok v, w) ->
  match v with
  | JArr _ | JNum _ | JStr _ | JBool _ => True
  | _ => False
  end ->
  StorageUtil.update key updates w = (Ok false, w).
Proof.
  intros Hget Hv. unfold StorageUtil.update, bind. rewrite Hget.
  destruct v; try contradiction; reflexivity.
Qed.

Lemma update_non_object_witness :
  StorageUtil.update "n" [("a", JNum 1)] world_kinds = (Ok false, world_kinds).
Proof.
  exact (update_non_object "n" [("a", JNum 1)] (JNum 5) world_kinds
           ltac:(vm_compute; reflexivity) I).
Defined.

(** [remove] returns true; afterwards the key is absent, and [get] returns
    its default for it: the second argument, or null when that is missing
    or undefined; [get] on any other key returns what it returned
    before. *)
Theorem remove_then_get (key : string) (w : World) :
  exists w',
    StorageUtil.remove key w = (Ok true, w')
    /\ StorageUtil.has key w' = (Ok false, w')
    /\ (forall d, d <> JUndefined -> StorageUtil.get key d w' = (Ok d, w'))
    /\ StorageUtil.get key JUndefined w' = (Ok JNull, w')
    /\ StorageUtil.get_ key w' = (Ok JNull, w')
    /\ (forall k d, k <> key ->
          fst (StorageUtil.get k d w') = fst (StorageUtil.get k d w)).
Proof.
  eexists. split; [apply remove_run|]. repeat split.
  - unfold StorageUtil.has, bind, localStorage.getItem, read, ret.
    cbn [items with_items]. now rewrite lookup_delete_eq.
  - intros d Hd. rewrite get_run. unfold stored. cbn [items with_items].
    rewrite lookup_delete_eq. destruct d; try reflexivity. now elim Hd.
  - rewrite get_run. unfold stored. cbn [items with_items].
    now rewrite lookup_delete_eq.
  - unfold StorageUtil.get_. rewrite get_run. unfold stored.
    cbn [items with_items]. now rewrite lookup_delete_eq.
  - intros k d Hne. rewrite !get_run. unfold stored. cbn [items with_items fst].
    now rewrite lookup_delete_ne by congruence.
Qed.

(** [clear] returns true and leaves nothing: the size is 0, no key is
    there, and [get] returns its default for every key. *)
Lemma clear_empties (w : World) :
  exists w',
    StorageUtil.clear w = (Ok true, w')
    /\ StorageUtil.getSize w' = (Ok 0, w')
    /\ forall k d,
         StorageUtil.has k w' = (Ok false, w')
         /\ StorageUtil.get k d w' = (Ok (or_default d JNull), w').
Proof.
  exists (with_items ∅ w). repeat split.
Qed.

(** A write under one key leaves the value under any other key as it is,
    provided that this value carries no truthy [timestamp]: the clean-up
    that a full storage triggers removes time-stamped entries only. *)
Theorem set_keeps_unstamped
        (key k : string) (value v d : JsVal) (w : World) :
  k <> key ->
  StorageUtil.get_ k w = (Ok v, w) ->
  truthy (get_prop v "timestamp") = false ->
  fst (StorageUtil.get k d (snd (StorageUtil.set key value w)))
  = fst (StorageUtil.get k d w).
Proof.
  intros Hne Hget Hts. unfold StorageUtil.get_ in Hget.
  rewrite get_run in Hget. injection Hget as Hv.
  rewrite !get_run. cbn [fst]. unfold stored in *.
  destruct (items w !! k) as [text|] eqn:Hk.
  - rewrite (set_keeps key value w k text); [reflexivity | congruence | exact Hk |].
    destruct (JSON.parse text) as [x|] eqn:Hp.
    + rewrite (is_old_parse _ _ _ Hp). subst x. now rewrite Hts, andb_false_r.
    + unfold StorageUtil.is_old. now rewrite Hp.
  - rewrite (set_absent key value w k); [reflexivity | congruence | exact Hk].
Qed.

Lemma set_keeps_unstamped_witness :
  fst (StorageUtil.get "k" JNull
         (snd (StorageUtil.set "other" (JNum 1) world_full)))
  = fst (StorageUtil.get "k" JNull world_full).
Proof.
  exact (set_keeps_unstamped "other" "k" (JNum 1) (JNum 0) JNull world_full
           ltac:(discriminate) ltac:(vm_compute; reflexivity) eq_refl).
Defined.



(** Storing [undefined] reports success when there is room, but the entry
    then holds the text [undefined], which is no JSON, so [get] returns its
    default: the second argument, or null when that is missing or
    undefined. *)
Theorem set_undefined (key : string) (w w' : World) :
  StorageUtil.set key JUndefined w = (Ok true, w') ->
  items w' !! key = Some "undefined"
  /\ JSON.parse "undefined" = None
  /\ (forall d, d <> JUndefined -> StorageUtil.get key d w' = (Ok d, w'))
  /\ StorageUtil.get key JUndefined w' = (Ok JNull, w')
  /\ StorageUtil.get_ key w' = (Ok JNull, w').
Proof.
  intros Hset. pose proof (set_true_lookup _ _ _ _ Hset) as Hk.
  change (String_of (JSON.stringify JUndefined)) with "undefined" in Hk.
  assert (Hp : JSON.parse "undefined" = None) by reflexivity.
  split; [exact Hk|]. split; [exact Hp|]. repeat split.
  - intros d Hd. rewrite get_run. unfold stored. rewrite Hk, Hp.
    destruct d; try reflexivity. now elim Hd.
  - rewrite get_run. unfold stored. now rewrite Hk, Hp.
  - unfold StorageUtil.get_. rewrite get_run. unfold stored. now rewrite Hk, Hp.
Qed.

Lemma set_undefined_witness :
  items (snd (StorageUtil.set "k" JUndefined world_roomy)) !! "k" = Some "undefined"
  /\ JSON.parse "undefined" = None
  /\ (forall d, d <> JUndefined ->
        StorageUtil.get "k" d (snd (StorageUtil.set "k" JUndefined world_roomy))
        = (Ok d, snd (StorageUtil.set "k" JUndefined world_roomy)))
  /\ StorageUtil.get "k" JUndefined (snd (StorageUtil.set "k" JUndefined world_roomy))
     = (Ok JNull, snd (StorageUtil.set "k" JUndefined world_roomy))
  /\ StorageUtil.get_ "k" (snd (StorageUtil.set "k" JUndefined world_roomy))
     = (Ok JNull, snd (StorageUtil.set "k" JUndefined world_roomy)).
Proof.
  exact (set_undefined "k" world_roomy
           (snd (StorageUtil.set "k" JUndefined world_roomy))
           ltac:(vm_compute; reflexivity)).
Defined.

(* ===================================================================== *)
(** * More on the authentication utility *)
(* ===================================================================== *)

Local Open Scope js_scope.

Lemma token_payload_json (payload : list (string * JsVal)) (expiry : option Z)
      (now : Z) :
  is_json (JObj payload) = true ->
  is_json (JObj (token_payload payload expiry now)) = true.
Proof.
  intros Hj. unfold token_payload. cbn [is_json] in Hj |- *.
  apply andb_true_iff in Hj as [Ha Hu]. apply andb_true_iff. split.
  - apply forallb_obj_set; [reflexivity|]. now apply forallb_obj_set.
  - now apply unique_keys_obj_set, unique_keys_obj_set.
Qed.

Lemma token_payload_exp (payload : list (string * JsVal)) (expiry : option Z)
      (now : Z) :
  get_prop (JObj (token_payload payload expiry now)) "exp"
  = JNum (now + AuthUtil.expiry_or_timeout expiry).
Proof.
  unfold token_payload, get_prop. now rewrite obj_get_obj_set, String.eqb_refl.
Qed.

Lemma split_not_nil (sep : ascii) (s : string) : split sep s <> [].
Proof.
  destruct s as [|c r]; cbn [split]; [discriminate|].
  destruct (Ascii.eqb c sep); [discriminate|].
  destruct (split sep r); discriminate.
Qed.

(** Splitting a text that ends in a separator and a part without one. *)
Lemma split_app_last (sep : ascii) (b s : string) :
  lacks sep s = true ->
  split sep (prepend b (String sep s)) = split sep b ++ [s].
Proof.
  intros Hs. induction b as [|c b IH]; cbn [prepend split].
  - rewrite Ascii.eqb_refl. now rewrite split_lacks.
  - destruct (Ascii.eqb c sep); [now rewrite IH|].
    rewrite IH. pose proof (split_not_nil sep b) as Hne.
    destruct (split sep b); [contradiction | reflexivity].
Qed.

Lemma split_token_parts (h b g : string) :
  lacks "." h = true -> lacks "." g = true ->
  split "." (AuthUtil.token_text h b g) = h :: split "." b ++ [g].
Proof.
  intros Hh Hg. unfold AuthUtil.token_text.
  now rewrite split_prepend, split_app_last.
Qed.

(** The payload that is decoded depends on the middle part only. *)
Lemma decode_payload_parts (h1 g1 h2 g2 b : string) :
  lacks "." h1 = true -> lacks "." g1 = true ->
  lacks "." h2 = true -> lacks "." g2 = true ->
  decode_payload (JStr (AuthUtil.token_text h1 b g1))
  = decode_payload (JStr (AuthUtil.token_text h2 b g2)).
Proof.
  intros H1 G1 H2 G2. unfold decode_payload. cbn [truthy].
  unfold AuthUtil.token_text at 1 3. rewrite !prepend_not_empty. cbn [negb].
  rewrite !split_token_parts by assumption.
  pose proof (split_not_nil "." b) as Hne.
  destruct (split "." b) as [|p [|q r]]; [contradiction | reflexivity |].
  cbn [app]. destruct r; reflexivity.
Qed.




(** Decoding a generated token gives the payload with the two time stamps:
    [iat], the time of issue, and [exp], which lies [expiry] after it, or
    the session timeout when [expiry] is null or 0.  Properties [iat] and
    [exp] of the payload itself are replaced. *)
Theorem decodeToken_generateToken
        (payload : list (string * JsVal)) (expiry : option Z) (w : World) :
  is_json (JObj payload) = true ->
  exists token,
    AuthUtil.generateToken payload expiry w = (Ok token, w)
    /\ AuthUtil.decodeToken (JStr token) w
       = (Ok (JObj (obj_set "exp"
                      (JNum (clock w + AuthUtil.expiry_or_timeout expiry))
                      (obj_set "iat" (JNum (clock w)) payload))), w).
Proof.
  intros Hj. eexists. split; [apply generateToken_run|].
  rewrite decodeToken_run. f_equal. f_equal.
  apply decode_make_token. now apply token_payload_json.
Qed.

Lemma decodeToken_generateToken_witness :
  exists token,
    AuthUtil.generateToken [("userId", JStr "u1")] (Some 5000) world_roomy
    = (Ok token, world_roomy)
    /\ AuthUtil.decodeToken (JStr token) world_roomy
       = (Ok (JObj (obj_set "exp"
                      (JNum (clock world_roomy
                             + AuthUtil.expiry_or_timeout (Some 5000)))
                      (obj_set "iat" (JNum (clock world_roomy))
                         [("userId", JStr "u1")]))), world_roomy).
Proof.
  exact (decodeToken_generateToken [("userId", JStr "u1")] (Some 5000)
           world_roomy eq_refl).
Defined.

(** A generated token is accepted at the time [t] exactly when [t] is not
    later than its expiry, which is the time of issue plus [expiry], or
    plus the session timeout when [expiry] is null or 0.  (An expiry time
    of 0 itself would read as missing.) *)
Theorem verifyToken_generateToken
        (payload : list (string * JsVal)) (expiry : option Z) (w : World)
        (token : string) (t : Z) :
  is_json (JObj payload) = true ->
  clock w + AuthUtil.expiry_or_timeout expiry <> 0 ->
  AuthUtil.generateToken payload expiry w = (Ok token, w) ->
  AuthUtil.verifyToken (JStr token) (with_clock t w)
  = (Ok (t <=? clock w + AuthUtil.expiry_or_timeout expiry), with_clock t w).
Proof.
  intros Hj Hexp Hgen. rewrite generateToken_run in Hgen. injection Hgen as <-.
  rewrite verifyToken_run. f_equal. f_equal. cbn [clock with_clock].
  unfold token_valid.
  rewrite decode_make_token by now apply token_payload_json.
  cbv zeta. rewrite token_payload_exp. cbn [truthy negb js_lt_num ToNumber num_ltb num_leb].
  apply Z.eqb_neq in Hexp. rewrite Hexp. cbn [negb].
  rewrite Z.leb_antisym. reflexivity.
Qed.

Lemma verifyToken_generateToken_witness :
  AuthUtil.verifyToken
    (JStr (make_token [("userId", JStr "u1")] None 1000))
    (with_clock 1801000 world_roomy)
  = (Ok (1801000 <=? clock world_roomy + AuthUtil.expiry_or_timeout None),
     with_clock 1801000 world_roomy).
Proof.
  exact (verifyToken_generateToken [("userId", JStr "u1")] None world_roomy
           (make_token [("userId", JStr "u1")] None 1000) 1801000
           eq_refl ltac:(discriminate) eq_refl).
Defined.

(** The header and the signature of a token are never looked at: two
    tokens with the same middle part are decoded alike and are verified
    alike. *)
Theorem verifyToken_ignores_signature
        (h1 g1 h2 g2 b : string) (w : World) :
  lacks "." h1 = true -> lacks "." g1 = true ->
  lacks "." h2 = true -> lacks "." g2 = true ->
  AuthUtil.decodeToken (JStr (AuthUtil.token_text h1 b g1)) w
  = AuthUtil.decodeToken (JStr (AuthUtil.token_text h2 b g2)) w
  /\ AuthUtil.verifyToken (JStr (AuthUtil.token_text h1 b g1)) w
     = AuthUtil.verifyToken (JStr (AuthUtil.token_text h2 b g2)) w.
Proof.
  intros H1 G1 H2 G2.
  pose proof (decode_payload_parts h1 g1 h2 g2 b H1 G1 H2 G2) as E.
  rewrite !decodeToken_run, !verifyToken_run. unfold token_valid.
  now rewrite E.
Qed.

Lemma verifyToken_ignores_signature_witness :
  AuthUtil.decodeToken (JStr (AuthUtil.token_text "x" "e30=" "y")) world_roomy
  = AuthUtil.decodeToken (JStr (AuthUtil.token_text "forged" "e30=" "")) world_roomy
  /\ AuthUtil.verifyToken (JStr (AuthUtil.token_text "x" "e30=" "y")) world_roomy
     = AuthUtil.verifyToken (JStr (AuthUtil.token_text "forged" "e30=" ""))
         world_roomy.
Proof.
  exact (verifyToken_ignores_signature "x" "y" "forged" "" "e30=" world_roomy
           eq_refl eq_refl eq_refl eq_refl).
Defined.

(** [logout] returns true.  After it the token, the user data, the session
    record and the remember-me flag are gone, every other entry is as it
    was, the interval is stopped, and [isAuthenticated] and
    [getCurrentUser] return null at any time. *)
Theorem logout_clears (w : World) :
  exists w',
    AuthUtil.logout w = (Ok true, w')
    /\ (forall k, items w' !! k
                  = if decide (k ∈ session_keys) then None else items w !! k)
    /\ sessionCheckInterval w' = false
    /\ forall t,
         AuthUtil.isAuthenticated (with_clock t w') = (Ok JNull, with_clock t w')
         /\ AuthUtil.getCurrentUser (with_clock t w') = (Ok JNull, with_clock t w').
Proof.
  eexists. split; [apply logout_run|].
  destruct (logged_out_lookup (items w)) as (L1 & L2 & L3 & L4).
  split; [|split; [reflexivity|]].
  - intros k. cbn [items with_items with_interval]. unfold logged_out.
    rewrite <- (lookup_remove_keys session_keys (items w) k). reflexivity.
  - intros t. rewrite isAuthenticated_run, getCurrentUser_run.
    cbn [items with_items with_interval with_clock].
    unfold auth_value, current_user, stored. now rewrite L1.
Qed.

(** When [requireAdmin] lets the caller through, so does [requireAuth],
    and neither redirects. *)
Theorem requireAdmin_requireAuth (url1 url2 : string) (w w' : World) :
  AuthUtil.requireAdmin url1 w = (Ok true, w') ->
  w' = w /\ AuthUtil.requireAuth url2 w = (Ok true, w).
Proof.
  unfold AuthUtil.requireAdmin, AuthUtil.requireAuth, AuthUtil.isAdmin,
    AuthUtil.hasRole.
  unfold bind at 1 2. rewrite getCurrentUser_run.
  unfold bind at 2. rewrite isAuthenticated_run.
  unfold current_user, auth_value.
  destruct (truthy (stored CONFIG.STORAGE_KEYS.AUTH_TOKEN JNull (items w)));
    cbn [negb truthy].
  2:{ unfold bind, navigate, modify, ret. cbn. discriminate. }
  destruct (token_valid (clock w) _); cbn [negb truthy].
  2:{ unfold bind, navigate, modify, ret. cbn. discriminate. }
  destruct (truthy (stored CONFIG.STORAGE_KEYS.USER_DATA JNull (items w))).
  - unfold ret at 1. destruct (negb (truthy (JBool _))).
    + unfold bind, navigate, modify, ret. discriminate.
    + unfold ret. intros [= <-]. split; reflexivity.
  - unfold ret at 1. destruct (negb (truthy _)).
    + unfold bind, navigate, modify, ret. discriminate.
    + unfold ret. intros [= <-]. split; reflexivity.
Qed.

Lemma requireAdmin_requireAuth_witness :
  world_logged_in 2000 = world_logged_in 2000
  /\ AuthUtil.requireAuth "/admin/login.html" (world_logged_in 2000)
     = (Ok true, world_logged_in 2000).
Proof.
  exact (requireAdmin_requireAuth "/index.html" "/admin/login.html"
           (world_logged_in 2000) (world_logged_in 2000)
           ltac:(vm_compute; reflexivity)).
Defined.



(** An admin who is active fifteen minutes after the login is still
    logged out of [isAuthenticated] one millisecond after the thirtieth
    minute. *)
Example activity_then_expiry :
  fst (AuthUtil.isAuthenticated
         (with_clock 1801001
            (snd (AuthUtil.updateActivity (world_logged_in 900000)))))
  = Ok (JBool false).
Proof. vm_compute. reflexivity. Qed.

Lemma obj_get_obj_remove {A : Type} (k : string) (fs : list (string * A)) :
  obj_get k (obj_remove k fs) = None.
Proof.
  induction fs as [|[k' v'] fs IH]; cbn [obj_remove obj_get]; [reflexivity|].
  destruct (String.eqb k' k) eqn:E; [exact IH|].
  cbn [obj_get]. now rewrite E.
Qed.

Section LocalLoginPaths.
Variable toISOString : Z -> string.

(** The admin branch of [loginLocalStorage], with what it returns. *)
Lemma loginLocalStorage_admin_user (rememberMe : bool) (w : World) :
  exists res w',
    AuthUtil.loginLocalStorage toISOString CONFIG.ADMIN.USERNAME
      CONFIG.ADMIN.PASSWORD rememberMe w = (Ok res, w')
    /\ success res = true
    /\ user res
       = Some (JObj [("id", JStr "admin-001");
                     ("username", JStr CONFIG.ADMIN.USERNAME);
                     ("email", JStr CONFIG.ADMIN.EMAIL);
                     ("name", JStr "Dale Melaku");
                     ("role", JStr "admin"); ("isActive", JBool true)])
    /\ token res
       = Some (make_token admin_payload
                 (Some (if rememberMe then AuthUtil.thirty_days
                        else CONFIG.SESSION.TIMEOUT)) (clock w)).
Proof.
  unfold AuthUtil.loginLocalStorage.
  rewrite !String.eqb_refl. cbn [andb].
  unfold bind at 1. rewrite generateToken_run.
  unfold bind at 1.
  match goal with
  | |- context [StorageUtil.set ?k ?v ?w0] => destruct (set_ok k v w0) as [b1 ->]
  end.
  unfold bind at 1.
  match goal with
  | |- context [StorageUtil.set ?k ?v ?w0] => destruct (set_ok k v w0) as [b2 ->]
  end.
  unfold bind at 1.
  destruct rememberMe.
  - unfold bind at 1. unfold Date_now at 1, read at 1. unfold bind at 1.
    match goal with
    | |- context [StorageUtil.set ?k ?v ?w0] => destruct (set_ok k v w0) as [b3 ->]
    end.
    unfold ret at 1. unfold bind at 1. rewrite initSession_run. unfold ret.
    eexists. eexists. repeat split.
  - unfold ret at 1. unfold bind at 1. rewrite initSession_run. unfold ret.
    eexists. eexists. repeat split.
Qed.

(** The branch of [loginLocalStorage] for a user found in the stored
    list. *)
Lemma loginLocalStorage_found (u p : string) (rememberMe : bool) (w : World)
      (l : list JsVal) (i : nat) (usr : JsVal) :
  String.eqb u CONFIG.ADMIN.USERNAME && String.eqb p CONFIG.ADMIN.PASSWORD = false ->
  stored CONFIG.STORAGE_KEYS.USERS (JArr []) (items w) = JArr l ->
  AuthUtil.find_user u p 0 l = Ok (Some (i, usr)) ->
  exists res w',
    AuthUtil.loginLocalStorage toISOString u p rememberMe w = (Ok res, w')
    /\ success res = true
    /\ user res
       = Some (match usr with
               | JObj fs => JObj (obj_remove "password" fs)
               | _ => JObj []
               end)
    /\ token res
       = Some (make_token [("userId", get_prop usr "id");
                           ("role", get_prop usr "role")]
                 (Some (if rememberMe then AuthUtil.thirty_days
                        else CONFIG.SESSION.TIMEOUT)) (clock w)).
Proof.
  intros Hpair Hst Hfind. unfold AuthUtil.loginLocalStorage. rewrite Hpair.
  unfold bind at 1. rewrite get_run, Hst.
  unfold bind at 1, lift_result at 1. rewrite Hfind.
  unfold bind at 1. rewrite generateToken_run.
  unfold bind at 1.
  match goal with
  | |- context [StorageUtil.set ?k ?v ?w0] => destruct (set_ok k v w0) as [b1 ->]
  end.
  unfold bind at 1.
  match goal with
  | |- context [StorageUtil.set ?k ?v ?w0] => destruct (set_ok k v w0) as [b2 ->]
  end.
  unfold bind at 1.
  destruct rememberMe.
  - unfold bind at 1. unfold Date_now at 1, read at 1. unfold bind at 1.
    match goal with
    | |- context [StorageUtil.set ?k ?v ?w0] => destruct (set_ok k v w0) as [b3 ->]
    end.
    unfold ret at 1. unfold bind at 1. unfold Date_now at 1, read at 1.
    unfold bind at 1.
    match goal with
    | |- context [StorageUtil.set ?k ?v ?w0] => destruct (set_ok k v w0) as [b4 ->]
    end.
    unfold bind at 1. rewrite initSession_run. unfold ret.
    eexists. eexists. repeat split.
  - unfold ret at 1. unfold bind at 1. unfold Date_now at 1, read at 1.
    unfold bind at 1.
    match goal with
    | |- context [StorageUtil.set ?k ?v ?w0] => destruct (set_ok k v w0) as [b4 ->]
    end.
    unfold bind at 1. rewrite initSession_run. unfold ret.
    eexists. eexists. repeat split.
Qed.

(** The branch of [loginLocalStorage] for a pair that the stored list does
    not have: nothing is written. *)
Lemma loginLocalStorage_not_found (u p : string) (rememberMe : bool) (w : World)
      (l : list JsVal) :
  String.eqb u CONFIG.ADMIN.USERNAME && String.eqb p CONFIG.ADMIN.PASSWORD = false ->
  stored CONFIG.STORAGE_KEYS.USERS (JArr []) (items w) = JArr l ->
  AuthUtil.find_user u p 0 l = Ok None ->
  AuthUtil.loginLocalStorage toISOString u p rememberMe w
  = (Ok (mkLoginResult false None None "Invalid username or password"), w).
Proof.
  intros Hpair Hst Hfind. unfold AuthUtil.loginLocalStorage. rewrite Hpair.
  unfold bind at 1. rewrite get_run, Hst.
  unfold bind, lift_result. now rewrite Hfind.
Qed.

(** A user that [find] selects is an object. *)
Lemma find_user_object (u p : string) (l : list JsVal) (i j : nat) (usr : JsVal) :
  AuthUtil.find_user u p j l = Ok (Some (i, usr)) -> exists fs, usr = JObj fs.
Proof.
  revert j. induction l as [|x l IH]; intros j; cbn [AuthUtil.find_user];
    [discriminate|].
  destruct (AuthUtil.user_matches u p x) as [[|]|e] eqn:E; [| apply IH | discriminate].
  intros [= _ <-]. unfold AuthUtil.user_matches in E.
  destruct (AuthUtil.member x "username"); [|discriminate].
  injection E as E. apply andb_true_iff in E as [E _].
  apply andb_true_iff in E as [_ E].
  destruct x; try discriminate. eauto.
Qed.

(** A successful [loginLocalStorage] never returns the password: the user
    object of the result has no property [password]. *)
Theorem loginLocalStorage_hides_password
        (u p : string) (rememberMe : bool) (w w' : World) (res : LoginResult) :
  AuthUtil.loginLocalStorage toISOString u p rememberMe w = (Ok res, w') ->
  success res = true ->
  exists d, user res = Some d /\ get_prop d "password" = JUndefined.
Proof.
  intros Hrun Hok.
  destruct (String.eqb u CONFIG.ADMIN.USERNAME
            && String.eqb p CONFIG.ADMIN.PASSWORD) eqn:Hpair.
  - apply eqb_pair in Hpair as [-> ->].
    destruct (loginLocalStorage_admin_user rememberMe w) as (r & w1 & E & _ & Hu & _).
    rewrite E in Hrun. injection Hrun as <- _.
    eexists. split; [exact Hu | reflexivity].
  - destruct (stored CONFIG.STORAGE_KEYS.USERS (JArr []) (items w)) as [| | | | | |l|]
      eqn:Hst;
      try (exfalso; revert Hrun; unfold AuthUtil.loginLocalStorage;
           rewrite Hpair; unfold bind at 1; rewrite get_run, Hst; discriminate).
    destruct (AuthUtil.find_user u p 0 l) as [[[i usr]|]|e] eqn:Hfind.
    + destruct (loginLocalStorage_found u p rememberMe w l i usr Hpair Hst Hfind)
        as (r & w1 & E & _ & Hu & _).
      rewrite E in Hrun. injection Hrun as <- _.
      destruct (find_user_object _ _ _ _ _ _ Hfind) as [fs ->].
      eexists. split; [exact Hu|].
      unfold get_prop. now rewrite obj_get_obj_remove.
    + rewrite (loginLocalStorage_not_found u p rememberMe w l Hpair Hst Hfind) in Hrun.
      injection Hrun as <- _. discriminate.
    + exfalso. revert Hrun. unfold AuthUtil.loginLocalStorage.
      rewrite Hpair. unfold bind at 1. rewrite get_run, Hst.
      unfold bind, lift_result. rewrite Hfind. discriminate.
Qed.

End LocalLoginPaths.

Section DemoUsers.
Variable toISOString : Z -> string.

Lemma demoUsers_json (now : Z) :
  is_json (JArr (AuthUtil.demoUsers toISOString now)) = true.
Proof. reflexivity. Qed.

(** [initDemoUsers] on a storage without users and with room stores the
    twelve demo users and returns them; called again at any later time, it
    returns the stored list and writes nothing. *)
Theorem initDemoUsers_once (w w1 : World) (t : Z) :
  StorageUtil.get CONFIG.STORAGE_KEYS.USERS (JArr []) w = (Ok (JArr []), w) ->
  StorageUtil.set CONFIG.STORAGE_KEYS.USERS
    (JArr (AuthUtil.demoUsers toISOString (clock w))) w = (Ok true, w1) ->
  AuthUtil.initDemoUsers toISOString w
  = (Ok (JArr (AuthUtil.demoUsers toISOString (clock w))), w1)
  /\ StorageUtil.get CONFIG.STORAGE_KEYS.USERS (JArr []) w1
     = (Ok (JArr (AuthUtil.demoUsers toISOString (clock w))), w1)
  /\ AuthUtil.initDemoUsers toISOString (with_clock t w1)
     = (Ok (JArr (AuthUtil.demoUsers toISOString (clock w))), with_clock t w1).
Proof.
  intros Hget Hset.
  assert (Hst : stored CONFIG.STORAGE_KEYS.USERS (JArr []) (items w1)
                = JArr (AuthUtil.demoUsers toISOString (clock w))).
  { apply stored_text; [exact (set_true_lookup _ _ _ _ Hset) | apply demoUsers_json]. }
  split; [|split].
  - unfold AuthUtil.initDemoUsers. unfold bind at 1. rewrite Hget.
    unfold bind, lift_result, Date_now, read, ret. cbn [js_length length].
    change (strict_eq_num (JNum (Z.of_nat 0)) 0) with true. cbv beta iota.
    now rewrite Hset.
  - now rewrite get_run, Hst.
  - unfold AuthUtil.initDemoUsers. unfold bind at 1. rewrite get_run.
    cbn [items with_clock]. rewrite Hst. reflexivity.
Qed.

(** With the demo users in the storage, each of them logs in with its user
    name or its e-mail address and its password exactly when it is active;
    the result then carries its id and its role. *)
Theorem demo_users_login
        (now : Z) (rememberMe : bool) (w : World) (u : JsVal) (name : string) :
  StorageUtil.get CONFIG.STORAGE_KEYS.USERS (JArr []) w
  = (Ok (JArr (AuthUtil.demoUsers toISOString now)), w) ->
  In u (AuthUtil.demoUsers toISOString now) ->
  name = str_prop u "username" \/ name = str_prop u "email" ->
  exists res w',
    AuthUtil.loginLocalStorage toISOString name (str_prop u "password")
      rememberMe w = (Ok res, w')
    /\ success res = truthy (get_prop u "isActive")
    /\ (success res = true ->
        exists d, user res = Some d
                  /\ get_prop d "id" = get_prop u "id"
                  /\ get_prop d "role" = get_prop u "role").
Proof.
  intros Hget Hin Hname. rewrite get_run in Hget. injection Hget as Hst.
  unfold AuthUtil.demoUsers in Hin. cbn [In] in Hin.
  repeat (destruct Hin as [<-|Hin]); try contradiction;
    destruct Hname as [-> | ->];
    match goal with
    | |- exists res w', AuthUtil.loginLocalStorage _ ?n ?pw _ _ = _ /\ _ =>
        first
          [ destruct (loginLocalStorage_admin_user toISOString rememberMe w)
              as (res & w' & E & Hs & Hu & _);
            exists res, w'; split; [exact E|]; split; [exact Hs|];
            intros _; eexists; split; [exact Hu|]; split; reflexivity
          | edestruct (loginLocalStorage_found toISOString n pw rememberMe w)
              as (res & w' & E & Hs & Hu & _);
            [ reflexivity | exact Hst | reflexivity | ];
            exists res, w'; split; [exact E|]; split; [exact Hs|];
            intros _; eexists; split; [exact Hu|]; split; reflexivity
          | eexists; eexists; split;
            [ apply (loginLocalStorage_not_found toISOString n pw rememberMe w
                       _ eq_refl Hst); reflexivity
            | split; [reflexivity | discriminate] ] ]
    end.
Qed.

End DemoUsers.

Lemma initDemoUsers_once_witness :
  AuthUtil.initDemoUsers (fun _ => EmptyString) world_roomy
  = (Ok (JArr (AuthUtil.demoUsers (fun _ => EmptyString) (clock world_roomy))),
     world_demo)
  /\ StorageUtil.get CONFIG.STORAGE_KEYS.USERS (JArr []) world_demo
     = (Ok (JArr (AuthUtil.demoUsers (fun _ => EmptyString) (clock world_roomy))),
        world_demo)
  /\ AuthUtil.initDemoUsers (fun _ => EmptyString) (with_clock 5000 world_demo)
     = (Ok (JArr (AuthUtil.demoUsers (fun _ => EmptyString) (clock world_roomy))),
        with_clock 5000 world_demo).
Proof.
  exact (initDemoUsers_once (fun _ => EmptyString) world_roomy world_demo 5000
           ltac:(vm_compute; reflexivity) ltac:(vm_compute; reflexivity)).
Defined.


Lemma demo_users_login_witness :
  exists res w',
    AuthUtil.loginLocalStorage (fun _ => EmptyString) "moti@dbconstruction.com"
      (str_prop (AuthUtil.demo_user "staff-001" "moti.elias"
                   "moti@dbconstruction.com" "staff123" "Moti Elias" "staff"
                   ["proj-001"; "proj-002"; "proj-003"]
                   (AuthUtil.days_ago (fun _ => EmptyString) 1000 180)
                   (AuthUtil.days_ago (fun _ => EmptyString) 1000 2) true)
                "password")
      false world_demo = (Ok res, w')
    /\ success res = true
    /\ (success res = true ->
        exists d, user res = Some d
                  /\ get_prop d "id" = JStr "staff-001"
                  /\ get_prop d "role" = JStr "staff").
Proof.
  exact (demo_users_login (fun _ => EmptyString) 1000 false world_demo
           (AuthUtil.demo_user "staff-001" "moti.elias"
              "moti@dbconstruction.com" "staff123" "Moti Elias" "staff"
              ["proj-001"; "proj-002"; "proj-003"]
              (AuthUtil.days_ago (fun _ => EmptyString) 1000 180)
              (AuthUtil.days_ago (fun _ => EmptyString) 1000 2) true)
           "moti@dbconstruction.com"
           ltac:(vm_compute; reflexivity)
           ltac:(right; left; reflexivity)
           ltac:(right; reflexivity)).
Defined.

Lemma set_prop_json (v x : JsVal) (k : string) :
  is_json v = true -> is_json x = true -> is_json (set_prop v k x) = true.
Proof.
  intros Hv Hx. destruct v; try exact Hv.
  cbn [set_prop is_json] in Hv |- *.
  apply andb_true_iff in Hv as [Ha Hu]. apply andb_true_iff. split.
  - now apply forallb_obj_set.
  - now apply unique_keys_obj_set.
Qed.

(** The warning of the periodic check does not keep the session alive.
    When the time without activity has reached the warning threshold but
    not the timeout, the check shows the dialog and then writes back the
    session record that it read before, with [warningShown] set: whatever
    the user answers, the stored [lastActivity] is the old one again. *)
Theorem sessionCheck_warning_overwrites (w : World) (a session : JsVal) :
  AuthUtil.isAuthenticated w = (Ok a, w) ->
  truthy a = true ->
  StorageUtil.get_ CONFIG.STORAGE_KEYS.ADMIN_SESSION w = (Ok session, w) ->
  truthy session = true ->
  num_ge (num_sub (clock w) (get_prop session "lastActivity"))
         (CONFIG.SESSION.TIMEOUT - CONFIG.SESSION.WARNING_TIME) = true ->
  num_ge (num_sub (clock w) (get_prop session "lastActivity"))
         CONFIG.SESSION.TIMEOUT = false ->
  truthy (get_prop session "warningShown") = false ->
  exists w1 b w',
    AuthUtil.showSessionWarning w = (Ok tt, w1)
    /\ StorageUtil.set CONFIG.STORAGE_KEYS.ADMIN_SESSION
         (set_prop session "warningShown" (JBool true)) w1 = (Ok b, w')
    /\ AuthUtil.sessionCheck w = (Ok tt, w')
    /\ (b = true ->
        exists s',
          StorageUtil.get_ CONFIG.STORAGE_KEYS.ADMIN_SESSION w' = (Ok s', w')
          /\ get_prop s' "lastActivity" = get_prop session "lastActivity"
          /\ get_prop s' "warningShown" = JBool true).
Proof.
  intros Ha Hta Hs Hts Hwarn Hlive Hshown.
  destruct (showSessionWarning_ok w) as [w1 Hw1].
  destruct (set_ok CONFIG.STORAGE_KEYS.ADMIN_SESSION
              (set_prop session "warningShown" (JBool true)) w1) as [b Hset].
  exists w1, b, (snd (StorageUtil.set CONFIG.STORAGE_KEYS.ADMIN_SESSION
                        (set_prop session "warningShown" (JBool true)) w1)).
  split; [exact Hw1|]. split; [exact Hset|]. split.
  - unfold AuthUtil.sessionCheck.
    unfold bind at 1. rewrite Ha, Hta. cbn [negb].
    unfold bind at 1. rewrite Hs, Hts. cbn [negb].
    unfold bind at 1. unfold Date_now at 1, read at 1.
    rewrite Hwarn, Hshown, Hlive. cbn [negb andb].
    unfold bind. rewrite Hw1, Hset. reflexivity.
  - intros ->.
    assert (Hobj : exists fs, session = JObj fs).
    { destruct session; try discriminate. eauto. }
    destruct Hobj as [fs ->].
    assert (Hj : is_json (JObj fs) = true).
    { unfold StorageUtil.get_ in Hs. rewrite get_run in Hs. injection Hs as <-.
      now apply stored_json. }
    exists (set_prop (JObj fs) "warningShown" (JBool true)). split; [|split].
    + unfold StorageUtil.get_. rewrite get_run.
      rewrite (stored_text _ _ _ _ (set_true_lookup _ _ _ _ Hset));
        [reflexivity | now apply set_prop_json].
    + unfold set_prop, get_prop. now rewrite obj_get_obj_set.
    + unfold set_prop, get_prop. now rewrite obj_get_obj_set, String.eqb_refl.
Qed.

Lemma sessionCheck_warning_overwrites_witness :
  exists w1 b w',
    AuthUtil.showSessionWarning (world_confirming 1561000) = (Ok tt, w1)
    /\ StorageUtil.set CONFIG.STORAGE_KEYS.ADMIN_SESSION
         (set_prop (JObj [("startTime", JNum 1000); ("lastActivity", JNum 1000);
                          ("warningShown", JBool false)])
            "warningShown" (JBool true)) w1 = (Ok b, w')
    /\ AuthUtil.sessionCheck (world_confirming 1561000) = (Ok tt, w')
    /\ (b = true ->
        exists s',
          StorageUtil.get_ CONFIG.STORAGE_KEYS.ADMIN_SESSION w' = (Ok s', w')
          /\ get_prop s' "lastActivity" = JNum 1000
          /\ get_prop s' "warningShown" = JBool true).
Proof.
  exact (sessionCheck_warning_overwrites (world_confirming 1561000) (JBool true)
           (JObj [("startTime", JNum 1000); ("lastActivity", JNum 1000);
                  ("warningShown", JBool false)])
           ltac:(vm_compute; reflexivity) eq_refl ltac:(vm_compute; reflexivity)
           eq_refl eq_refl eq_refl eq_refl).
Defined.

Lemma obj_get_obj_remove_ne {A : Type} (k f : string) (fs : list (string * A)) :
  String.eqb k f = false -> obj_get f (obj_remove k fs) = obj_get f fs.
Proof.
  intros Hne. induction fs as [|[k' v'] fs IH]; cbn [obj_remove obj_get];
    [reflexivity|].
  destruct (String.eqb k' k) eqn:E.
  - apply String.eqb_eq in E. subst k'. now rewrite Hne.
  - cbn [obj_get]. now rewrite IH.
Qed.

Lemma decode_login_token (usr : JsVal) (rememberMe : bool) (w : World) :
  is_json (get_prop usr "id") = true ->
  is_json (get_prop usr "role") = true ->
  AuthUtil.decodeToken
    (JStr (make_token [("userId", get_prop usr "id"); ("role", get_prop usr "role")]
             (Some (if rememberMe then AuthUtil.thirty_days
                    else CONFIG.SESSION.TIMEOUT)) (clock w))) w
  = (Ok (JObj [("userId", get_prop usr "id"); ("role", get_prop usr "role");
               ("iat", JNum (clock w));
               ("exp", JNum (clock w + (if rememberMe then AuthUtil.thirty_days
                                        else CONFIG.SESSION.TIMEOUT)))]), w).
Proof.
  intros Hid Hrole. rewrite decodeToken_run, decode_make_token.
  - destruct rememberMe; reflexivity.
  - apply token_payload_json. cbn [is_json forallb snd]. now rewrite Hid, Hrole.
Qed.

Section LoginResults.
Variable toISOString : Z -> string.

(** The token of a successful [loginLocalStorage] decodes to the id and
    the role of the user that is returned (when the user record has them),
    issued at the time of the login and expiring thirty days later with
    [rememberMe], and after the session timeout without. *)
Theorem loginLocalStorage_token
        (u p : string) (rememberMe : bool) (w w' : World) (res : LoginResult)
        (d : JsVal) :
  AuthUtil.loginLocalStorage toISOString u p rememberMe w = (Ok res, w') ->
  success res = true ->
  user res = Some d ->
  is_json (get_prop d "id") = true ->
  is_json (get_prop d "role") = true ->
  exists tok payload,
    token res = Some tok
    /\ AuthUtil.decodeToken (JStr tok) w = (Ok payload, w)
    /\ get_prop payload "userId" = get_prop d "id"
    /\ get_prop payload "role" = get_prop d "role"
    /\ get_prop payload "iat" = JNum (clock w)
    /\ get_prop payload "exp"
       = JNum (clock w + (if rememberMe then AuthUtil.thirty_days
                          else CONFIG.SESSION.TIMEOUT)).
Proof.
  intros Hrun Hok Hd Hid Hrole.
  destruct (String.eqb u CONFIG.ADMIN.USERNAME
            && String.eqb p CONFIG.ADMIN.PASSWORD) eqn:Hpair.
  - apply eqb_pair in Hpair as [-> ->].
    destruct (loginLocalStorage_admin_user toISOString rememberMe w)
      as (r & w1 & E & _ & Hu & Ht).
    rewrite E in Hrun. injection Hrun as <- _.
    rewrite Hu in Hd. injection Hd as <-.
    eexists. eexists. split; [exact Ht|]. split.
    + apply (decode_login_token
               (JObj [("id", JStr "admin-001"); ("role", JStr "admin")]));
        reflexivity.
    + repeat split.
  - destruct (stored CONFIG.STORAGE_KEYS.USERS (JArr []) (items w)) as [| | | | | |l|]
      eqn:Hst;
      try (exfalso; revert Hrun; unfold AuthUtil.loginLocalStorage;
           rewrite Hpair; unfold bind at 1; rewrite get_run, Hst; discriminate).
    destruct (AuthUtil.find_user u p 0 l) as [[[i usr]|]|e] eqn:Hfind.
    + destruct (loginLocalStorage_found toISOString u p rememberMe w l i usr
                  Hpair Hst Hfind) as (r & w1 & E & _ & Hu & Ht).
      rewrite E in Hrun. injection Hrun as <- _.
      destruct (find_user_object _ _ _ _ _ _ Hfind) as [fs ->].
      rewrite Hu in Hd. injection Hd as <-.
      assert (Eid : get_prop (JObj (obj_remove "password" fs)) "id"
                    = get_prop (JObj fs) "id").
      { unfold get_prop. now rewrite obj_get_obj_remove_ne. }
      assert (Erole : get_prop (JObj (obj_remove "password" fs)) "role"
                      = get_prop (JObj fs) "role").
      { unfold get_prop. now rewrite obj_get_obj_remove_ne. }
      rewrite Eid in Hid |- *. rewrite Erole in Hrole |- *.
      eexists. eexists. split; [exact Ht|]. split.
      * now apply decode_login_token.
      * repeat split.
    + rewrite (loginLocalStorage_not_found toISOString u p rememberMe w l
                 Hpair Hst Hfind) in Hrun.
      injection Hrun as <- _. discriminate.
    + exfalso. revert Hrun. unfold AuthUtil.loginLocalStorage.
      rewrite Hpair. unfold bind at 1. rewrite get_run, Hst.
      unfold bind, lift_result. rewrite Hfind. discriminate.
Qed.

(** A [loginLocalStorage] that fails writes nothing: the storage, the
    interval and the listeners are as before, and the result carries
    neither a user nor a token. *)
Theorem loginLocalStorage_failure
        (u p : string) (rememberMe : bool) (w w' : World) (res : LoginResult) :
  AuthUtil.loginLocalStorage toISOString u p rememberMe w = (Ok res, w') ->
  success res = false ->
  w' = w /\ user res = None /\ token res = None.
Proof.
  intros Hrun Hfail.
  destruct (String.eqb u CONFIG.ADMIN.USERNAME
            && String.eqb p CONFIG.ADMIN.PASSWORD) eqn:Hpair.
  - apply eqb_pair in Hpair as [-> ->].
    destruct (loginLocalStorage_admin_user toISOString rememberMe w)
      as (r & w1 & E & Hs & _).
    rewrite E in Hrun. injection Hrun as <- _. congruence.
  - destruct (stored CONFIG.STORAGE_KEYS.USERS (JArr []) (items w)) as [| | | | | |l|]
      eqn:Hst;
      try (exfalso; revert Hrun; unfold AuthUtil.loginLocalStorage;
           rewrite Hpair; unfold bind at 1; rewrite get_run, Hst; discriminate).
    destruct (AuthUtil.find_user u p 0 l) as [[[i usr]|]|e] eqn:Hfind.
    + destruct (loginLocalStorage_found toISOString u p rememberMe w l i usr
                  Hpair Hst Hfind) as (r & w1 & E & Hs & _).
      rewrite E in Hrun. injection Hrun as <- _. congruence.
    + rewrite (loginLocalStorage_not_found toISOString u p rememberMe w l
                 Hpair Hst Hfind) in Hrun.
      injection Hrun as <- <-. repeat split.
    + exfalso. revert Hrun. unfold AuthUtil.loginLocalStorage.
      rewrite Hpair. unfold bind at 1. rewrite get_run, Hst.
      unfold bind, lift_result. rewrite Hfind. discriminate.
Qed.

End LoginResults.

Lemma loginLocalStorage_token_witness :
  exists tok payload,
    token demo_login_result = Some tok
    /\ AuthUtil.decodeToken (JStr tok) world_demo = (Ok payload, world_demo)
    /\ get_prop payload "userId" = get_prop demo_login_user "id"
    /\ get_prop payload "role" = get_prop demo_login_user "role"
    /\ get_prop payload "iat" = JNum (clock world_demo)
    /\ get_prop payload "exp" = JNum (clock world_demo + AuthUtil.thirty_days).
Proof.
  exact (loginLocalStorage_token (fun _ => EmptyString) "moti.elias" "staff123"
           true world_demo (snd demo_login) demo_login_result demo_login_user
           ltac:(vm_compute; reflexivity) ltac:(vm_compute; reflexivity)
           ltac:(vm_compute; reflexivity) ltac:(vm_compute; reflexivity)
           ltac:(vm_compute; reflexivity)).
Defined.

Lemma loginLocalStorage_failure_witness :
  world_demo = world_demo
  /\ user (mkLoginResult false None None "Invalid username or password") = None
  /\ token (mkLoginResult false None None "Invalid username or password") = None.
Proof.
  exact (loginLocalStorage_failure (fun _ => EmptyString) "demo.client" "demo123"
           false world_demo world_demo
           (mkLoginResult false None None "Invalid username or password")
           ltac:(vm_compute; reflexivity) eq_refl).
Defined.

Lemma loginLocalStorage_hides_password_witness :
  exists d, user demo_login_result = Some d /\ get_prop d "password" = JUndefined.
Proof.
  exact (loginLocalStorage_hides_password (fun _ => EmptyString) "moti.elias"
           "staff123" true world_demo (snd demo_login) demo_login_result
           ltac:(vm_compute; reflexivity) ltac:(vm_compute; reflexivity)).
Defined.

(** The periodic check changes nothing while the session is authenticated
    and either has no session record, or has not reached the timeout and
    has not reached the warning threshold or has shown the warning
    already.  A record without a numeric [lastActivity] never reaches
    either. *)
Theorem sessionCheck_idle (w : World) (a session : JsVal) :
  AuthUtil.isAuthenticated w = (Ok a, w) ->
  truthy a = true ->
  StorageUtil.get_ CONFIG.STORAGE_KEYS.ADMIN_SESSION w = (Ok session, w) ->
  truthy session = false
  \/ (num_ge (num_sub (clock w) (get_prop session "lastActivity"))
              CONFIG.SESSION.TIMEOUT = false
      /\ (num_ge (num_sub (clock w) (get_prop session "lastActivity"))
                  (CONFIG.SESSION.TIMEOUT - CONFIG.SESSION.WARNING_TIME) = false
          \/ truthy (get_prop session "warningShown") = true)) ->
  AuthUtil.sessionCheck w = (Ok tt, w).
Proof.
  intros Ha Hta Hs Hcase. unfold AuthUtil.sessionCheck.
  unfold bind at 1. rewrite Ha, Hta. cbn [negb].
  unfold bind at 1. rewrite Hs.
  destruct (truthy session) eqn:Hts; cbn [negb]; [|reflexivity].
  destruct Hcase as [Hf | [Hlive Hquiet]]; [discriminate|].
  unfold bind at 1. unfold Date_now at 1, read at 1.
  rewrite Hlive.
  assert (E : num_ge (num_sub (clock w) (get_prop session "lastActivity"))
                (CONFIG.SESSION.TIMEOUT - CONFIG.SESSION.WARNING_TIME)
              && negb (truthy (get_prop session "warningShown")) = false).
  { destruct Hquiet as [-> | ->]; [reflexivity | apply andb_false_r]. }
  rewrite E. reflexivity.
Qed.

Lemma sessionCheck_idle_witness :
  AuthUtil.sessionCheck (world_logged_in 61000) = (Ok tt, world_logged_in 61000).
Proof.
  exact (sessionCheck_idle (world_logged_in 61000) (JBool true)
           (JObj [("startTime", JNum 1000); ("lastActivity", JNum 1000);
                  ("warningShown", JBool false)])
           ltac:(vm_compute; reflexivity) eq_refl ltac:(vm_compute; reflexivity)
           ltac:(right; split; [reflexivity | left; reflexivity])).
Defined.

Lemma set_listeners (key : string) (value : JsVal) (w : World) :
  activityListeners (snd (StorageUtil.set key value w)) = activityListeners w.
Proof. rewrite set_run. cbv zeta. repeat destruct (fits _ _ _ _); reflexivity. Qed.

(** Every admin login adds four activity listeners to the document, and
    [logout] removes none. *)
Theorem listeners_accumulate (w : World) :
  activityListeners (snd (AuthUtil.authenticateAdmin "admin" "admin12345" w))
  = (activityListeners w + 4)%nat
  /\ activityListeners (snd (AuthUtil.logout w)) = activityListeners w.
Proof.
  split; [|now rewrite logout_run].
  unfold AuthUtil.authenticateAdmin.
  change (String.eqb "admin" AuthUtil.ADMIN_USERNAME
          && String.eqb "admin12345" AuthUtil.ADMIN_PASSWORD) with true.
  cbv iota. unfold bind at 1. rewrite generateToken_run.
  unfold bind at 1.
  match goal with
  | |- context [StorageUtil.set ?k ?v ?w0] =>
      pose proof (set_listeners k v w0) as L1;
      destruct (set_ok k v w0) as [b1 E1]; rewrite E1
  end.
  unfold bind at 1.
  match goal with
  | |- context [StorageUtil.set ?k ?v (snd ?x)] =>
      pose proof (set_listeners k v (snd x)) as L2;
      destruct (set_ok k v (snd x)) as [b2 E2]; rewrite E2
  end.
  unfold bind at 1. rewrite initSession_run. unfold ret. cbn [snd].
  cbn [activityListeners with_interval with_listeners].
  rewrite set_listeners. congruence.
Qed.

(** The check twenty-six minutes after an admin login, with a user who
    confirms the dialog: the record that is left has the activity time of
    the login. *)
Example sessionCheck_confirmed :
  fst (StorageUtil.get_ CONFIG.STORAGE_KEYS.ADMIN_SESSION
         (snd (AuthUtil.sessionCheck (world_confirming 1561000))))
  = Ok (JObj [("startTime", JNum 1000); ("lastActivity", JNum 1000);
              ("warningShown", JBool true)]).
Proof. vm_compute. reflexivity. Qed.

(* ===================================================================== *)
(** * [hashPassword] *)
(* ===================================================================== *)

Lemma ToInt32_mod (a : Z) : ToInt32 a mod 4294967296 = a mod 4294967296.
Proof.
  unfold ToInt32. cbv zeta.
  destruct (a mod 4294967296 <? 2147483648).
  - apply Z.mod_mod. lia.
  - rewrite Zminus_mod, Z.mod_same by lia. rewrite Z.sub_0_r.
    now rewrite !Z.mod_mod by lia.
Qed.

Lemma ToInt32_congr (a b : Z) :
  a mod 4294967296 = b mod 4294967296 -> ToInt32 a = ToInt32 b.
Proof. intros H. unfold ToInt32. now rewrite H. Qed.

Lemma ToInt32_range (a : Z) : -2147483648 <= ToInt32 a < 2147483648.
Proof.
  unfold ToInt32. cbv zeta.
  pose proof (Z.mod_pos_bound a 4294967296 ltac:(lia)).
  destruct (Z.ltb_spec (a mod 4294967296) 2147483648); lia.
Qed.

Lemma js_and_diag (a : Z) : js_and a a = ToInt32 a.
Proof. unfold js_and. apply Z.land_diag. Qed.

Lemma js_shl_5 (a : Z) : js_shl a 5 = ToInt32 (ToInt32 a * 32).
Proof.
  unfold js_shl. change (5 mod 32) with 5.
  now rewrite Z.shiftl_mul_pow2 by lia.
Qed.

Lemma ToInt32_idem (a : Z) : ToInt32 (ToInt32 a) = ToInt32 a.
Proof. apply ToInt32_congr, ToInt32_mod. Qed.

Lemma ToInt32_offset (a : Z) : exists q, ToInt32 a = a + q * 4294967296.
Proof.
  unfold ToInt32. cbv zeta.
  pose proof (Z.div_mod a 4294967296 ltac:(lia)) as E.
  destruct (a mod 4294967296 <? 2147483648).
  - exists (- (a / 4294967296)). lia.
  - exists (- (a / 4294967296) - 1). lia.
Qed.

(** One round of the loop multiplies by 31 and adds the character code,
    within 32 bits. *)
Lemma hash_step_31 (k : Z) (c : ascii) :
  AuthUtil.hash_step (ToInt32 k) c = ToInt32 (31 * k + Z.of_N (code c)).
Proof.
  unfold AuthUtil.hash_step. cbv zeta. rewrite js_and_diag, js_shl_5.
  rewrite ToInt32_idem. apply ToInt32_congr.
  destruct (ToInt32_offset (ToInt32 k * 32)) as [q2 ->].
  destruct (ToInt32_offset k) as [q1 ->].
  replace ((k + q1 * 4294967296) * 32 + q2 * 4294967296
           - (k + q1 * 4294967296) + Z.of_N (code c))
    with (31 * k + Z.of_N (code c) + (31 * q1 + q2) * 4294967296) by lia.
  apply Z_mod_plus_full.
Qed.

Lemma hash_loop_31 (s : string) (k : Z) :
  AuthUtil.hash_loop s (ToInt32 k)
  = ToInt32 (k * 31 ^ str_length s + char_sum31 s).
Proof.
  revert k. induction s as [|c r IH]; intros k.
  - cbn [AuthUtil.hash_loop char_sum31]. f_equal.
    change (str_length EmptyString) with 0. lia.
  - cbn [AuthUtil.hash_loop char_sum31]. rewrite hash_step_31, IH. f_equal.
    assert (E : str_length (String c r) = str_length r + 1).
    { unfold str_length. cbn [String.length]. lia. }
    rewrite E, Z.pow_add_r by (unfold str_length; lia).
    lia.
Qed.

Lemma char_sum31_prepend (p s : string) :
  char_sum31 (prepend p s) = char_sum31 p * 31 ^ str_length s + char_sum31 s.
Proof.
  induction p as [|c p IH]; cbn [prepend char_sum31]; [lia|].
  rewrite IH.
  assert (E : str_length (prepend p s) = str_length p + str_length s).
  { unfold str_length. clear. induction p; cbn [prepend String.length]; lia. }
  rewrite E, Z.pow_add_r by (unfold str_length; lia).
  lia.
Qed.

(** [hashPassword] is the sum [c1 * 31^(n-1) + ... + cn] of the character
    codes, reduced to a signed 32-bit integer; the result is the prefix
    [hash_] and the hexadecimal digits of its absolute value. *)
Theorem hashPassword_sum31 (password : string) :
  AuthUtil.hashPassword password
  = prepend "hash_" (number_to_hex (Z.abs (ToInt32 (char_sum31 password)))).
Proof.
  unfold AuthUtil.hashPassword. cbv zeta.
  change 0 with (ToInt32 0) at 1. now rewrite hash_loop_31.
Qed.

(** [hashPassword] is not injective: replacing [Aa] by [BB] anywhere in a
    password leaves the hash as it is. *)
Theorem hashPassword_collision (p s : string) :
  AuthUtil.hashPassword (prepend p (String "A" (String "a" s)))
  = AuthUtil.hashPassword (prepend p (String "B" (String "B" s))).
Proof.
  unfold AuthUtil.hashPassword. cbv zeta.
  change 0 with (ToInt32 0). rewrite !hash_loop_31, !Z.mul_0_l, !Z.add_0_l.
  rewrite !char_sum31_prepend.
  assert (L : str_length (String "A" (String "a" s))
              = str_length (String "B" (String "B" s))) by reflexivity.
  assert (C : char_sum31 (String "A" (String "a" s))
              = char_sum31 (String "B" (String "B" s))).
  { cbn [char_sum31].
    assert (E : forall c, str_length (String c s) = str_length s + 1).
    { intros c. unfold str_length. cbn [String.length]. lia. }
    rewrite !E, !Z.pow_add_r by (unfold str_length; lia).
    change (Z.of_N (code "A")) with 65. change (Z.of_N (code "a")) with 97.
    change (Z.of_N (code "B")) with 66. lia. }
  now rewrite L, C.
Qed.

(* ===================================================================== *)
(** * More on the validation utility *)
(* ===================================================================== *)

Lemma prepend_length (a b : string) :
  String.length (prepend a b) = (String.length a + String.length b)%nat.
Proof. induction a; cbn [prepend String.length]; lia. Qed.

Lemma prepend_forall (p : ascii -> bool) (a b : string) :
  str_forall p (prepend a b) = str_forall p a && str_forall p b.
Proof.
  induction a as [|c a IH]; cbn [prepend str_forall]; [reflexivity|].
  now rewrite IH, andb_assoc.
Qed.

(** The words of a literal, and of a class repeated [n] times. *)
Lemma Str_spec (p s : string) : re_matches (Str p) s <-> s = p.
Proof.
  revert s. induction p as [|c p IH]; intros s; cbn [Str].
  - split; [apply eps_inv | intros ->; constructor].
  - split.
    + intros H. apply cat_inv in H as (s1 & s2 & -> & H1 & H2).
      apply class_inv in H1 as (c' & -> & Hc). apply Ascii.eqb_eq in Hc.
      apply IH in H2. now subst.
    + intros ->. apply (m_cat _ _ (String c EmptyString) p).
      * constructor. apply Ascii.eqb_refl.
      * now apply IH.
Qed.

Lemma Exactly_spec (P : ascii -> bool) (n : nat) (s : string) :
  re_matches (Exactly n (Class P)) s
  <-> String.length s = n /\ str_forall P s = true.
Proof.
  revert s. induction n as [|n IH]; intros s; cbn [Exactly].
  - split.
    + intros H. apply eps_inv in H. now subst.
    + intros [H _]. destruct s; [constructor | discriminate].
  - split.
    + intros H. apply cat_inv in H as (s1 & s2 & -> & H1 & H2).
      apply class_inv in H1 as (c & -> & Hc). apply IH in H2 as [Hl Hf].
      cbn [prepend String.length str_forall]. now rewrite Hl, Hc, Hf.
    + intros [Hl Hf]. destruct s as [|c r]; [discriminate|].
      cbn [String.length str_forall] in Hl, Hf.
      apply andb_true_iff in Hf as [Hc Hf].
      apply (m_cat _ _ (String c EmptyString) r).
      * now constructor.
      * apply IH. split; [lia | exact Hf].
Qed.

(** [validatePhone] accepts a string exactly when, white space and hyphens
    taken out, it is [+251] or [0], then [7] or [9], then eight digits. *)
Theorem validatePhone_spec (s : string) :
  ValidationUtil.validatePhone (JStr s) = true
  <-> exists (prefix : string) (d : ascii) (rest : string),
        remove_chars (fun c => is_js_space c || Ascii.eqb c "-") s
        = prepend prefix (String d rest)
        /\ (prefix = "+251" \/ prefix = "0")
        /\ (d = "7" \/ d = "9")%char
        /\ String.length rest = 8%nat
        /\ str_forall is_digit rest = true.
Proof.
  unfold ValidationUtil.validatePhone.
  set (cleaned := remove_chars _ s).
  assert (Hre : re_test ValidationUtil.phoneRegex cleaned = true
                <-> exists prefix d rest,
                      cleaned = prepend prefix (String d rest)
                      /\ (prefix = "+251" \/ prefix = "0")
                      /\ (d = "7" \/ d = "9")%char
                      /\ String.length rest = 8%nat
                      /\ str_forall is_digit rest = true).
  { rewrite re_test_spec. unfold ValidationUtil.phoneRegex. split.
    - intros H. apply cat_inv in H as (s1 & s2 & -> & H1 & H2).
      apply cat_inv in H2 as (s3 & s4 & -> & H3 & H4).
      apply class_inv in H3 as (d & -> & Hd).
      apply Exactly_spec in H4 as [Hl Hf].
      exists s1, d, s4. split; [reflexivity|]. split; [|split; [|split]];
        [| | exact Hl | exact Hf].
      + apply alt_inv in H1 as [H1|H1].
        * left. now apply Str_spec.
        * right. apply class_inv in H1 as (c & -> & Hc).
          apply Ascii.eqb_eq in Hc. now subst.
      + cbn [one_of] in Hd. rewrite orb_false_r in Hd.
        apply orb_true_iff in Hd as [Hd|Hd]; apply Ascii.eqb_eq in Hd; auto.
    - intros (prefix & d & rest & -> & Hp & Hd & Hl & Hf).
      apply m_cat.
      + destruct Hp as [-> | ->].
        * apply m_alt_l. now apply Str_spec.
        * apply m_alt_r. constructor. apply Ascii.eqb_refl.
      + apply (m_cat _ _ (String d EmptyString) rest).
        * constructor. destruct Hd as [-> | ->]; reflexivity.
        * now apply Exactly_spec. }
  destruct (negb (truthy (JStr s))) eqn:Ht; [|exact Hre].
  split; [discriminate|].
  intros (prefix & d & rest & E & _).
  cbn [truthy] in Ht. apply negb_true_iff, negb_false_iff, String.eqb_eq in Ht.
  subst s. unfold cleaned in E. cbn [remove_chars] in E.
  destruct prefix; discriminate.
Qed.

(** A blank string counts as the number 0: it passes [numberRange] exactly
    when 0 lies in the range, and [nonNegativeNumber], although [required]
    and [positiveNumber] refuse it. *)
Theorem blank_is_zero (s : string) (min max : Z) :
  trim s = EmptyString ->
  ValidationUtil.numberRange (JStr s) min max = (min <=? 0) && (0 <=? max)
  /\ ValidationUtil.nonNegativeNumber (JStr s) = true
  /\ ValidationUtil.positiveNumber (JStr s) = false
  /\ ValidationUtil.required (JStr s) = false.
Proof.
  intros Hs.
  unfold ValidationUtil.numberRange, ValidationUtil.nonNegativeNumber,
    ValidationUtil.positiveNumber, ValidationUtil.required.
  cbn [ToNumber num_ltb num_leb]. unfold StringToNumber. rewrite Hs. repeat split.
Qed.

Lemma blank_is_zero_witness :
  ValidationUtil.numberRange (JStr "  ") (-5) 5 = (-5 <=? 0) && (0 <=? 5)
  /\ ValidationUtil.nonNegativeNumber (JStr "  ") = true
  /\ ValidationUtil.positiveNumber (JStr "  ") = false
  /\ ValidationUtil.required (JStr "  ") = false.
Proof. exact (blank_is_zero "  " (-5) 5 eq_refl). Defined.

(** A string of characters of one class has no character of a class
    that is disjoint from it. *)
Lemma test_class_disjoint (P Q : ascii -> bool) (s : string) :
  (forall c, P c = true -> Q c = false) ->
  str_forall P s = true ->
  ValidationUtil.test_class Q s = false.
Proof.
  intros Hd. induction s as [|c r IH]; cbn [str_forall ValidationUtil.test_class];
    [reflexivity|].
  intros [Hc Hr]%andb_true_iff. now rewrite (Hd c Hc), IH.
Qed.

(** The four classes of [validatePassword] are pairwise disjoint: a
    character is of one kind at most. *)
Lemma kinds_disjoint (c : ascii) :
  let U := is_upper c in
  let L := is_lower c in
  let D := is_digit c in
  let S := ValidationUtil.special_char c in
  (U && L) || (U && D) || (U && S) || (L && D) || (L && S) || (D && S) = false.
Proof.
  destruct c as [[] [] [] [] [] [] [] []]; vm_compute; reflexivity.
Qed.

Ltac one_kind c :=
  let K := fresh "K" in
  pose proof (kinds_disjoint c) as K; cbv zeta in K;
  destruct (is_upper c), (is_lower c), (is_digit c),
    (ValidationUtil.special_char c); try discriminate; reflexivity.

(** [validatePassword] accepts a string exactly when it has at least eight
    characters and characters of at least two of the four kinds: upper
    case, lower case, digit, special character.  Its strength is strong
    exactly when, moreover, three of the kinds occur. *)
Theorem validatePassword_spec (s : string) :
  let U := ValidationUtil.test_class is_upper s in
  let L := ValidationUtil.test_class is_lower s in
  let D := ValidationUtil.test_class is_digit s in
  let S := ValidationUtil.test_class ValidationUtil.special_char s in
  ValidationUtil.valid (ValidationUtil.validatePassword (JStr s))
  = (8 <=? str_length s)
    && ((U && L) || (U && D) || (U && S) || (L && D) || (L && S) || (D && S))
  /\ (ValidationUtil.strength (ValidationUtil.validatePassword (JStr s)) = "strong"
      <-> 8 <= str_length s
          /\ (U && L && D) || (U && L && S) || (U && D && S) || (L && D && S)
             = true).
Proof.
  cbv zeta. unfold ValidationUtil.validatePassword.
  destruct s as [|c r].
  - split; [reflexivity|]. split; [discriminate|].
    intros [H _]. change (str_length EmptyString) with 0 in H. lia.
  - cbn [truthy String.eqb negb].
    set (s := String c r).
    rewrite (Z.ltb_antisym 8 (str_length s)).
    destruct (Z.leb_spec 8 (str_length s)) as [Hlen|Hlen]; cbn [negb andb].
    + destruct (ValidationUtil.test_class is_upper s),
        (ValidationUtil.test_class is_lower s),
        (ValidationUtil.test_class is_digit s),
        (ValidationUtil.test_class ValidationUtil.special_char s);
        cbn; (split; [reflexivity|]);
        (split; [intros H; first [discriminate H
                                  | split; [exact Hlen | reflexivity]]
                | intros [_ H]; first [discriminate H | reflexivity]]).
    + split; [reflexivity|]. split; [discriminate | intros [H _]; lia].
Qed.

(** [validatePassword] refuses every string of fewer than eight
    characters, and every string whose characters are all of one kind,
    whatever its length. *)
Theorem validatePassword_rejects (s : string) :
  str_length s < 8
  \/ str_forall is_upper s = true \/ str_forall is_lower s = true
  \/ str_forall is_digit s = true
  \/ str_forall ValidationUtil.special_char s = true ->
  ValidationUtil.valid (ValidationUtil.validatePassword (JStr s)) = false.
Proof.
  intros H. unfold ValidationUtil.validatePassword.
  destruct (negb (truthy (JStr s))); [reflexivity|]. cbv zeta.
  destruct (Z.ltb_spec (str_length s) 8) as [Hlen|Hlen]; [reflexivity|].
  destruct H as [H|[H|[H|[H|H]]]]; [lia| | | |].
  - rewrite (test_class_disjoint is_upper is_lower s), 
      (test_class_disjoint is_upper is_digit s),
      (test_class_disjoint is_upper ValidationUtil.special_char s);
      try exact H; try (intros c; one_kind c).
    destruct (ValidationUtil.test_class is_upper s); reflexivity.
  - rewrite (test_class_disjoint is_lower is_upper s), 
      (test_class_disjoint is_lower is_digit s),
      (test_class_disjoint is_lower ValidationUtil.special_char s);
      try exact H; try (intros c; one_kind c).
    destruct (ValidationUtil.test_class is_lower s); reflexivity.
  - rewrite (test_class_disjoint is_digit is_upper s), 
      (test_class_disjoint is_digit is_lower s),
      (test_class_disjoint is_digit ValidationUtil.special_char s);
      try exact H; try (intros c; one_kind c).
    destruct (ValidationUtil.test_class is_digit s); reflexivity.
  - rewrite (test_class_disjoint ValidationUtil.special_char is_upper s), 
      (test_class_disjoint ValidationUtil.special_char is_lower s),
      (test_class_disjoint ValidationUtil.special_char is_digit s);
      try exact H; try (intros c; one_kind c).
    destruct (ValidationUtil.test_class ValidationUtil.special_char s); reflexivity.
Qed.

Lemma validatePassword_rejects_witness :
  ValidationUtil.valid
    (ValidationUtil.validatePassword (JStr "correcthorsebatterystaple")) = false.
Proof.
  exact (validatePassword_rejects "correcthorsebatterystaple"
           ltac:(right; right; left; reflexivity)).
Defined.

(** Every character of a word of a pattern is in its alphabet. *)
Lemma re_matches_within (r : regex) (s : string) :
  re_matches r s ->
  forall Q : ascii -> bool,
    (forall c, alphabet r c = true -> Q c = true) -> str_forall Q s = true.
Proof.
  induction 1 as [|p c Hc|r1 r2 s1 s2 _ IH1 _ IH2|r1 r2 s _ IH|r1 r2 s _ IH
                 |r|r s1 s2 _ IH1 _ IH2]; intros Q HQ.
  - reflexivity.
  - cbn [str_forall]. now rewrite (HQ c Hc).
  - rewrite prepend_forall. apply andb_true_iff. split.
    + apply IH1. intros c Hc. apply HQ. cbn [alphabet]. now rewrite Hc.
    + apply IH2. intros c Hc. apply HQ. cbn [alphabet]. now rewrite Hc, orb_true_r.
  - apply IH. intros c Hc. apply HQ. cbn [alphabet]. now rewrite Hc.
  - apply IH. intros c Hc. apply HQ. cbn [alphabet]. now rewrite Hc, orb_true_r.
  - reflexivity.
  - rewrite prepend_forall. apply andb_true_iff. split.
    + apply IH1. intros c Hc. now apply HQ.
    + now apply IH2.
Qed.

Lemma re_matches_alphabet (r : regex) (s : string) :
  re_matches r s -> str_forall (alphabet r) s = true.
Proof. intros H. now apply (re_matches_within r s H). Qed.

Lemma str_forall_impl (P Q : ascii -> bool) (s : string) :
  (forall c, P c = true -> Q c = true) ->
  str_forall P s = true -> str_forall Q s = true.
Proof.
  intros Hpq. induction s as [|c r IH]; cbn [str_forall]; [reflexivity|].
  intros [Hc Hr]%andb_true_iff. now rewrite (Hpq c Hc), IH.
Qed.

Lemma alphabet_UpTo (n : nat) (r : regex) (c : ascii) :
  alphabet (UpTo n r) c = true -> alphabet r c = true.
Proof.
  induction n as [|n IH]; cbn [UpTo Opt alphabet orb]; [discriminate|].
  intros [H|H]%orb_true_iff; [exact H | now apply IH].
Qed.

Lemma alphabet_label (c : ascii) :
  alphabet ValidationUtil.label c = true -> domain_char c = true.
Proof.
  unfold ValidationUtil.label, domain_char. cbn [alphabet Opt orb].
  intros [H|[H|H]%orb_true_iff]%orb_true_iff.
  - now rewrite H.
  - apply alphabet_UpTo in H. cbn [alphabet] in H.
    unfold ValidationUtil.label_char in H.
    apply orb_true_iff in H as [-> | ->]; [reflexivity|].
    now rewrite orb_true_r.
  - now rewrite H.
Qed.

Lemma local_part_no_at (c : ascii) :
  ValidationUtil.local_part_char c = true -> negb (Ascii.eqb c "@") = true.
Proof. destruct c as [[] [] [] [] [] [] [] []]; vm_compute; auto. Qed.

Lemma domain_no_at (c : ascii) :
  domain_char c = true -> negb (Ascii.eqb c "@") = true.
Proof. destruct c as [[] [] [] [] [] [] [] []]; vm_compute; auto. Qed.

(** What [validateEmail] accepts has, once trimmed, exactly one [@]: before
    it a non-empty local part of the characters that the pattern lists,
    after it a domain of letters, digits, hyphens and dots that starts
    with a letter or a digit. *)
Theorem validateEmail_shape (s : string) :
  ValidationUtil.validateEmail (JStr s) = true ->
  exists (a : ascii) (local : string) (c : ascii) (domain : string),
    trim s = String a (prepend local (String "@" (String c domain)))
    /\ str_forall ValidationUtil.local_part_char (String a local) = true
    /\ is_alnum c = true
    /\ str_forall domain_char domain = true
    /\ lacks "@" (String a local) = true
    /\ lacks "@" (String c domain) = true.
Proof.
  intros H. apply validateEmail_iff in H.
  unfold ValidationUtil.emailRegex in H.
  apply cat_inv in H as (s1 & s2 & E & H1 & H2).
  apply cat_inv in H2 as (s3 & s4 & -> & H3 & H4).
  apply class_inv in H3 as (at_ & -> & Hat). apply Ascii.eqb_eq in Hat. subst at_.
  pose proof (re_matches_alphabet _ _ H1) as A1.
  pose proof (re_matches_alphabet _ _ H4) as A4.
  unfold Plus in H1. apply cat_inv in H1 as (x & y & -> & Hx & _).
  apply class_inv in Hx as (a & -> & _).
  apply cat_inv in H4 as (l1 & rest & -> & Hl & _).
  unfold ValidationUtil.label in Hl.
  apply cat_inv in Hl as (x & z & -> & Hx & _).
  apply class_inv in Hx as (c & -> & Hc).
  cbn [prepend] in E, A1, A4.
  assert (L : str_forall ValidationUtil.local_part_char (String a y) = true).
  { revert A1. apply str_forall_impl. intros b. cbn [Plus alphabet].
    now rewrite orb_diag. }
  assert (D : str_forall domain_char (String c (prepend z rest)) = true).
  { revert A4. apply str_forall_impl. intros b. cbn [alphabet Lit].
    intros [Hb|[Hb|Hb]%orb_true_iff]%orb_true_iff.
    - now apply alphabet_label.
    - apply Ascii.eqb_eq in Hb. subst b. reflexivity.
    - now apply alphabet_label. }
  exists a, y, c, (prepend z rest). split; [exact E|]. split; [exact L|].
  split; [exact Hc|]. split.
  - cbn [str_forall] in D. now apply andb_true_iff in D as [_ D].
  - split.
    + revert L. apply str_forall_impl, local_part_no_at.
    + revert D. apply str_forall_impl, domain_no_at.
Qed.

Lemma validateEmail_shape_witness :
  exists (a : ascii) (local : string) (c : ascii) (domain : string),
    trim "user@example.com" = String a (prepend local (String "@" (String c domain)))
    /\ str_forall ValidationUtil.local_part_char (String a local) = true
    /\ is_alnum c = true
    /\ str_forall domain_char domain = true
    /\ lacks "@" (String a local) = true
    /\ lacks "@" (String c domain) = true.
Proof. exact (validateEmail_shape "user@example.com" eq_refl). Defined.

(* ===================================================================== *)
(** * The claims *)
(* ===================================================================== *)

Local Open Scope js_scope.

(** C4, as stated, fails when the write does not fit: in a storage that
    holds [k -> 0] and is full, [set("k", 12)] returns false and [get("k")]
    still returns 0. *)
Lemma set_get_full_storage :
  is_json (JNum 12) = true
  /\ StorageUtil.set "k" (JNum 12) world_full = (Ok false, world_full)
  /\ StorageUtil.get_ "k" world_full = (Ok (JNum 0), world_full).
Proof. vm_compute. auto. Qed.

(** C4 (amended): for every key and every JSON-serializable value, when
    [StorageUtil.set(key, value)] returns true, [StorageUtil.get(key)]
    returns a value equal to [value] (whatever default is passed), and
    leaves the storage as it is. *)
Theorem set_get_round_trip (key : string) (value d : JsVal) (w w' : World) :
  is_json value = true ->
  StorageUtil.set key value w = (Ok true, w') ->
  StorageUtil.get key d w' = (Ok value, w').
Proof.
  intros Hj Hset. apply set_true_lookup in Hset.
  destruct (parse_stringify value Hj) as (text & Hs & Hp).
  rewrite get_run. unfold stored. rewrite Hset, Hs. cbn [String_of]. now rewrite Hp.
Qed.

Lemma set_get_round_trip_witness :
  StorageUtil.get "k" JNull
    (snd (StorageUtil.set "k" (JObj [("a", JArr [JNum 1; JStr "x"])]) world_roomy))
  = (Ok (JObj [("a", JArr [JNum 1; JStr "x"])]),
     snd (StorageUtil.set "k" (JObj [("a", JArr [JNum 1; JStr "x"])]) world_roomy)).
Proof.
  apply (set_get_round_trip "k" (JObj [("a", JArr [JNum 1; JStr "x"])]) JNull
           world_roomy).
  - reflexivity.
  - vm_compute. reflexivity.
Defined.

(** A write that fits is reported as a success. *)
Lemma set_fits (key : string) (value : JsVal) (w : World) :
  fits key (String_of (JSON.stringify value)) (items w) (quota w) = true ->
  StorageUtil.set key value w
  = (Ok true, with_items (<[key := String_of (JSON.stringify value)]> (items w)) w).
Proof. intros H. rewrite set_run. cbv zeta. now rewrite H. Qed.

(** C7, as stated, fails for a stored value that is not JSON text.  The
    site stores the plain text [enabled] under the key [darkMode]; it is
    not an array, but [get('darkMode', [])] falls back to the empty array
    for it, and [append] returns true and replaces the entry by [[1]]. *)
Lemma append_raw_text :
  items world_raw !! "darkMode" = Some "enabled"
  /\ JSON.parse "enabled" = None
  /\ fst (StorageUtil.append "darkMode" (JNum 1) world_raw) = Ok true
  /\ items (snd (StorageUtil.append "darkMode" (JNum 1) world_raw)) !! "darkMode"
     = Some "[1]".
Proof. vm_compute. auto. Qed.

(** C7 (amended): when the text stored under [key] is JSON text of a value
    that is not an array (an object, a number, a string, a boolean or
    null), [StorageUtil.append(key, value)] returns false and changes
    nothing, whatever [value] is. *)
Theorem append_non_array (key : string) (value : JsVal) (w : World)
        (text : string) (x : JsVal) :
  items w !! key = Some text ->
  JSON.parse text = Some x ->
  isArray x = false ->
  StorageUtil.append key value w = (Ok false, w).
Proof.
  intros Hk Hp Hx. unfold StorageUtil.append, bind.
  rewrite get_run. unfold stored. rewrite Hk, Hp.
  destruct x; try discriminate; reflexivity.
Qed.

Lemma append_non_array_witness :
  StorageUtil.append "d" (JNum 7) world_kinds = (Ok false, world_kinds).
Proof.
  apply (append_non_array "d" (JNum 7) world_kinds "1.5" (JDec 15 1)).
  - vm_compute. reflexivity.
  - vm_compute. reflexivity.
  - reflexivity.
Defined.

(** The kinds of value that the specification names: an object, a number,
    a string and null; and a boolean, numbers with a fraction and with an
    exponent, and a string with an escape above [\u00ff] besides. *)
Example append_kinds :
  StorageUtil.append "o" (JNum 1) world_kinds = (Ok false, world_kinds)
  /\ StorageUtil.append "n" (JNum 1) world_kinds = (Ok false, world_kinds)
  /\ StorageUtil.append "s" (JNum 1) world_kinds = (Ok false, world_kinds)
  /\ StorageUtil.append "z" (JNum 1) world_kinds = (Ok false, world_kinds)
  /\ StorageUtil.append "b" (JNum 1) world_kinds = (Ok false, world_kinds)
  /\ StorageUtil.append "d" (JNum 1) world_kinds = (Ok false, world_kinds)
  /\ StorageUtil.append "e" (JNum 1) world_kinds = (Ok false, world_kinds)
  /\ StorageUtil.append "u" (JNum 1) world_kinds = (Ok false, world_kinds).
Proof. vm_compute. auto 10. Qed.

(** C10: [StorageUtil.get] always returns and never throws; it leaves the
    world as it is; it returns the parsed value when the stored text parses
    as JSON, and the default value when the key is absent or the text does
    not parse.  The default value is the second argument; it is null when
    there is none, that is, in a call without a second argument or with
    [undefined], which is what a missing argument is. *)
Theorem get_total (key : string) (d : JsVal) (w : World) :
  (exists v, StorageUtil.get key d w = (Ok v, w))
  /\ (forall text x, items w !! key = Some text -> JSON.parse text = Some x ->
        StorageUtil.get key d w = (Ok x, w))
  /\ (d <> JUndefined -> items w !! key = None ->
        StorageUtil.get key d w = (Ok d, w))
  /\ (d <> JUndefined -> forall text,
        items w !! key = Some text -> JSON.parse text = None ->
        StorageUtil.get key d w = (Ok d, w))
  /\ StorageUtil.get key JUndefined w = StorageUtil.get key JNull w
  /\ StorageUtil.get_ key w = StorageUtil.get key JNull w.
Proof.
  rewrite get_run. unfold stored. repeat split.
  - eauto.
  - intros text x -> ->. reflexivity.
  - intros Hd ->. destruct d; try reflexivity. now elim Hd.
  - intros Hd text -> ->. destruct d; try reflexivity. now elim Hd.
Qed.

(** With [undefined] as the second argument, the default value is null, as
    without a second argument. *)
Example get_undefined_default :
  StorageUtil.get "missing" JUndefined world_roomy = (Ok JNull, world_roomy)
  /\ StorageUtil.get "darkMode" JUndefined world_raw = (Ok JNull, world_raw)
  /\ StorageUtil.get "darkMode" (JArr []) world_raw = (Ok (JArr []), world_raw)
  /\ StorageUtil.get "d" JUndefined world_kinds = (Ok (JDec 15 1), world_kinds).
Proof. vm_compute. auto. Qed.

(** C1, as stated, fails when the storage takes no write:
    [authenticateAdmin] still reports success, but nothing is stored, and
    [isAuthenticated()] and [getCurrentUser()] return null. *)
Lemma authenticateAdmin_no_room :
  match AuthUtil.authenticateAdmin "admin" "admin12345" world_no_room with
  | (Ok res, w') =>
      success res = true
      /\ AuthUtil.isAuthenticated w' = (Ok JNull, w')
      /\ AuthUtil.getCurrentUser w' = (Ok JNull, w')
  | (Throw _, _) => False
  end.
Proof. vm_compute. auto. Qed.

(** C1 (amended): when the two writes of [authenticateAdmin('admin',
    'admin12345')], of the token and of the user record, succeed, then
    immediately afterward [isAuthenticated()] returns true and
    [getCurrentUser()] returns a user whose [role] is ['admin']. *)
Theorem authenticateAdmin_authenticated (w w1 w2 : World) :
  StorageUtil.set CONFIG.STORAGE_KEYS.AUTH_TOKEN
    (JStr (make_token admin_payload None (clock w))) w = (Ok true, w1) ->
  StorageUtil.set CONFIG.STORAGE_KEYS.USER_DATA AuthUtil.admin_user w1
    = (Ok true, w2) ->
  exists res w',
    AuthUtil.authenticateAdmin "admin" "admin12345" w = (Ok res, w')
    /\ success res = true
    /\ AuthUtil.isAuthenticated w' = (Ok (JBool true), w')
    /\ exists u,
         AuthUtil.getCurrentUser w' = (Ok u, w')
         /\ get_prop u "role" = JStr "admin".
Proof.
  intros H1 H2.
  set (tok := make_token admin_payload None (clock w)) in *.
  set (sess := JObj [("startTime", JNum (clock w2));
                     ("lastActivity", JNum (clock w2));
                     ("warningShown", JBool false)]).
  set (w3 := snd (StorageUtil.set CONFIG.STORAGE_KEYS.ADMIN_SESSION sess w2)).
  (* the entries after the three writes *)
  pose proof (set_snd_clock _ _ _ _ _ H1) as C1.
  pose proof (set_snd_clock _ _ _ _ _ H2) as C2.
  assert (A1 : items w1 !! CONFIG.STORAGE_KEYS.AUTH_TOKEN
               = Some (String_of (JSON.stringify (JStr tok))))
    by exact (set_true_lookup _ _ _ _ H1).
  assert (A2 : items w2 !! CONFIG.STORAGE_KEYS.AUTH_TOKEN
               = Some (String_of (JSON.stringify (JStr tok)))).
  { replace w2 with (snd (StorageUtil.set CONFIG.STORAGE_KEYS.USER_DATA
                            AuthUtil.admin_user w1)) by now rewrite H2.
    apply set_keeps; [discriminate | exact A1 |].
    now apply is_old_text. }
  assert (U2 : items w2 !! CONFIG.STORAGE_KEYS.USER_DATA
               = Some (String_of (JSON.stringify AuthUtil.admin_user)))
    by exact (set_true_lookup _ _ _ _ H2).
  assert (A3 : items w3 !! CONFIG.STORAGE_KEYS.AUTH_TOKEN
               = Some (String_of (JSON.stringify (JStr tok)))).
  { apply set_keeps; [discriminate | exact A2 |]. now apply is_old_text. }
  assert (U3 : items w3 !! CONFIG.STORAGE_KEYS.USER_DATA
               = Some (String_of (JSON.stringify AuthUtil.admin_user))).
  { apply set_keeps; [discriminate | exact U2 |]. now apply is_old_text. }
  (* the run of the login *)
  eexists. eexists. split.
  { unfold AuthUtil.authenticateAdmin.
    change (String.eqb "admin" AuthUtil.ADMIN_USERNAME
            && String.eqb "admin12345" AuthUtil.ADMIN_PASSWORD) with true.
    cbv iota.
    unfold bind at 1. rewrite generateToken_run.
    change [("userId", get_prop AuthUtil.admin_user "id");
            ("role", get_prop AuthUtil.admin_user "role")] with admin_payload.
    fold tok. unfold bind at 1. rewrite H1.
    unfold bind at 1. rewrite H2.
    unfold bind at 1. rewrite initSession_run. unfold ret. reflexivity. }
  fold sess. fold w3.
  assert (C3 : clock w3 = clock w).
  { unfold w3.
    destruct (set_ok CONFIG.STORAGE_KEYS.ADMIN_SESSION sess w2) as (b & E).
    rewrite (set_snd_clock _ _ _ _ _ E). congruence. }
  assert (V : token_valid (clock w) (JStr tok) = true).
  { apply token_valid_make_token; [reflexivity|].
    cbv [AuthUtil.expiry_or_timeout CONFIG.SESSION.TIMEOUT]. lia. }
  assert (S1 : stored CONFIG.STORAGE_KEYS.AUTH_TOKEN JNull (items w3) = JStr tok)
    by now apply stored_text.
  assert (S2 : stored CONFIG.STORAGE_KEYS.USER_DATA JNull (items w3)
               = AuthUtil.admin_user) by now apply stored_text.
  split; [reflexivity|]. split.
  - rewrite isAuthenticated_run.
    cbn [items with_clock with_interval with_listeners clock].
    unfold auth_value. rewrite S1. cbv zeta.
    unfold tok at 1. rewrite truthy_make_token.
    cbn [clock with_interval with_listeners]. now rewrite C3, V.
  - exists AuthUtil.admin_user. split; [|reflexivity].
    rewrite getCurrentUser_run.
    cbn [items with_clock with_interval with_listeners clock].
    unfold current_user. rewrite S1, S2. cbv zeta.
    unfold tok at 1. rewrite truthy_make_token.
    cbn [clock with_interval with_listeners]. now rewrite C3, V.
Qed.

Lemma authenticateAdmin_authenticated_witness :
  exists res w',
    AuthUtil.authenticateAdmin "admin" "admin12345" world_roomy = (Ok res, w')
    /\ success res = true
    /\ AuthUtil.isAuthenticated w' = (Ok (JBool true), w')
    /\ exists u,
         AuthUtil.getCurrentUser w' = (Ok u, w')
         /\ get_prop u "role" = JStr "admin".
Proof.
  apply (authenticateAdmin_authenticated world_roomy world_roomy1 world_roomy2).
  - vm_compute. reflexivity.
  - vm_compute. reflexivity.
Defined.

(** C2, as stated, fails for a token without expiry: with the payload
    [{userId: 'u1'}] in the stored token, [isAuthenticated()] returns true,
    and the decoded payload has no [exp]. *)
Lemma isAuthenticated_without_expiry :
  AuthUtil.isAuthenticated (world_with_token [("userId", JStr "u1")] 1000)
  = (Ok (JBool true), world_with_token [("userId", JStr "u1")] 1000)
  /\ AuthUtil.decodeToken (JStr (token_with [("userId", JStr "u1")]))
       (world_with_token [("userId", JStr "u1")] 1000)
     = (Ok (JObj [("userId", JStr "u1")]),
        world_with_token [("userId", JStr "u1")] 1000)
  /\ get_prop (JObj [("userId", JStr "u1")]) "exp" = JUndefined.
Proof. vm_compute. auto. Qed.

(** C2 (amended): when [isAuthenticated()] returns true, the stored token
    is a string that decodes to a truthy payload, and the expiry of that
    payload, when there is one that is truthy, is not less than the current
    time: a number [exp] other than 0 satisfies [now <= exp].  A payload
    without [exp], or with [exp] 0, is accepted. *)
Theorem isAuthenticated_true_inv (w w' : World) :
  AuthUtil.isAuthenticated w = (Ok (JBool true), w') ->
  exists t payload,
    StorageUtil.get_ CONFIG.STORAGE_KEYS.AUTH_TOKEN w = (Ok (JStr t), w)
    /\ AuthUtil.decodeToken (JStr t) w = (Ok payload, w)
    /\ truthy payload = true
    /\ (truthy (get_prop payload "exp") = true ->
        js_lt_num (get_prop payload "exp") (clock w) = false)
    /\ (forall e, get_prop payload "exp" = JNum e -> e <> 0 -> clock w <= e).
Proof.
  rewrite isAuthenticated_run. unfold auth_value. cbv zeta.
  unfold StorageUtil.get_. rewrite get_run.
  set (token := stored CONFIG.STORAGE_KEYS.AUTH_TOKEN JNull (items w)).
  destruct (truthy token) eqn:Ht.
  - intros [= Hv _]. unfold token_valid in Hv. cbv zeta in Hv.
    destruct (truthy (decode_payload token)) eqn:Hp; [|discriminate].
    cbn [negb] in Hv.
    destruct token as [| |b|n|m e|t|l|fs]; try discriminate.
    exists t, (decode_payload (JStr t)). rewrite decodeToken_run.
    repeat split; try assumption.
    + intros He. rewrite He in Hv. now apply negb_true_iff in Hv.
    + intros e He Hne. rewrite He in Hv. cbn [truthy js_lt_num ToNumber num_ltb num_leb] in Hv.
      destruct (e =? 0) eqn:E0; [lia|]. cbn [negb] in Hv.
      apply negb_true_iff, Z.ltb_ge in Hv. exact Hv.
  - intros [= Hv _]. rewrite Hv in Ht. discriminate.
Qed.

Lemma isAuthenticated_true_inv_witness :
  exists t payload,
    StorageUtil.get_ CONFIG.STORAGE_KEYS.AUTH_TOKEN
      (world_with_token [("exp", JNum 2000)] 1000)
    = (Ok (JStr t), world_with_token [("exp", JNum 2000)] 1000)
    /\ AuthUtil.decodeToken (JStr t) (world_with_token [("exp", JNum 2000)] 1000)
       = (Ok payload, world_with_token [("exp", JNum 2000)] 1000)
    /\ truthy payload = true
    /\ (truthy (get_prop payload "exp") = true ->
        js_lt_num (get_prop payload "exp")
          (clock (world_with_token [("exp", JNum 2000)] 1000)) = false)
    /\ (forall e, get_prop payload "exp" = JNum e -> e <> 0 ->
        clock (world_with_token [("exp", JNum 2000)] 1000) <= e).
Proof.
  apply (isAuthenticated_true_inv (world_with_token [("exp", JNum 2000)] 1000)
           (world_with_token [("exp", JNum 2000)] 1000)).
  vm_compute. reflexivity.
Defined.

(** C3, as stated, fails for the expiry 0: it is earlier than the current
    time 1000, and [verifyToken] returns true. *)
Lemma verifyToken_expiry_zero :
  AuthUtil.decodeToken (JStr (token_with [("exp", JNum 0)])) (world_of ∅ 5000 1000)
  = (Ok (JObj [("exp", JNum 0)]), world_of ∅ 5000 1000)
  /\ 0 < clock (world_of ∅ 5000 1000)
  /\ AuthUtil.verifyToken (JStr (token_with [("exp", JNum 0)])) (world_of ∅ 5000 1000)
     = (Ok true, world_of ∅ 5000 1000).
Proof. vm_compute. auto. Qed.

(** C3 (amended): for every token whose decoded payload has a number [exp]
    other than 0 that is earlier than the current time, [verifyToken]
    returns false, whatever else the token holds. *)
Theorem verifyToken_expired (token : JsVal) (w : World) (payload : JsVal) (e : Z) :
  AuthUtil.decodeToken token w = (Ok payload, w) ->
  get_prop payload "exp" = JNum e ->
  e <> 0 ->
  e < clock w ->
  AuthUtil.verifyToken token w = (Ok false, w).
Proof.
  rewrite decodeToken_run. intros [= <-] He Hne Hlt.
  rewrite verifyToken_run. unfold token_valid. cbv zeta.
  destruct (truthy (decode_payload token)); [|reflexivity].
  rewrite He. cbn [negb truthy js_lt_num ToNumber num_ltb num_leb].
  destruct (e =? 0) eqn:E0; [lia|]. cbn [negb].
  apply Z.ltb_lt in Hlt. now rewrite Hlt.
Qed.

Lemma verifyToken_expired_witness :
  AuthUtil.verifyToken
    (JStr (token_with [("userId", JNum 7); ("exp", JNum 999)]))
    (world_of ∅ 5000 1000)
  = (Ok false, world_of ∅ 5000 1000).
Proof.
  apply (verifyToken_expired _ _ (JObj [("userId", JNum 7); ("exp", JNum 999)]) 999).
  - vm_compute. reflexivity.
  - reflexivity.
  - discriminate.
  - reflexivity.
Defined.

(** C6: in a session that is authenticated when the periodic check runs,
    with a session record whose [lastActivity] lies at least the timeout in
    the past, the check removes the token, the user data, the session
    record and the remember-me flag and stops the interval.  After it,
    [isAuthenticated()] returns null, the absent token, and not the
    boolean false. *)
Theorem sessionCheck_timeout (w : World) (a session : JsVal) :
  AuthUtil.isAuthenticated w = (Ok a, w) ->
  truthy a = true ->
  StorageUtil.get_ CONFIG.STORAGE_KEYS.ADMIN_SESSION w = (Ok session, w) ->
  truthy session = true ->
  num_ge (num_sub (clock w) (get_prop session "lastActivity"))
         CONFIG.SESSION.TIMEOUT = true ->
  exists w',
    AuthUtil.sessionCheck w = (Ok tt, w')
    /\ items w' !! CONFIG.STORAGE_KEYS.AUTH_TOKEN = None
    /\ items w' !! CONFIG.STORAGE_KEYS.USER_DATA = None
    /\ items w' !! CONFIG.STORAGE_KEYS.ADMIN_SESSION = None
    /\ items w' !! CONFIG.STORAGE_KEYS.REMEMBER_ME = None
    /\ sessionCheckInterval w' = false
    /\ forall t, AuthUtil.isAuthenticated (with_clock t w')
                 = (Ok JNull, with_clock t w').
Proof.
  intros Ha Hta Hs Hts Hge.
  unfold AuthUtil.sessionCheck.
  unfold bind at 1. rewrite Ha, Hta. cbn [negb].
  unfold bind at 1. rewrite Hs, Hts. cbn [negb].
  unfold bind at 1. unfold Date_now at 1, read at 1.
  unfold bind at 1.
  assert (W : exists w1,
    (if num_ge (num_sub (clock w) (get_prop session "lastActivity"))
               (CONFIG.SESSION.TIMEOUT - CONFIG.SESSION.WARNING_TIME)
        && negb (truthy (get_prop session "warningShown"))
     then
       (AuthUtil.showSessionWarning ;;
        StorageUtil.set CONFIG.STORAGE_KEYS.ADMIN_SESSION
          (set_prop session "warningShown" (JBool true)) ;; ret tt)%js
     else ret tt) w = (Ok tt, w1)).
  { destruct (_ && _); [apply warning_ok | now eexists]. }
  destruct W as [w1 ->]. rewrite Hge.
  destruct (expire_run w1) as (w' & -> & Hi & Hint).
  exists w'. split; [reflexivity|].
  destruct (logged_out_lookup (items w1)) as (L1 & L2 & L3 & L4).
  rewrite Hi. repeat split; try assumption.
  intros t. rewrite isAuthenticated_run. cbn [items with_clock].
  unfold auth_value, stored. now rewrite Hi, L1.
Qed.

(** The check thirty-one minutes after a login that asked to be
    remembered (the token lasts thirty days). *)
Lemma sessionCheck_timeout_witness :
  exists w',
    AuthUtil.sessionCheck (world_remembered 1861000) = (Ok tt, w')
    /\ items w' !! CONFIG.STORAGE_KEYS.AUTH_TOKEN = None
    /\ items w' !! CONFIG.STORAGE_KEYS.USER_DATA = None
    /\ items w' !! CONFIG.STORAGE_KEYS.ADMIN_SESSION = None
    /\ items w' !! CONFIG.STORAGE_KEYS.REMEMBER_ME = None
    /\ sessionCheckInterval w' = false
    /\ forall t, AuthUtil.isAuthenticated (with_clock t w')
                 = (Ok JNull, with_clock t w').
Proof.
  apply (sessionCheck_timeout (world_remembered 1861000) (JBool true)
           (JObj [("startTime", JNum 1000); ("lastActivity", JNum 1000);
                  ("warningShown", JBool false)])).
  - vm_compute. reflexivity.
  - reflexivity.
  - vm_compute. reflexivity.
  - reflexivity.
  - vm_compute. reflexivity.
Defined.

(** When [isAuthenticated()] is falsy at the check, the check only stops
    the interval: the storage stays as it is. *)
Lemma sessionCheck_not_authenticated (w : World) (a : JsVal) :
  AuthUtil.isAuthenticated w = (Ok a, w) ->
  truthy a = false ->
  AuthUtil.sessionCheck w = (Ok tt, with_interval false w).
Proof.
  intros Ha Hta. unfold AuthUtil.sessionCheck.
  unfold bind at 1. now rewrite Ha, Hta.
Qed.

(** One minute after the token of an admin login has expired, the check
    finds the session no longer authenticated and leaves the token, the
    user data and the session record in the storage. *)
Example sessionCheck_after_expiry :
  exists w',
    AuthUtil.sessionCheck (world_logged_in 1861000) = (Ok tt, w')
    /\ items w' = items (world_logged_in 1861000)
    /\ is_Some (items w' !! CONFIG.STORAGE_KEYS.AUTH_TOKEN)
    /\ is_Some (items w' !! CONFIG.STORAGE_KEYS.USER_DATA)
    /\ is_Some (items w' !! CONFIG.STORAGE_KEYS.ADMIN_SESSION).
Proof.
  eexists. split.
  - apply (sessionCheck_not_authenticated _ (JBool false)); vm_compute; reflexivity.
  - repeat split; vm_compute; eauto.
Qed.

(** C8, as stated, fails: the pair that [authenticateAdmin] has in its
    code is the pair of [CONFIG.ADMIN]. *)
Lemma admin_pairs_equal :
  (AuthUtil.ADMIN_USERNAME, AuthUtil.ADMIN_PASSWORD)
  = (CONFIG.ADMIN.USERNAME, CONFIG.ADMIN.PASSWORD)
  /\ (exists res w',
        AuthUtil.authenticateAdmin CONFIG.ADMIN.USERNAME CONFIG.ADMIN.PASSWORD
          world_roomy = (Ok res, w')
        /\ success res = true).
Proof.
  split; [reflexivity|].
  eexists. eexists. split; [vm_compute; reflexivity | reflexivity].
Qed.

(** C8 (amended): the two login paths have the same admin pair:
    [authenticateAdmin] succeeds for the pair of [CONFIG.ADMIN] and for no
    other; [loginLocalStorage] accepts that pair as admin, and without a
    stored user list it accepts no other pair.  The paths differ through
    the stored user list only: with the demo administrator in the list,
    [loginLocalStorage] accepts his e-mail address with his password as
    admin, and [authenticateAdmin] refuses them. *)
Theorem admin_credentials_agree (toISOString : Z -> string) (u p : string)
        (rememberMe : bool) (w : World) :
  (exists res w',
     AuthUtil.authenticateAdmin u p w = (Ok res, w')
     /\ (success res = true
         <-> u = CONFIG.ADMIN.USERNAME /\ p = CONFIG.ADMIN.PASSWORD))
  /\ (exists res w',
        AuthUtil.loginLocalStorage toISOString CONFIG.ADMIN.USERNAME
          CONFIG.ADMIN.PASSWORD rememberMe w = (Ok res, w')
        /\ as_admin res)
  /\ (items w !! CONFIG.STORAGE_KEYS.USERS = None ->
      ~ (u = CONFIG.ADMIN.USERNAME /\ p = CONFIG.ADMIN.PASSWORD) ->
      exists res,
        AuthUtil.loginLocalStorage toISOString u p rememberMe w = (Ok res, w)
        /\ success res = false)
  /\ (exists res w',
        AuthUtil.loginLocalStorage toISOString "admin@dbconstruction.com"
          "admin12345" false world_with_users = (Ok res, w')
        /\ as_admin res)
  /\ (exists res w',
        AuthUtil.authenticateAdmin "admin@dbconstruction.com" "admin12345"
          world_with_users = (Ok res, w')
        /\ success res = false).
Proof.
  split; [apply authenticateAdmin_success|].
  split; [apply loginLocalStorage_admin|].
  split; [apply loginLocalStorage_no_users|].
  split.
  - unfold AuthUtil.loginLocalStorage.
    change (String.eqb "admin@dbconstruction.com" CONFIG.ADMIN.USERNAME
            && String.eqb "admin12345" CONFIG.ADMIN.PASSWORD) with false.
    cbv iota. unfold bind at 1. rewrite get_run.
    replace (stored CONFIG.STORAGE_KEYS.USERS (JArr []) (items world_with_users))
      with (JArr [demo_admin]) by (vm_compute; reflexivity).
    unfold bind at 1, lift_result at 1.
    replace (AuthUtil.find_user "admin@dbconstruction.com" "admin12345" 0 [demo_admin])
      with (Ok (Some (0%nat, demo_admin)) : Result (option (nat * JsVal)))
      by (vm_compute; reflexivity).
    unfold bind at 1. rewrite generateToken_run.
    unfold bind at 1.
    match goal with
    | |- context [StorageUtil.set ?k ?v ?w0] => destruct (set_ok k v w0) as [b1 ->]
    end.
    unfold bind at 1.
    match goal with
    | |- context [StorageUtil.set ?k ?v ?w0] => destruct (set_ok k v w0) as [b2 ->]
    end.
    unfold bind at 1. unfold ret at 1.
    unfold bind at 1. unfold Date_now at 1, read at 1.
    unfold bind at 1.
    match goal with
    | |- context [StorageUtil.set ?k ?v ?w0] => destruct (set_ok k v w0) as [b3 ->]
    end.
    unfold bind at 1. rewrite initSession_run. unfold ret.
    eexists. eexists. split; [reflexivity|].
    split; [reflexivity|]. eexists. split; reflexivity.
  - eexists. eexists. split; [vm_compute; reflexivity | reflexivity].
Qed.

(** C5, as stated, fails for a string with a space in front: the string is
    no word of the pattern, and [validateEmail] trims it and returns
    true. *)
Lemma validateEmail_leading_space :
  ~ re_matches ValidationUtil.emailRegex " user@example.com"
  /\ ValidationUtil.validateEmail (JStr " user@example.com") = true.
Proof.
  split; [apply re_test_false|]; vm_compute; reflexivity.
Qed.

(** C5 (amended): [validateEmail] returns false for every string whose
    trimmed form does not match the accepted pattern, and for every value
    that is not a string; it returns true for every string whose trimmed
    form matches.  It returns false for ["foo@"], ["@bar.com"] and the
    empty string, and true for ["user@example.com"]. *)
Theorem validateEmail_spec :
  (forall s, ValidationUtil.validateEmail (JStr s) = false
             <-> ~ re_matches ValidationUtil.emailRegex (trim s))
  /\ (forall v, is_string v = false -> ValidationUtil.validateEmail v = false)
  /\ ValidationUtil.validateEmail (JStr "foo@") = false
  /\ ValidationUtil.validateEmail (JStr "@bar.com") = false
  /\ ValidationUtil.validateEmail (JStr EmptyString) = false
  /\ ValidationUtil.validateEmail (JStr "user@example.com") = true.
Proof.
  split.
  { intros s. rewrite <- validateEmail_iff.
    destruct (ValidationUtil.validateEmail (JStr s)); split; congruence. }
  split.
  { intros v Hv. destruct v; try reflexivity; discriminate. }
  repeat split; vm_compute; reflexivity.
Qed.




(** The rules of the README, on a form whose name is too short; a number
    with a fraction in a range with a fraction; a field named as a member
    that every object inherits, which counts as filled in; and a rule that
    could not be evaluated, after a rule that fails: the loop has stopped
    before it. *)
Example validateForm_example :
  rules_ok example_rules = true
  /\ ValidationUtil.validateForm example_form example_rules
     = Ok (ValidationUtil.mkFormResult false
             [("name", JStr "name must be at least 3 characters")])
  /\ ValidationUtil.validateForm [("age", JStr "120.5")]
       [("age", [rule_with "numberRange" "params"
                   (JObj [("min", JNum 1); ("max", JDec 1205 1)])])]
     = Ok (ValidationUtil.mkFormResult true [])
  /\ ValidationUtil.validateForm [("age", JStr "1e3")]
       [("age", [rule_with "numberRange" "params"
                   (JObj [("min", JNum 1); ("max", JDec 1205 1)])])]
     = Ok (ValidationUtil.mkFormResult false
             [("age", JStr "age must be between 1 and 120.5")])
  /\ ValidationUtil.validateForm [] [("toString", [rule_of "required"])]
     = Ok (ValidationUtil.mkFormResult true [])
  /\ ValidationUtil.validateForm []
       [("name", [rule_of "required"; rule_of "minLength"])]
     = Ok (ValidationUtil.mkFormResult false
             [("name", JStr "name is required")]).
Proof. vm_compute. auto 10. Qed.

(** With the token of [authenticateAdmin], which lasts as long as the
    timeout, a check can find the session authenticated and the timeout
    reached only at the very millisecond of the expiry, and only when
    there was no activity since the login. *)
Lemma timeout_only_at_expiry (t0 lastActivity now : Z) :
  t0 + CONFIG.SESSION.TIMEOUT <> 0 ->
  token_valid now (JStr (make_token admin_payload None t0)) = true ->
  t0 <= lastActivity ->
  num_ge (num_sub now (JNum lastActivity)) CONFIG.SESSION.TIMEOUT = true ->
  now = t0 + CONFIG.SESSION.TIMEOUT /\ lastActivity = t0.
Proof.
  intros Hne Hv Hl Hge. unfold token_valid in Hv.
  rewrite decode_make_token in Hv by reflexivity. cbv zeta in Hv.
  change (get_prop (JObj (token_payload admin_payload None t0)) "exp")
    with (JNum (t0 + CONFIG.SESSION.TIMEOUT)) in Hv.
  cbn [truthy negb js_lt_num ToNumber num_ltb num_leb] in Hv.
  destruct (t0 + CONFIG.SESSION.TIMEOUT =? 0) eqn:E0; [lia|].
  cbn [negb] in Hv. apply negb_true_iff, Z.ltb_ge in Hv.
  cbn [num_sub ToNumber num_ltb num_leb num_ge] in Hge. apply Z.leb_le in Hge. lia.
Qed.
